(** * pyseg.sub.star: the STAR table ([Star]) and its column registry
    ([RelionCols]), embedded from [src/sub/star.py] (Python 2).

    The table is a record; the methods that mutate it are state
    transformers that also say whether the call returned or raised, so the
    state a raising call leaves behind is part of the model. Python values
    are a tagged union of [str], [int] and [float]; [float] is IEEE binary64
    carried by the [spec_float] type of the standard library. *)

From Stdlib Require Import ZArith Ascii String List Bool Lia.
From Stdlib Require Import Decimal DecimalString DecimalZ DecimalN.
From Stdlib Require Import Floats.SpecFloat.
From stdpp Require Import base option list strings gmap sorting.

#[local] Open Scope string_scope.
#[local] Open Scope list_scope.
#[local] Open Scope Z_scope.

(* ===================================================================== *)
(** ** Python builtins on [str] *)
(* ===================================================================== *)

(** C-locale [isspace]: space, \t, \n, \v, \f, \r. *)
Definition isspace (c : ascii) : bool :=
  let n := nat_of_ascii c in
  (Nat.eqb n 32 || (Nat.leb 9 n && Nat.leb n 13))%bool.

Definition isdigit (c : ascii) : bool :=
  let n := nat_of_ascii c in (Nat.leb 48 n && Nat.leb n 57)%bool.

Definition nl : ascii := ascii_of_nat 10.
Definition tab : ascii := ascii_of_nat 9.
Definition NL : string := String nl EmptyString.
Definition TAB : string := String tab EmptyString.

Definition chars (s : string) : list ascii := list_ascii_of_string s.
Definition unchars (l : list ascii) : string := string_of_list_ascii l.

(** [s.lstrip()], [s.rstrip()], [s.strip()] *)
Fixpoint lstrip_chars (l : list ascii) : list ascii :=
  match l with
  | c :: l' => if isspace c then lstrip_chars l' else l
  | [] => []
  end.

Definition strip_chars (l : list ascii) : list ascii :=
  rev (lstrip_chars (rev (lstrip_chars l))).

Definition strip (s : string) : string := unchars (strip_chars (chars s)).

(** [s.split()]: the maximal runs of non-blank characters, left to right.
    [cur] is the run being read, reversed. *)
Fixpoint split_go (l : list ascii) (cur : list ascii) : list string :=
  match l with
  | [] => match cur with [] => [] | _ => [unchars (rev cur)] end
  | c :: l' =>
      if isspace c
      then match cur with
           | [] => split_go l' []
           | _ => unchars (rev cur) :: split_go l' []
           end
      else split_go l' (c :: cur)
  end.

Definition split (s : string) : list string := split_go (chars s) [].

(** [f.readlines()]: the lines of a file, each with its newline; a last line
    without newline is kept as it is. *)
Fixpoint readlines_go (l : list ascii) (cur : list ascii) : list string :=
  match l with
  | [] => match cur with [] => [] | _ => [unchars (rev cur)] end
  | c :: l' =>
      if Ascii.eqb c nl
      then unchars (rev (c :: cur)) :: readlines_go l' []
      else readlines_go l' (c :: cur)
  end.

Definition readlines (content : string) : list string :=
  readlines_go (chars content) [].

(** [for v in s]: the one-character strings of [s]. *)
Definition str_iter (s : string) : list string :=
  map (fun c => String c EmptyString) (chars s).

(** Case folding of ASCII letters, for the spellings of inf and nan. *)
Definition lower (c : ascii) : ascii :=
  let n := nat_of_ascii c in
  if (Nat.leb 65 n && Nat.leb n 90)%bool then ascii_of_nat (n + 32) else c.

(* ===================================================================== *)
(** ** [int]: unbounded integers, their decimal text *)
(* ===================================================================== *)

(** [str(z)] *)
Definition int_str (z : Z) : string := NilEmpty.string_of_int (Z.to_int z).

(** A non-empty run of decimal digits read as a number. *)
Definition digits_value (l : list ascii) : option Z :=
  match l with
  | [] => None
  | _ => match NilEmpty.uint_of_string (unchars l) with
         | Some d => Some (Z.of_uint d)
         | None => None
         end
  end.

Definition signed_digits (l : list ascii) : option Z :=
  match l with
  | "-"%char :: l' => Z.opp <$> digits_value l'
  | "+"%char :: l' => digits_value l'
  | _ => digits_value l
  end.

(** [int(s)] for a [str] in base 10: blanks around, an optional sign, digits.
    [None] is the ValueError. *)
Definition int_parse (s : string) : option Z :=
  signed_digits (strip_chars (chars s)).


(* ===================================================================== *)
(** ** [float]: IEEE binary64 *)
(* ===================================================================== *)

Definition float64 : Type := spec_float.

Definition prec64 : Z := 53.
Definition emax64 : Z := 1024.

Definition f64_normalize (m e : Z) : float64 :=
  binary_normalize prec64 emax64 m e false.

(** The float nearest to [(-1)^neg * m / d], ties to even ([m], [d] > 0). *)
Definition f64_of_ratio (neg : bool) (m d : Z) : float64 :=
  let '(q, e, l) := SFdiv_core_binary prec64 emax64 m 0 d 0 in
  binary_round_aux prec64 emax64 neg q e l.

(** Number of decimal digits of a positive integer. *)
Definition ndigits10 (z : Z) : Z := Z.of_nat (String.length (int_str z)).

(** The float nearest to [(-1)^neg * m * 10^e]. Far outside the binary64
    range the result is known without computing the power of ten. *)
Definition f64_of_decimal (neg : bool) (m e : Z) : float64 :=
  if m =? 0 then S754_zero neg
  else if 310 <? ndigits10 m + e then S754_infinity neg
  else if ndigits10 m + e <? -330 then S754_zero neg
  else if 0 <=? e
       then binary_normalize prec64 emax64 (if neg then - (m * 10 ^ e) else m * 10 ^ e) 0 neg
       else f64_of_ratio neg m (10 ^ (- e)).

(** [float(z)] for an [int]: OverflowError ([None]) beyond the range. *)
Definition f64_of_int (z : Z) : option float64 :=
  match f64_normalize z 0 with
  | S754_infinity _ => None
  | f => Some f
  end.

(** The mantissa [digits [. digits]], at least one digit in all, then an
    optional exponent [e [sign] digits]. *)
Definition split_at_char (c : ascii) (l : list ascii) : list ascii * option (list ascii) :=
  (fix go (l acc : list ascii) :=
     match l with
     | [] => (rev acc, None)
     | x :: l' => if Ascii.eqb (lower x) c then (rev acc, Some l') else go l' (x :: acc)
     end) l [].

Definition all_digits (l : list ascii) : bool := forallb isdigit l.

Definition digits_or_zero (l : list ascii) : Z :=
  match digits_value l with Some z => z | None => 0 end.

Definition decimal_parse (neg : bool) (l : list ascii) : option float64 :=
  let '(mant, ex) := split_at_char "e" l in
  let '(ip, fp) := split_at_char "." mant in
  let fp := match fp with Some f => f | None => [] end in
  if negb (all_digits ip && all_digits fp) then None
  else match ip ++ fp with
       | [] => None
       | ds =>
           let m := digits_or_zero ds in
           let shift := Z.of_nat (length fp) in
           match ex with
           | None => Some (f64_of_decimal neg m (- shift))
           | Some el =>
               match signed_digits el with
               | Some e => Some (f64_of_decimal neg m (e - shift))
               | None => None
               end
           end
       end.

Definition unsigned_parse (neg : bool) (l : list ascii) : option float64 :=
  let w := unchars (map lower l) in
  if String.eqb w "inf" || String.eqb w "infinity" then Some (S754_infinity neg)
  else if String.eqb w "nan" then Some S754_nan
  else decimal_parse neg l.

(** [float(s)] for a [str]; [None] is the ValueError. *)
Definition float_parse (s : string) : option float64 :=
  match strip_chars (chars s) with
  | "-"%char :: l => unsigned_parse true l
  | "+"%char :: l => unsigned_parse false l
  | l => unsigned_parse false l
  end.

(** [int(f)]: truncation towards zero; an infinity is an OverflowError, a
    NaN a ValueError. *)
Inductive trunc_result := TruncOk (z : Z) | TruncInf | TruncNan.

Definition float_trunc (f : float64) : trunc_result :=
  match f with
  | S754_zero _ => TruncOk 0
  | S754_infinity _ => TruncInf
  | S754_nan => TruncNan
  | S754_finite s m e =>
      let a := if 0 <=? e then Zpos m * 2 ^ e else Zpos m / 2 ^ (- e) in
      TruncOk (if s then - a else a)
  end.

(** The integer a float is equal to, if any (for [==] between the types). *)
Definition float_exact_int (f : float64) : option Z :=
  match f with
  | S754_zero _ => Some 0
  | S754_finite s m e =>
      if 0 <=? e then Some ((if s then -1 else 1) * (Zpos m * 2 ^ e))
      else if Zpos m mod 2 ^ (- e) =? 0
           then Some ((if s then -1 else 1) * (Zpos m / 2 ^ (- e)))
           else None
  | _ => None
  end.

Definition float_eqb (a b : float64) : bool := SFeqb a b.

(** *** [str(f)]: the format [%.12g], with [.0] added to an integral result *)

(** [decpt]: the [k] with [10^(k-1) <= n/d < 10^k]. *)
Definition decimal_point (n d : Z) : Z :=
  if d <=? n then ndigits10 (n / d) else 1 - ndigits10 ((d - 1) / n).

(** [n/d] rounded to an integer, ties to even. *)
Definition round_half_even (n d : Z) : Z :=
  let q := n / d in
  let r := n mod d in
  match 2 * r ?= d with
  | Lt => q
  | Gt => q + 1
  | Eq => if Z.even q then q else q + 1
  end.

Fixpoint rstrip_zeros_rev (l : list ascii) : list ascii :=
  match l with
  | "0"%char :: l' => match l' with [] => l | _ => rstrip_zeros_rev l' end
  | _ => l
  end.

(** At most [ndig] significant digits of [n/d] (trailing zeros dropped), and
    the position of the decimal point. *)
Definition dtoa (ndig : Z) (n d : Z) : list ascii * Z :=
  let k := decimal_point n d in
  let p := ndig - k in
  let q := if 0 <=? p then round_half_even (n * 10 ^ p) d
           else round_half_even n (d * 10 ^ (- p)) in
  let '(q, k) := if q =? 10 ^ ndig then (10 ^ (ndig - 1), k + 1) else (q, k) in
  (rev (rstrip_zeros_rev (rev (chars (int_str q)))), k).

Definition zeros (n : Z) : list ascii := repeat "0"%char (Z.to_nat n).

Definition exp_str (e : Z) : list ascii :=
  let a := chars (int_str (Z.abs e)) in
  (if e <? 0 then "-"%char else "+"%char)
    :: (if Z.abs e <? 10 then "0"%char :: a else a).

Definition format_g12 (ds : list ascii) (decpt : Z) : list ascii :=
  if (decpt <=? -4) || (11 <? decpt)
  then match ds with
       | [] => []
       | c :: rest =>
           (c :: match rest with [] => [] | _ => "."%char :: rest end)
             ++ "e"%char :: exp_str (decpt - 1)
       end
  else if decpt <=? 0 then "0"%char :: "."%char :: zeros (- decpt) ++ ds
  else let n := Z.of_nat (length ds) in
       if n <=? decpt then ds ++ zeros (decpt - n) ++ ["."%char; "0"%char]
       else take (Z.to_nat decpt) ds ++ "."%char :: drop (Z.to_nat decpt) ds.

Definition float_str (f : float64) : string :=
  match f with
  | S754_nan => "nan"
  | S754_infinity s => if s then "-inf" else "inf"
  | S754_zero s => if s then "-0.0" else "0.0"
  | S754_finite s m e =>
      let '(n, d) := if 0 <=? e then (Zpos m * 2 ^ e, 1) else (Zpos m, 2 ^ (- e)) in
      let '(ds, k) := dtoa 12 n d in
      unchars ((if s then ["-"%char] else []) ++ format_g12 ds k)
  end.

(* ===================================================================== *)
(** ** Values, exceptions, the type objects [str], [int], [float] *)
(* ===================================================================== *)

(** The scalars a table cell holds. *)
Inductive value :=
  | VStr (s : string)
  | VInt (z : Z)
  | VFloat (f : float64).

(** An argument that is either one scalar or a sequence of scalars (a list,
    a tuple, an array). *)
Inductive pyobj :=
  | OVal (v : value)
  | OSeq (l : list value).

(** The exceptions of the module. [PySegInputError] has its two keyword
    arguments. [Unmodelled] is not a Python exception: it marks the calls
    into numpy whose behaviour on the given operands is not followed here. *)
Inductive exn :=
  | PySegInputError (expr msg : string)
  | ValueError
  | TypeError
  | IndexError
  | KeyError
  | OverflowError
  | MemoryError
  | Unmodelled (what : string).

Inductive res (A : Type) :=
  | Ret (a : A)
  | Raise (e : exn).
Arguments Ret {A} a.
Arguments Raise {A} e.

#[global] Instance res_ret : MRet res := fun A a => Ret a.
#[global] Instance res_bind : MBind res := fun A B f m =>
  match m with Ret a => f a | Raise e => Raise e end.
#[global] Instance res_fmap : FMap res := fun A B f m =>
  match m with Ret a => Ret (f a) | Raise e => Raise e end.

Definition of_option {A} (e : exn) (o : option A) : res A :=
  match o with Some a => Ret a | None => Raise e end.

Inductive dtype := Dstr | Dint | Dfloat.

#[global] Instance value_eq_dec : EqDecision value.
Proof.
  intros a b. unfold Decision.
  decide equality; try apply Z.eq_dec; try apply string_dec.
  decide equality; try apply Z.eq_dec; try apply Pos.eq_dec; apply Bool.bool_dec.
Defined.
#[global] Instance dtype_eq_dec : EqDecision dtype.
Proof. intros a b. unfold Decision. decide equality. Defined.
#[global] Instance exn_eq_dec : EqDecision exn.
Proof. intros a b. unfold Decision. decide equality; apply string_dec. Defined.

(** [str(v)] *)
Definition py_str (v : value) : string :=
  match v with
  | VStr s => s
  | VInt z => int_str z
  | VFloat f => float_str f
  end.

(** [int(v)] *)
Definition py_int (v : value) : res Z :=
  match v with
  | VStr s => of_option ValueError (int_parse s)
  | VInt z => Ret z
  | VFloat f =>
      match float_trunc f with
      | TruncOk z => Ret z
      | TruncInf => Raise OverflowError
      | TruncNan => Raise ValueError
      end
  end.

(** [float(v)] *)
Definition py_float (v : value) : res float64 :=
  match v with
  | VStr s => of_option ValueError (float_parse s)
  | VInt z => of_option OverflowError (f64_of_int z)
  | VFloat f => Ret f
  end.

(** [dtype(v)]: calling the type object. *)
Definition call_dtype (d : dtype) (v : value) : res value :=
  match d with
  | Dstr => Ret (VStr (py_str v))
  | Dint => VInt <$> py_int v
  | Dfloat => VFloat <$> py_float v
  end.

(** [a == b] *)
Definition py_eq (a b : value) : bool :=
  match a, b with
  | VStr x, VStr y => String.eqb x y
  | VInt x, VInt y => x =? y
  | VFloat x, VFloat y => float_eqb x y
  | VInt x, VFloat y | VFloat y, VInt x =>
      match float_exact_int y with Some z => x =? z | None => false end
  | _, _ => false
  end.

(** [hasattr(o, '__len__')], [len(o)], [for v in o] *)
Definition has_len (o : pyobj) : bool :=
  match o with
  | OVal (VStr _) | OSeq _ => true
  | OVal _ => false
  end.

Definition py_iter (o : pyobj) : list value :=
  match o with
  | OVal (VStr s) => VStr <$> str_iter s
  | OVal _ => []
  | OSeq l => l
  end.

Definition py_len (o : pyobj) : nat := length (py_iter o).

(** [l[i]] and [l[i] = x] for an [int] index: a negative index counts from
    the end, and an index outside [-len, len) is an IndexError. *)
Definition norm_index (n : nat) (i : Z) : option nat :=
  if (0 <=? i) && (i <? Z.of_nat n) then Some (Z.to_nat i)
  else if (- Z.of_nat n <=? i) && (i <? 0) then Some (Z.to_nat (Z.of_nat n + i))
  else None.

Definition getitem {A} (l : list A) (i : Z) : res A :=
  of_option IndexError (norm_index (length l) i ≫= fun j => l !! j).

Definition setitem {A} (l : list A) (i : Z) (x : A) : res (list A) :=
  of_option IndexError ((fun j => <[j := x]> l) <$> norm_index (length l) i).

(** [l.index(x)]: the position of the first element equal to [x]; [None] is
    the ValueError. *)
Fixpoint index_from {A} (eqb : A -> A -> bool) (l : list A) (x : A) (i : nat) : option nat :=
  match l with
  | [] => None
  | y :: l' => if eqb y x then Some i else index_from eqb l' x (S i)
  end.

Definition str_index (l : list string) (x : string) : option nat :=
  index_from String.eqb l x 0.

Definition value_index (l : list value) (x : value) : option nat :=
  index_from py_eq l x 0.

(** [l.pop(i)] for an index in range: the list without position [i]. *)
Definition pop {A} (l : list A) (i : nat) : list A := delete i l.

(* ===================================================================== *)
(** ** [RelionCols] *)
(* ===================================================================== *)

Definition relion_cols : list string :=
  [ "_rlnMicrographName"; "_rlnCoordinateX"; "_rlnCoordinateY";
    "_rlnCoordinateZ"; "_rlnImageName"; "_rlnCtfImage"; "_rlnGroupNumber";
    "_rlnAngleRotPrior"; "_rlnAngleTiltPrior"; "_rlnAnglePsiPrior";
    "_rlnAngleRot"; "_rlnAngleTilt"; "_rlnAnglePsi"; "_rlnOriginX";
    "_rlnOriginY"; "_rlnClassNumber"; "_rlnNormCorrection"; "_rlnOriginZ";
    "_rlnLogLikeliContribution"; "_rlnMaxValueProbDistribution";
    "_rlnNrOfSignificantSamples"; "_rlnRandomSubset";
    "_psGhMCFPickle";
    "_psSegImage"; "_psSegLabel"; "_psSegScale"; "_psSegRot"; "_psSegTilt";
    "_psSegPsi"; "_psSegOffX"; "_psSegOffY"; "_psSegOffZ";
    "_psAPClass"; "_psAPCenter" ].

Definition relion_dtypes : list dtype :=
  [ Dstr; Dfloat; Dfloat; Dfloat; Dstr; Dstr; Dint; Dfloat; Dfloat; Dfloat;
    Dfloat; Dfloat; Dfloat; Dfloat; Dfloat; Dint; Dfloat; Dfloat; Dfloat;
    Dfloat; Dint; Dint;
    Dstr;
    Dstr; Dint; Dfloat; Dfloat; Dfloat; Dfloat; Dfloat; Dfloat; Dfloat;
    Dint; Dint ].

Definition is_valid (key : string) : bool :=
  match str_index relion_cols key with Some _ => true | None => false end.

Definition get_dtype (key : string) : option dtype :=
  if is_valid key
  then str_index relion_cols key ≫= fun idx => relion_dtypes !! idx
  else None.

(** [dtype = self.__checker.get_dtype(key)], then
    [if dtype is None: dtype = float] *)
Definition column_dtype (key : string) : dtype :=
  match get_dtype key with
  | Some d => d
  | None => Dfloat
  end.

(* ===================================================================== *)
(** ** [Star]: the state and the monad of its methods *)
(* ===================================================================== *)

(** The attributes of a [Star] object. [checker] is the constant registry
    above. [data] is the dictionary from column key to the list of the
    column's cells. *)
Record Star := mkStar {
  header_1 : list string;
  data : gmap string (list value);
  dtypes : list dtype;
  rows : nat;
  cols : list string;
  root_dir : option string;
  fname : option string;
}.

(** [Star()] *)
Definition Star_init : Star :=
  {| header_1 := [NL; "data_" +:+ NL; NL; "loop_" +:+ NL];
     data := ∅; dtypes := []; rows := 0%nat; cols := [];
     root_dir := None; fname := None |}.

Definition set_header_1 (h : list string) (s : Star) : Star :=
  mkStar h (data s) (dtypes s) (rows s) (cols s) (root_dir s) (fname s).
Definition set_data (d : gmap string (list value)) (s : Star) : Star :=
  mkStar (header_1 s) d (dtypes s) (rows s) (cols s) (root_dir s) (fname s).
Definition set_dtypes (t : list dtype) (s : Star) : Star :=
  mkStar (header_1 s) (data s) t (rows s) (cols s) (root_dir s) (fname s).
Definition set_rows (n : nat) (s : Star) : Star :=
  mkStar (header_1 s) (data s) (dtypes s) n (cols s) (root_dir s) (fname s).
Definition set_cols (c : list string) (s : Star) : Star :=
  mkStar (header_1 s) (data s) (dtypes s) (rows s) c (root_dir s) (fname s).
Definition set_origin (d f : string) (s : Star) : Star :=
  mkStar (header_1 s) (data s) (dtypes s) (rows s) (cols s) (Some d) (Some f).

(** A method call: from the object's state to the outcome of the call and
    the state it leaves, whether it returned or raised. *)
Definition M (A : Type) : Type := Star -> res A * Star.

#[global] Instance M_ret : MRet M := fun A a s => (Ret a, s).
#[global] Instance M_bind : MBind M := fun A B f m s =>
  match m s with
  | (Ret a, s') => f a s'
  | (Raise e, s') => (Raise e, s')
  end.

Definition raise {A} (e : exn) : M A := fun s => (Raise e, s).
Definition gets {A} (f : Star -> A) : M A := fun s => (Ret (f s), s).
Definition modify (f : Star -> Star) : M unit := fun s => (Ret tt, f s).
(** A method that only reads the object. *)
Definition read {A} (f : Star -> res A) : M A := fun s => (f s, s).

(** [for x in l: body(x)] *)
Fixpoint for_each {A} (l : list A) (body : A -> M unit) : M unit :=
  match l with
  | [] => mret tt
  | x :: l' => body x ;; for_each l' body
  end.

(** [try: m / except <the exceptions h maps to a handler>: handler] *)
Definition try_except {A} (m : M A) (h : exn -> option (M A)) : M A :=
  fun s =>
    match m s with
    | (Raise e, s') => match h e with Some k => k s' | None => (Raise e, s') end
    | r => r
    end.

(** *** Get/Set area *)

Definition get_ncols (s : Star) : nat := length (cols s).
Definition get_nrows (s : Star) : nat := rows s.

Definition is_column (key : string) (s : Star) : bool :=
  bool_decide (key ∈ cols s).
Definition has_column (key : string) (s : Star) : bool :=
  bool_decide (key ∈ cols s).

(** [self.__data[key]] *)
Definition data_at (key : string) (s : Star) : res (list value) :=
  of_option KeyError (data s !! key).

(** [get_column_data]: [None] stands for the Python [None] it returns when
    the column does not exist. *)
Definition get_column_data (key : string) (s : Star) : res (option (list value)) :=
  if is_column key s then Some <$> data_at key s else Ret None.

Definition get_column_keys (s : Star) : list string := cols s.

Definition get_column_type (key : string) (s : Star) : res (option dtype) :=
  match str_index (cols s) key with
  | None => Ret None
  | Some idx => Some <$> of_option IndexError (dtypes s !! idx)
  end.

Definition get_element (key : string) (row : Z) (s : Star) : res value :=
  l ← data_at key s; getitem l row.

Definition find_element (key : string) (val : value) (s : Star) : res nat :=
  l ← data_at key s; of_option ValueError (value_index l val).

(** [set_column_data] with a list or an array of the cells. *)
Definition set_column_data (key : string) (dat : list value) : M unit :=
  fun s =>
    if is_column key s && bool_decide (length dat = get_nrows s)
    then (Ret tt, set_data (<[key := dat]> (data s)) s)
    else (Ret tt, s).

(** *** [add_column] *)

Definition add_column_len_msg (n r : nat) : string :=
  "For multiple input values their length, " +:+ int_str (Z.of_nat n)
    +:+ " must aggree" +:+ " with the current number of rows, "
    +:+ int_str (Z.of_nat r).

(** [for v in l: row.append(dtype(v))] *)
Fixpoint cast_all (d : dtype) (l : list value) : res (list value) :=
  match l with
  | [] => Ret []
  | v :: l' => x ← call_dtype d v; r ← cast_all d l'; Ret (x :: r)
  end.

(** The part "Fill up the new row": the cells of the column, cast. *)
Definition fill_row (dtype : dtype) (val : pyobj) (nrows : nat) : res (list value) :=
  match val with
  | OVal v =>
      if has_len val then
        if negb (bool_decide (py_len val = nrows))
        then Raise (PySegInputError "add_column (Star)"
                      (add_column_len_msg (py_len val) nrows))
        else cast_all dtype (py_iter val)
      else cast_all dtype (replicate nrows v)
  | OSeq l =>
      if negb (bool_decide (length l = nrows))
      then Raise (PySegInputError "add_column (Star)"
                    (add_column_len_msg (length l) nrows))
      else cast_all dtype l
  end.

Definition add_column (key : string) (val : pyobj) (no_parse : bool) : M unit :=
  fun s =>
    if no_parse || is_valid key then
      let dtype := column_dtype key in
      match fill_row dtype val (rows s) with
      | Raise e => (Raise e, s)
      | Ret row =>
          let s1 := set_data (<[key := row]> (data s)) s in
          match str_index (cols s1) key with
          | None =>
              (Ret tt, set_dtypes (dtypes s1 ++ [dtype]) (set_cols (cols s1 ++ [key]) s1))
          | Some idx =>
              let s2 := set_cols (<[idx := key]> (cols s1)) s1 in
              if bool_decide (idx < length (dtypes s2))%nat
              then (Ret tt, set_dtypes (<[idx := dtype]> (dtypes s2)) s2)
              else (Raise IndexError, s2)
          end
      end
    else
      (Raise (PySegInputError "add_column (Star)"
                ("Column name " +:+ key +:+ " not accepted")), s).

(** *** [add_row] *)

Definition add_row_count_msg (n c : nat) : string :=
  "Number of columns introduced for this row, " +:+ int_str (Z.of_nat n)
    +:+ " does not " +:+ " fit the current number of columns, "
    +:+ int_str (Z.of_nat c).

(** The body of the loop over the keyword arguments. *)
Definition add_row_item (kv : string * value) : M unit :=
  let '(key, value) := kv in
  fun s =>
    if is_column key s then
      match get_column_type key s with
      | Raise e => (Raise e, s)
      | Ret None => (Raise TypeError, s)
      | Ret (Some dtype) =>
          match data_at key s with
          | Raise e => (Raise e, s)
          | Ret l =>
              match call_dtype dtype value with
              | Raise e => (Raise e, s)
              | Ret x => (Ret tt, set_data (<[key := l ++ [x]]> (data s)) s)
              end
          end
      end
    else
      (Raise (PySegInputError "add_row (Star)"
                ("Column name " +:+ key +:+ " not present.")), s).

(** [kwargs] is the dictionary of the keyword arguments, as the list of its
    items in the order the dictionary yields them. *)
Definition add_row (kwargs : list (string * value)) : M unit :=
  ncols ← gets get_ncols;
  if negb (bool_decide (length kwargs = ncols))
  then raise (PySegInputError "add_row (Star)"
                (add_row_count_msg (length kwargs) ncols))
  else
    for_each kwargs add_row_item ;;
    modify (fun s => set_rows (S (rows s)) s).

(** *** [del_column] *)

Definition del_column (key : string) : M unit :=
  fun s =>
    if is_column key s then
      match str_index (cols s) key with
      | None => (Raise ValueError, s)
      | Some idx =>
          let s1 := set_cols (pop (cols s) idx) s in
          if bool_decide (idx < length (dtypes s1))%nat
          then
            let s2 := set_dtypes (pop (dtypes s1) idx) s1 in
            match data s2 !! key with
            | Some _ => (Ret tt, set_data (delete key (data s2)) s2)
            | None => (Raise KeyError, s2)
            end
          else (Raise IndexError, s1)
      end
    else (Ret tt, s).

(** *** [del_rows] *)

(** The argument of [del_rows]: an object without [__len__], or a sequence
    of integer indices. *)
Inductive ids_arg :=
  | IdsScalar
  | IdsSeq (l : list Z).

(** [try: ids_lut[idx] = True / except IndexError: pass] *)
Definition mark_id (lut : list bool) (idx : Z) : list bool :=
  match setitem lut idx true with
  | Ret lut' => lut'
  | Raise _ => lut
  end.

Definition cell_at (d : gmap string (list value)) (key : string) (i : nat) : option value :=
  d !! key ≫= fun l => l !! i.

(** [for key in self.__data: self.__data[key].append(hold_data[key][i])],
    then [self.__rows += 1]. The keys of a dictionary come in hash order; each
    turn of the loop touches the list of its own key only, so a run with no
    exception gives the same dictionary in any order. When a list of
    [hold_data] is too short the IndexError is raised with none of the
    lists extended. *)
Definition copy_row (hold_data : gmap string (list value)) (i : nat) : M unit :=
  fun s =>
    if bool_decide (map_Forall (fun key _ => is_Some (cell_at hold_data key i)) (data s))
    then
      let d := map_imap (fun key l => (fun x => l ++ [x]) <$> cell_at hold_data key i) (data s) in
      (Ret tt, set_rows (S (rows s)) (set_data d s))
    else (Raise IndexError, s).

Definition del_rows (ids : ids_arg) : M unit :=
  fun s =>
    match ids with
    | IdsScalar =>
        (Raise (PySegInputError "del_rows (Star)" "Input ids must be a list."), s)
    | IdsSeq [] => (Ret tt, s)
    | IdsSeq l =>
        let hold_data := data s in
        let hold_rows := rows s in
        let s1 := set_data ((fun _ : list value => @nil value) <$> data s)
                    (set_rows 0%nat s) in
        let ids_lut := foldl mark_id (replicate hold_rows false) l in
        for_each (seq 0 hold_rows)
          (fun i => match ids_lut !! i with
                    | Some true => mret tt
                    | Some false => copy_row hold_data i
                    | None => raise IndexError
                    end) s1
    end.

(* ===================================================================== *)
(** ** The invariants of the table, sequences of operations *)
(* ===================================================================== *)

(** Every column has one cell per row. *)
Definition columns_have_row_count (s : Star) : Prop :=
  forall key, key ∈ cols s ->
    exists l, data s !! key = Some l /\ length l = rows s.

(** The invariants of the data model: the column keys are distinct, there is
    one type per column, the dictionary has exactly the columns as its keys,
    and each of its lists has [rows] cells. *)
Definition star_inv (s : Star) : Prop :=
  NoDup (cols s) /\
  length (dtypes s) = length (cols s) /\
  (forall key, key ∈ cols s <-> is_Some (data s !! key)) /\
  (forall key l, data s !! key = Some l -> length l = rows s).

(** A cell of the type of its column. *)
Definition value_has_type (d : dtype) (v : value) : Prop :=
  match d, v with
  | Dstr, VStr _ | Dint, VInt _ | Dfloat, VFloat _ => True
  | _, _ => False
  end.

(** The types are those [add_column] and [load] give the columns, and the
    cells have the type of their column (as every cell written by
    [add_column], [add_row] or [load] has). *)
Definition star_typed (s : Star) : Prop :=
  forall i key, cols s !! i = Some key ->
    dtypes s !! i = Some (column_dtype key) /\
    forall l, data s !! key = Some l -> Forall (value_has_type (column_dtype key)) l.

(** The structural operations, as data. *)
Inductive op :=
  | OpAddRow (kwargs : list (string * value))
  | OpDelRows (ids : ids_arg)
  | OpAddColumn (key : string) (val : pyobj) (no_parse : bool)
  | OpDelColumn (key : string).

Definition run_op (o : op) : M unit :=
  match o with
  | OpAddRow kwargs => add_row kwargs
  | OpDelRows ids => del_rows ids
  | OpAddColumn key val no_parse => add_column key val no_parse
  | OpDelColumn key => del_column key
  end.

(** The operations one after the other, stopping at the first that raises. *)
Definition run_ops (l : list op) : M unit := for_each l run_op.

(** Keyword arguments form a dictionary: no key occurs twice. *)
Definition op_ok (o : op) : Prop :=
  match o with
  | OpAddRow kwargs => NoDup kwargs.*1
  | _ => True
  end.

(** *** What [del_rows] is to leave, said without the lookup table *)

(** Index [idx] names row [j] of [n] rows: directly, or from the end. *)
Definition names_row (n : nat) (idx : Z) (j : nat) : bool :=
  (idx =? Z.of_nat j) || (idx =? Z.of_nat j - Z.of_nat n).

Definition deleted (n : nat) (ids : list Z) (j : nat) : bool :=
  existsb (fun idx => names_row n idx j) ids.

(** The cells of [l], numbered from [j], whose number [del] does not hold of. *)
Fixpoint remaining_from {A} (del : nat -> bool) (j : nat) (l : list A) : list A :=
  match l with
  | [] => []
  | x :: l' =>
      if del j then remaining_from del (S j) l'
      else x :: remaining_from del (S j) l'
  end.

Definition remaining {A} (n : nat) (ids : list Z) (l : list A) : list A :=
  remaining_from (deleted n ids) 0 l.

(** The state of [del_rows] when the rows before [a] have been looked at
    (for the proofs about its loop). *)
Definition del_rows_state (s : Star) (del : nat -> bool) (a : nat) : Star :=
  set_data ((fun l => remaining_from del 0 (take a l)) <$> data s)
    (set_rows (length (remaining_from del 0 (replicate a tt))) s).

(* ===================================================================== *)
(** ** Example tables *)
(* ===================================================================== *)

Definition ops_example : list op :=
  [ OpAddColumn "_rlnMicrographName" (OVal (VInt (-1))) false;
    OpAddColumn "_rlnClassNumber" (OSeq []) false;
    OpAddRow [("_rlnClassNumber", VStr "2"); ("_rlnMicrographName", VStr "t1.mrc")];
    OpAddRow [("_rlnMicrographName", VStr "t2.mrc"); ("_rlnClassNumber", VInt 1)];
    OpAddColumn "_rlnCoordinateX" (OVal (VInt 7)) false;
    OpAddRow [("_rlnMicrographName", VStr "t2.mrc"); ("_rlnCoordinateX", VStr "1.5");
              ("_rlnClassNumber", VInt 1)];
    OpDelRows (IdsSeq [-1; 5]);
    OpDelColumn "_rlnMicrographName" ].

(** Two columns and four rows. *)
Definition table_4rows : Star :=
  snd (run_ops
    [ OpAddColumn "_rlnImageName" (OVal (VInt (-1))) false;
      OpAddColumn "_rlnClassNumber" (OVal (VInt (-1))) false;
      OpAddRow [("_rlnImageName", VStr "p0.mrc"); ("_rlnClassNumber", VInt 1)];
      OpAddRow [("_rlnImageName", VStr "p1.mrc"); ("_rlnClassNumber", VInt 1)];
      OpAddRow [("_rlnImageName", VStr "p2.mrc"); ("_rlnClassNumber", VInt 2)];
      OpAddRow [("_rlnImageName", VStr "p3.mrc"); ("_rlnClassNumber", VInt 2)] ]
    Star_init).

(** The same two columns and no row. *)
Definition table_0rows : Star :=
  snd (run_ops
    [ OpAddColumn "_rlnImageName" (OVal (VInt (-1))) false;
      OpAddColumn "_rlnClassNumber" (OVal (VInt (-1))) false ]
    Star_init).

(* ===================================================================== *)
(** ** What Python leaves open: iteration orders, ties of a sort *)
(* ===================================================================== *)

(** The order in which a [set] and a [dict] yield their elements follows
    the hash tables of the interpreter, and [np.argsort] breaks ties as its
    sorting algorithm happens to. The methods below take these orders as
    parameters; [PyOrdersOk] says what every interpreter guarantees. The
    machine has one more parameter: the length up to which numpy finds the
    memory for the lookup table of [particle_group], the one array whose
    length is a cell of the table and not the length of a list that the
    table already holds. *)
Class PyOrders := {
  (** the order in which a set yields the given distinct elements *)
  set_order : list value -> list value;
  (** the order in which a dictionary yields its items *)
  dict_items : gmap string value -> list (string * value);
  (** [np.argsort(a)]: the positions of [a], by ascending value *)
  argsort : list Z -> list nat;
  (** the greatest length of an [int64] array that numpy finds the memory
      for *)
  arange_max : Z;
}.

Class PyOrdersOk (O : PyOrders) := {
  set_order_perm : forall l, set_order l ≡ₚ l;
  dict_items_perm : forall m, dict_items m ≡ₚ map_to_list m;
  argsort_perm : forall a, argsort a ≡ₚ seq 0 (length a);
  argsort_sorted : forall a i j p q x y,
    (i <= j)%nat -> argsort a !! i = Some p -> argsort a !! j = Some q ->
    a !! p = Some x -> a !! q = Some y -> x <= y;
}.

(** One choice of the orders: first occurrence, key order, stable sort;
    and memory for every array of less than 2^63 bytes. *)
Fixpoint insert_sorted (a : list Z) (p : nat) (sorted : list nat) : list nat :=
  match sorted with
  | [] => [p]
  | q :: rest =>
      if (a !!! p) <=? (a !!! q) then p :: sorted
      else q :: insert_sorted a p rest
  end.

Definition argsort_stable (a : list Z) : list nat :=
  foldr (fun p acc => insert_sorted a p acc) [] (seq 0 (length a)).

Definition orders_simple : PyOrders :=
  {| set_order := fun l => l;
     dict_items := map_to_list;
     argsort := argsort_stable;
     arange_max := 2 ^ 60 - 1 |}.

(** The distinct elements of [l], as [set(l)] holds them: of equal elements
    the first one stays. *)
Fixpoint py_dedup (l : list value) : list value :=
  match l with
  | [] => []
  | x :: l' => x :: filter (fun y => py_eq x y = false) (py_dedup l')
  end.

(** [list(set(l))], [for x in set(l)] *)
Definition py_set {O : PyOrders} (l : list value) : list value :=
  set_order (py_dedup l).

(* ===================================================================== *)
(** ** numpy, as far as the methods use it *)
(* ===================================================================== *)

Definition int64_min : Z := - 2 ^ 63.
Definition int64_max : Z := 2 ^ 63 - 1.
Definition in_int64 (z : Z) : bool := (int64_min <=? z) && (z <=? int64_max).

(** The result of an [np.int64] scalar operation: the 64 low bits, in two's
    complement (numpy warns on overflow and goes on with the wrapped
    value). *)
Definition wrap_int64 (z : Z) : Z := (z - int64_min) mod 2 ^ 64 + int64_min.

(** [np.asarray(l, dtype=np.int)] for a list of Python integers; an integer
    outside 64 bits is an OverflowError. Other elements are not followed. *)
Fixpoint np_asarray_int (l : list value) : res (list Z) :=
  match l with
  | [] => Ret []
  | VInt z :: l' =>
      if in_int64 z then r ← np_asarray_int l'; Ret (z :: r)
      else Raise OverflowError
  | _ :: _ => Raise (Unmodelled "np.asarray(dtype=np.int) of a non-int")
  end.

(** [np.where(a == x)[0]]: the positions of [x] in [a], ascending. *)
Fixpoint np_where_eq (a : list Z) (x : Z) (i : nat) : list nat :=
  match a with
  | [] => []
  | y :: a' => if y =? x then i :: np_where_eq a' x (S i) else np_where_eq a' x (S i)
  end.

(** [np.arange(0, n)] *)
Definition np_arange (n : Z) : list Z := Z.of_nat <$> seq 0 (Z.to_nat n).

(** [np.arange(0, n)] as a new array. numpy refuses a size in bytes, 8 for
    each [int64] element, that does not fit a signed 64-bit integer with a
    ValueError, and without the memory for the array the call is a
    MemoryError. For [n <= 0] the array is empty. *)
Definition np_arange_new {O : PyOrders} (n : Z) : res (list Z) :=
  if int64_max <? 8 * n then Raise ValueError
  else if (0 <? n) && (arange_max <? n) then Raise MemoryError
  else Ret (np_arange n).

(** [a.max()]; on an empty array a ValueError. *)
Definition np_max (a : list Z) : res Z :=
  match a with
  | [] => Raise ValueError
  | x :: a' => Ret (foldl Z.max x a')
  end.

(* ===================================================================== *)
(** ** [split_class] *)
(* ===================================================================== *)

(** *** What [split_class] is to give, said without the loops *)

#[global] Instance value_inhabited : Inhabited value := populate (VInt 0).

(** The cells of the rows whose class id is [c], in the order of the rows. *)
Fixpoint rows_of_class {A} (classes : list Z) (c : Z) (l : list A) : list A :=
  match classes, l with
  | cl :: classes', x :: l' =>
      if cl =? c then x :: rows_of_class classes' c l'
      else rows_of_class classes' c l'
  | _, _ => []
  end.

(** A new table with the columns of [s] and the rows [picked] of [s]. *)
Definition sub_star (s : Star) (picked : list nat) : Star :=
  {| header_1 := header_1 Star_init;
     data := (fun l => (fun j => l !!! j) <$> picked) <$> data s;
     dtypes := dtypes s;
     rows := length picked;
     cols := cols s;
     root_dir := None;
     fname := None |}.

(** [kwargs = dict()], then [kwargs[key] = self.get_element(key, row)] for
    each key. *)
Fixpoint row_kwargs (keys : list string) (row : Z) (s : Star)
    (kwargs : gmap string value) : res (gmap string value) :=
  match keys with
  | [] => Ret kwargs
  | key :: keys' =>
      v ← get_element key row s;
      row_kwargs keys' row s (<[key := v]> kwargs)
  end.

(** The body of the loop over the class ids: the new table of one class. *)
Definition class_star {O : PyOrders} (self : Star) (keys : list string)
    (classes : list Z) (class_id : value) : res Star :=
  let build : M unit :=
    for_each keys (fun key => add_column key (OVal (VInt (-1))) false) ;;
    for_each
      (match class_id with
       | VInt c => np_where_eq classes c 0
       | _ => []
       end)
      (fun row =>
         kwargs ← read (fun _ => row_kwargs keys (Z.of_nat row) self ∅);
         add_row (dict_items kwargs)) in
  match build Star_init with
  | (Ret _, star) => Ret star
  | (Raise e, _) => Raise e
  end.

Fixpoint res_map {A B} (f : A -> res B) (l : list A) : res (list B) :=
  match l with
  | [] => Ret []
  | x :: l' => y ← f x; r ← res_map f l'; Ret (y :: r)
  end.

Definition split_class {O : PyOrders} (s : Star) : res (list Star) :=
  if negb (has_column "_rlnClassNumber" s) then
    Raise (PySegInputError "split_class (Star)" "No _rlnClassNumber column found!")
  else
    col ← get_column_data "_rlnClassNumber" s;
    match col with
    | None => Raise TypeError
    | Some classes =>
        let class_ids := py_set classes in
        classes ← np_asarray_int classes;
        let keys := get_column_keys s in
        res_map (class_star s keys classes) class_ids
    end.

(* ===================================================================== *)
(** ** [particle_group] *)
(* ===================================================================== *)

(** [nparts_gp[idx] += k] on a Python list *)
Definition list_add (l : list Z) (idx : nat) (k : Z) : res (list Z) :=
  match l !! idx with
  | Some x => Ret (<[idx := x + k]> l)
  | None => Raise IndexError
  end.

(** The loop that counts the rows of each group: for each row the cell of
    column [key] is looked up in [groups] and the count at its position
    goes up by one. *)
Fixpoint count_rows (key : string) (groups : list value) (rows_ : list nat)
    (s : Star) (nparts : list Z) : res (list Z) :=
  match rows_ with
  | [] => Ret nparts
  | row :: rows' =>
      gp ← get_element key (Z.of_nat row) s;
      idx ← of_option ValueError (value_index groups gp);
      nparts ← list_add nparts idx 1;
      count_rows key groups rows' s nparts
  end.

(** The body of the outer [try]: the groups are the distinct cells of
    [_rlnGroupNumber]. [set(None)] is a TypeError. *)
Definition groups_from_column {O : PyOrders} (s : Star) : res (list value * list Z) :=
  col ← get_column_data "_rlnGroupNumber" s;
  match col with
  | None => Raise TypeError
  | Some l =>
      let curr_gp := py_set l in
      let nparts_gp := replicate (length curr_gp) 0 in
      nparts_gp ← count_rows "_rlnGroupNumber" curr_gp (seq 0 (get_nrows s)) s nparts_gp;
      Ret (curr_gp, nparts_gp)
  end.

(** The body of the inner [try]. [len(None)] is a TypeError. *)
Definition groups_from_images (s : Star) : res (list value * list Z) :=
  mics ← get_column_data "_rlnImageName" s;
  match mics with
  | None => Raise TypeError
  | Some mics =>
      let curr_gp := VInt <$> np_arange (Z.of_nat (length mics)) in
      let nparts_gp := replicate (length curr_gp) 0 in
      nparts_gp ← count_rows "_rlnImageName" mics (seq 0 (get_nrows s)) s nparts_gp;
      Ret (curr_gp, nparts_gp)
  end.

(** The initialization: the two nested [try] statements. The handlers catch
    ValueError only; the handler of the outer one ends with the call of
    [add_column]. *)
Definition group_init {O : PyOrders} : M (list value * list Z) :=
  fun s =>
    match groups_from_column s with
    | Raise ValueError =>
        match
          match groups_from_images s with
          | Raise ValueError => Ret ([VInt 1], [Z.of_nat (get_nrows s)])
          | r => r
          end
        with
        | Raise e => (Raise e, s)
        | Ret (curr_gp, nparts_gp) =>
            match curr_gp with
            | [] => (Raise IndexError, s)
            | g0 :: _ =>
                match add_column "_rlnGroupNumber" (OVal g0) false s with
                | (Ret _, s') => (Ret (curr_gp, nparts_gp), s')
                | (Raise e, s') => (Raise e, s')
                end
            end
        end
    | r => (r, s)
    end.

(** [nparts_gp[min_ids[0]] > min_gp]; with [min_gp=None] any integer is
    greater (Python 2 orders [None] below every number). *)
Definition gt_min_gp (n : Z) (min_gp : option Z) : bool :=
  match min_gp with
  | Some g => g <? n
  | None => true
  end.

(** The body of [for i in range(len(lut_gp))], on one entry: what pointed
    to [g0] points to [g1]. *)
Definition redirect (g0 g1 : Z) (x : Z) : Z := if x =? g0 then g1 else x.

(** The loop "until the gathering is finished". Each turn takes one group
    out of [curr_gp], so [length curr_gp] turns are enough: [fuel] counts
    them down. *)
Fixpoint gather {O : PyOrders} (fuel : nat) (min_gp : option Z)
    (curr_gp nparts_gp lut_gp : list Z) : res (list Z) :=
  if bool_decide (length (remove_dups curr_gp) <= 1)%nat then Ret lut_gp
  else
    match fuel with
    | O => Raise (Unmodelled "gather: out of fuel")
    | S fuel' =>
        let min_ids := argsort nparts_gp in
        m0 ← of_option IndexError (min_ids !! 0%nat);
        n0 ← of_option IndexError (nparts_gp !! m0);
        if gt_min_gp n0 min_gp || bool_decide (length min_ids <= 1)%nat
        then Ret lut_gp
        else
          g0 ← of_option IndexError (curr_gp !! m0);
          m1 ← of_option IndexError (min_ids !! 1%nat);
          g1 ← of_option IndexError (curr_gp !! m1);
          let lut_gp := redirect g0 g1 <$> lut_gp in
          lut_gp ← setitem lut_gp g0 g1;
          nparts_gp ← list_add nparts_gp m1 n0;
          gather fuel' min_gp (pop curr_gp m0) (pop nparts_gp m0) lut_gp
    end.

(** "Setting the groups": [new_gp[row] = lut_gp[old_gp]] for each row. *)
Fixpoint relabel (lut_gp : list Z) (rows_ : list nat) (s : Star) : res (list value) :=
  match rows_ with
  | [] => Ret []
  | row :: rows' =>
      old_gp ← get_element "_rlnGroupNumber" (Z.of_nat row) s;
      match old_gp with
      | VInt old =>
          new ← getitem lut_gp old;
          r ← relabel lut_gp rows' s;
          Ret (VInt new :: r)
      | _ => Raise (Unmodelled "numpy index that is not an int")
      end
  end.

(** [particle_group]. The bound of the lookup table, [max() + 1], is an
    [np.int64] sum: at the greatest 64-bit integer it wraps to the least
    one and [np.arange] gives an empty table. *)
Definition particle_group {O : PyOrders} (min_gp : option Z) : M unit :=
  '(curr_gp, nparts_gp) ← group_init;
  curr_gp ← read (fun _ => np_asarray_int curr_gp);
  mx ← read (fun _ => np_max curr_gp);
  lut_gp ← read (fun _ => np_arange_new (wrap_int64 (mx + 1)));
  lut_gp ← read (fun _ => gather (length curr_gp) min_gp curr_gp nparts_gp lut_gp);
  new_gp ← read (fun s => relabel lut_gp (seq 0 (get_nrows s)) s);
  set_column_data "_rlnGroupNumber" new_gp.

(* ===================================================================== *)
(** ** [compute_malign] *)
(* ===================================================================== *)

(** [a - b] on Python numbers *)
Definition py_sub (a b : value) : res value :=
  match a, b with
  | VInt x, VInt y => Ret (VInt (x - y))
  | VFloat x, VFloat y => Ret (VFloat (SFsub prec64 emax64 x y))
  | VInt x, VFloat y =>
      fx ← of_option OverflowError (f64_of_int x);
      Ret (VFloat (SFsub prec64 emax64 fx y))
  | VFloat x, VInt y =>
      fy ← of_option OverflowError (f64_of_int y);
      Ret (VFloat (SFsub prec64 emax64 x fy))
  | _, _ => Raise TypeError
  end.

(** What [compute_malign] takes from numpy, [math] and [pyseg.globals]:
    these are not part of this file and stay abstract. Each may raise. *)
Class Collaborators := {
  (** the elements of an array of dtype [np.float32] *)
  f32 : Type;
  (** a Python float stored into such an array *)
  f32_of_float : float64 -> f32;
  vec : Type;
  mat : Type;
  (** [np.mat(np.asarray(ref_vect, dtype=np.float32)).transpose()] *)
  np_column_vector : pyobj -> res vec;
  (** [rot_mat_relion(a, b, c, deg=True)] *)
  rot_mat_relion : value -> value -> value -> res mat;
  (** [m.T * v] *)
  mat_T_times : mat -> vec -> res vec;
  (** [math.degrees(angle_2vec_3D(v1, v2))] *)
  angle_2vec_3D_degrees : vec -> vec -> res float64;
  (** [np.asarray((x, y, z), dtype=np.float32)] *)
  np_asarray_f32 : value -> value -> value -> res vec;
  (** [hold = a - b], then [math.sqrt((hold * hold).sum())] *)
  np_distance : vec -> vec -> res float64;
}.

Definition float_minus_one : float64 := S754_finite true 4503599627370496 (-52).
Definition float_zero : float64 := S754_zero false.

(** [try: o_x, o_y, o_z = ... / except KeyError: o_x, o_y, o_z = 0., 0., 0.] *)
Definition origin_or_zero (row : Z) (s : Star) : res (value * value * value) :=
  match
    o_x ← get_element "_rlnOriginX" row s;
    o_y ← get_element "_rlnOriginY" row s;
    o_z ← get_element "_rlnOriginZ" row s;
    Ret (o_x, o_y, o_z)
  with
  | Raise KeyError => Ret (VFloat float_zero, VFloat float_zero, VFloat float_zero)
  | r => r
  end.

(** The coordinates of a row less its origin, as a float32 array. *)
Definition shifted_coord {C : Collaborators} (row : Z) (s : Star) : res vec :=
  c_x ← get_element "_rlnCoordinateX" row s;
  c_y ← get_element "_rlnCoordinateY" row s;
  c_z ← get_element "_rlnCoordinateZ" row s;
  '(o_x, o_y, o_z) ← origin_or_zero row s;
  x ← py_sub c_x o_x;
  y ← py_sub c_y o_y;
  z ← py_sub c_z o_z;
  np_asarray_f32 x y z.

(** The body of the particles loop once the particle is found at row [j]
    of the reference: the two entries for row [i]. *)
Definition malign_hit {C : Collaborators} (self ref_star : Star) (a_ref_vect : vec)
    (i j : Z) : res (f32 * f32) :=
  rot ← get_element "_rlnAngleRot" i self;
  psi ← get_element "_rlnAnglePsi" i self;
  tilt ← get_element "_rlnAngleTilt" i self;
  r_rot ← get_element "_rlnAngleRot" j ref_star;
  r_psi ← get_element "_rlnAnglePsi" j ref_star;
  r_tilt ← get_element "_rlnAngleTilt" j ref_star;
  mat_1 ← rot_mat_relion rot tilt psi;
  mat_2 ← rot_mat_relion r_rot r_tilt r_psi;
  rot_v_1 ← mat_T_times mat_1 a_ref_vect;
  rot_v_2 ← mat_T_times mat_2 a_ref_vect;
  ang ← angle_2vec_3D_degrees rot_v_1 rot_v_2;
  coord ← shifted_coord i self;
  coord_r ← shifted_coord j ref_star;
  shift ← np_distance coord coord_r;
  Ret (f32_of_float ang, f32_of_float shift).

(** One turn of the particles loop. A ValueError of [find_element] is the
    [continue]. In the source [angs[i]] is written before the shift is
    computed; the arrays are local, so an exception in between loses both. *)
Definition malign_row {C : Collaborators} (self ref_star : Star) (a_ref_vect : vec)
    (i : nat) (out : list f32 * list f32) : res (list f32 * list f32) :=
  p_name ← get_element "_rlnImageName" (Z.of_nat i) self;
  match find_element "_rlnImageName" p_name ref_star with
  | Raise ValueError => Ret out
  | Raise e => Raise e
  | Ret j =>
      '(ang, shift) ← malign_hit self ref_star a_ref_vect (Z.of_nat i) (Z.of_nat j);
      Ret (<[i := ang]> out.1, <[i := shift]> out.2)
  end.

Fixpoint malign_loop {C : Collaborators} (self ref_star : Star) (a_ref_vect : vec)
    (rows_ : list nat) (out : list f32 * list f32) : res (list f32 * list f32) :=
  match rows_ with
  | [] => Ret out
  | i :: rows' =>
      out ← malign_row self ref_star a_ref_vect i out;
      malign_loop self ref_star a_ref_vect rows' out
  end.

Definition compute_malign {C : Collaborators} (self ref_star : Star) (ref_vect : pyobj)
    : res (list f32 * list f32) :=
  let n_parts := get_nrows self in
  let angs := replicate n_parts (f32_of_float float_minus_one) in
  let shifts := replicate n_parts (f32_of_float float_minus_one) in
  a_ref_vect ← np_column_vector ref_vect;
  malign_loop self ref_star a_ref_vect (seq 0 n_parts) (angs, shifts).

(* ===================================================================== *)
(** ** The text codec: [load], [to_string] *)
(* ===================================================================== *)

(** [os.path.split(p)] *)
Definition rfind_slash (l : list ascii) : nat :=
  (fix go (l : list ascii) (i last : nat) :=
     match l with
     | [] => last
     | c :: l' => go l' (S i) (if Ascii.eqb c "/" then S i else last)
     end) l 0%nat 0%nat.

Definition rstrip_slashes (l : list ascii) : list ascii :=
  rev ((fix go (l : list ascii) :=
          match l with
          | c :: l' => if Ascii.eqb c "/" then go l' else l
          | [] => []
          end) (rev l)).

Definition os_path_split (p : string) : string * string :=
  let l := chars p in
  let i := rfind_slash l in
  let head := take i l in
  let tail := drop i l in
  let head :=
    if forallb (fun c => Ascii.eqb c "/") head then head else rstrip_slashes head in
  (unchars head, unchars tail).

(** "Parse Header 1": the lines up to the first that starts with [_]. The
    result is the lines that are left. [lines[lidx][0]] of an empty line
    is an IndexError. *)
Fixpoint load_header_1 (lines : list string) : M (list string) :=
  match lines with
  | [] => mret []
  | line :: rest =>
      match line with
      | EmptyString => raise IndexError
      | String c _ =>
          if Ascii.eqb c "_" then mret lines
          else
            modify (fun s => set_header_1 (header_1 s ++ [line]) s) ;;
            load_header_1 rest
      end
  end.

Definition load_header_msg (fname : string) : string :=
  "Unexpected error parsing star file " +:+ fname +:+ " header.".

(** "Parse Header 2": one column for each line that starts with [_]. *)
Fixpoint load_header_2 (fname : string) (lines : list string) : M (list string) :=
  match lines with
  | [] => mret []
  | line :: rest =>
      match line with
      | EmptyString => raise IndexError
      | String c _ =>
          if Ascii.eqb c "_" then
            match split line with
            | [] => raise IndexError
            | col :: _ =>
                valid ← gets (fun s => is_valid col && negb (is_column col s));
                if valid : bool then
                  modify (fun s =>
                    set_cols (cols s ++ [col])
                      (set_dtypes
                         (dtypes s ++ [column_dtype col])
                         (set_data (<[col := []]> (data s)) s))) ;;
                  load_header_2 fname rest
                else
                  raise (PySegInputError "load (Star)" (load_header_msg fname))
            end
          else mret lines
      end
  end.

(** The cast of one token of a data row:
    [try: typed_d = dtype(d) / except ValueError: ...] *)
Definition load_cast (dtype : dtype) (d : string) : res value :=
  match call_dtype dtype (VStr d) with
  | Raise ValueError =>
      match dtype with
      | Dint =>
          f ← py_float (VStr d);
          z ← py_int (VFloat f);
          Ret (VInt z)
      | _ => Raise ValueError
      end
  | r => r
  end.

(** [zip(datas, self.__dtypes, self.__cols)] *)
Fixpoint zip3 {A B C} (a : list A) (b : list B) (c : list C) : list (A * B * C) :=
  match a, b, c with
  | x :: a', y :: b', z :: c' => (x, y, z) :: zip3 a' b' c'
  | _, _, _ => []
  end.

(** The body of the loop over a row's tokens. *)
Definition load_cell (item : string * dtype * string) : M unit :=
  let '(d, dtype, col) := item in
  fun s =>
    match load_cast dtype d with
    | Raise e => (Raise e, s)
    | Ret typed_d =>
        match data s !! col with
        | Some l => (Ret tt, set_data (<[col := l ++ [typed_d]]> (data s)) s)
        | None => (Raise KeyError, s)
        end
    end.

(** "Parse data rows": the loop ends at the first line that does not have
    one token per column. *)
Fixpoint load_rows (lines : list string) : M unit :=
  match lines with
  | [] => mret tt
  | line :: rest =>
      let datas := split line in
      fun s =>
        if negb (bool_decide (get_ncols s = length datas)) then (Ret tt, s)
        else
          (for_each (zip3 datas (dtypes s) (cols s)) load_cell ;;
           modify (fun s => set_rows (S (rows s)) s) ;;
           load_rows rest) s
  end.

(** [load]; [lines] is what [readlines] gives for the file [fname]. *)
Definition load_lines (fname : string) (lines : list string) : M unit :=
  modify (set_header_1 []) ;;
  lines ← load_header_1 lines;
  modify (set_cols []) ;;
  lines ← load_header_2 fname lines;
  load_rows lines ;;
  modify (set_origin (os_path_split fname).1 (os_path_split fname).2).

(** [load] of a file [fname] with the given content. *)
Definition load (fname content : string) : M unit :=
  load_lines fname (readlines content).

(** The line of [to_string] for column [i] (from 0) of the header. *)
Definition header_line (i : nat) (key : string) : string :=
  key +:+ " " +:+ "#" +:+ int_str (Z.of_nat i + 1) +:+ NL.

(** The line of row [i]: the cells of [keys[:-1]] each with a tab, the cell
    of [keys[-1]] with a newline. *)
Fixpoint row_line (keys : list string) (i : Z) (s : Star) : res string :=
  match keys with
  | [] => Ret ""
  | [key] => c ← get_element key i s; Ret (py_str c +:+ NL)
  | key :: keys' =>
      c ← get_element key i s;
      r ← row_line keys' i s;
      Ret (py_str c +:+ TAB +:+ r)
  end.

Fixpoint concat_strings (l : list string) : string :=
  match l with
  | [] => ""
  | x :: l' => x +:+ concat_strings l'
  end.

Definition to_string (s : Star) : res string :=
  let hold := concat_strings (header_1 s) in
  let hold := hold +:+ concat_strings (imap header_line (cols s)) in
  body ←
    (if bool_decide (0 < get_ncols s)%nat
     then concat_strings <$>
            res_map (fun i => row_line (get_column_keys s) (Z.of_nat i) s)
              (seq 0 (get_nrows s))
     else Ret "");
  Ret (hold +:+ body +:+ NL).

(** Row [i] is a miss: no image name of the reference equals its own. *)
Definition is_miss (names ref_names : list value) (i : nat) : Prop :=
  exists name, names !! i = Some name /\
    Forall (fun r => py_eq r name = false) ref_names.

(** The -1 the two arrays are filled with. *)
Definition sentinel {C : Collaborators} : f32 := f32_of_float float_minus_one.

(** What the particles loop keeps true of the two arrays. *)
Definition malign_inv {C : Collaborators} (n : nat) (names ref_names : list value)
    (out : list f32 * list f32) : Prop :=
  length out.1 = n /\ length out.2 = n /\
  forall i, is_miss names ref_names i ->
    out.1 !! i = Some sentinel /\ out.2 !! i = Some sentinel.

(** A trivial choice of the collaborators, to run [compute_malign] on
    examples: every numerical result is zero. *)
Definition collaborators_zero : Collaborators :=
  {| f32 := float64;
     f32_of_float := fun f => f;
     vec := unit;
     mat := unit;
     np_column_vector := fun _ => Ret tt;
     rot_mat_relion := fun _ _ _ => Ret tt;
     mat_T_times := fun _ _ => Ret tt;
     angle_2vec_3D_degrees := fun _ _ => Ret float_zero;
     np_asarray_f32 := fun _ _ _ => Ret tt;
     np_distance := fun _ _ => Ret float_zero |}.

(** A table with image names, angles and coordinates, and a reference that
    knows two of its three particles. *)
Definition table_align : Star :=
  snd (run_ops
    [ OpAddColumn "_rlnImageName" (OSeq [VStr "p0.mrc"; VStr "p1.mrc"; VStr "p2.mrc"]) false;
      OpAddColumn "_rlnAngleRot" (OVal (VInt 0)) false;
      OpAddColumn "_rlnAngleTilt" (OVal (VInt 0)) false;
      OpAddColumn "_rlnAnglePsi" (OVal (VInt 0)) false;
      OpAddColumn "_rlnCoordinateX" (OVal (VInt 1)) false;
      OpAddColumn "_rlnCoordinateY" (OVal (VInt 2)) false;
      OpAddColumn "_rlnCoordinateZ" (OVal (VInt 3)) false ]
    (set_rows 3 Star_init)).

Definition table_align_ref : Star :=
  snd (del_rows (IdsSeq [1]) table_align).

(** Particles of two micrographs, no group column. *)
Definition table_mics : Star :=
  snd (run_ops
    [ OpAddColumn "_rlnMicrographName"
        (OSeq [VStr "t1.mrc"; VStr "t1.mrc"; VStr "t2.mrc"]) false;
      OpAddColumn "_rlnImageName"
        (OSeq [VStr "p0.mrc"; VStr "p1.mrc"; VStr "p2.mrc"]) false ]
    (set_rows 3 Star_init)).

(** *** Words for the statements about [particle_group] *)

(** The number of rows that carry group id [c]. *)
Definition occupancy (c : Z) (gs : list Z) : Z :=
  Z.of_nat (length (filter (fun x => x = c) gs)).

(** The group each row is in when the lookup table is [lut]. *)
Definition regrouped (lut gs : list Z) : list Z :=
  (fun x => lut !!! Z.to_nat x) <$> gs.



(** A table with only the group column, holding the given ids. *)
Definition table_groups (gs : list Z) : Star :=
  snd (add_column "_rlnGroupNumber" (OSeq (VInt <$> gs)) false
         (set_rows (length gs) Star_init)).

(** A table as the loop "for key in keys: star.add_column(key)" has it
    after the keys [p]: the columns [p], typed, and no row. *)
Definition is_fresh_star (t : Star) (p : list string) : Prop :=
  header_1 t = header_1 Star_init /\ root_dir t = None /\ fname t = None /\
  rows t = 0%nat /\ cols t = p /\ dtypes t = column_dtype <$> p /\
  forall key, data t !! key = if decide (key ∈ p) then Some [] else None.

(** Class ids 1, 1, 2 (the scenario of the specification), and the same
    table with one more column that is not in the registry, accepted with
    [no_parse=True]. *)
Definition table_112 : Star :=
  snd (run_ops
    [ OpAddColumn "_rlnImageName"
        (OSeq [VStr "p0.mrc"; VStr "p1.mrc"; VStr "p2.mrc"]) false;
      OpAddColumn "_rlnClassNumber" (OSeq [VInt 1; VInt 1; VInt 2]) false ]
    (set_rows 3 Star_init)).

Definition table_112_bypass : Star :=
  snd (add_column "myScore" (OVal (VInt 0)) true table_112).

(* ===================================================================== *)
(** ** Words for the statements about [load] *)
(* ===================================================================== *)

Definition starts_with_underscore (line : string) : bool :=
  match line with
  | String c _ => Ascii.eqb c "_"
  | EmptyString => false
  end.

(** A line that the first loop of [load] keeps as a line of [header_1]. *)
Definition preamble_line (line : string) : Prop :=
  line <> "" /\ starts_with_underscore line = false.

(** A line that the second loop of [load] reads as the column [key]. *)
Definition column_line (key line : string) : Prop :=
  starts_with_underscore line = true /\ head (split line) = Some key.

(** A file as [load] understands it: the preamble, one line for each of the
    columns [keys] (at least one, all in the registry, no two the same),
    one line for each row with as many tokens as there are columns, and a
    tail (empty, or starting with a line of another number of tokens). The
    first line after the column lines is not empty and does not start
    with [_]. *)
Record star_file := {
  sf_preamble : list string;
  sf_keys : list string;
  sf_col_lines : list string;
  sf_rows : list (list string);
  sf_row_lines : list string;
  sf_tail : list string;
}.

Definition sf_lines (f : star_file) : list string :=
  sf_preamble f ++ sf_col_lines f ++ sf_row_lines f ++ sf_tail f.

Definition star_file_ok (f : star_file) : Prop :=
  Forall preamble_line (sf_preamble f) /\
  sf_keys f <> [] /\ NoDup (sf_keys f) /\
  Forall (fun key => is_valid key = true) (sf_keys f) /\
  Forall2 column_line (sf_keys f) (sf_col_lines f) /\
  Forall2 (fun toks line =>
             split line = toks /\ length toks = length (sf_keys f))
    (sf_rows f) (sf_row_lines f) /\
  match sf_row_lines f ++ sf_tail f with
  | [] => True
  | line :: _ => preamble_line line
  end /\
  match sf_tail f with
  | [] => True
  | line :: _ => length (split line) <> length (sf_keys f)
  end.

(** The casts of the tokens of one row, in the order of the columns. *)
Fixpoint cast_row (dts : list dtype) (toks : list string) : res (list value) :=
  match dts, toks with
  | dt :: dts', d :: toks' =>
      x ← load_cast dt d; r ← cast_row dts' toks'; Ret (x :: r)
  | _, _ => Ret []
  end.

(** [d] has a decimal point. *)
Definition has_dot (d : string) : bool :=
  existsb (fun c => Ascii.eqb c ".") (chars d).

(** Column [c] of a list of rows of cells. *)
Definition column (c : nat) (cells : list (list value)) : list value :=
  (fun row => row !!! c) <$> cells.

(** The state of [load] after the column lines of [keys]. *)
Definition with_columns (s : Star) (keys : list string) : Star :=
  set_cols (cols s ++ keys)
    (set_dtypes (dtypes s ++ (column_dtype <$> keys))
       (set_data (foldl (fun m key => <[key := []]> m) (data s) keys) s)).

(** The state of [load] after the rows [cells]: column [c] of the rows is
    the list of the key of column [c]. *)
Definition rows_loaded (keys : list string) (cells : list (list value)) (s : Star) : Prop :=
  cols s = keys /\ dtypes s = column_dtype <$> keys /\ rows s = length cells /\
  forall c key, keys !! c = Some key -> data s !! key = Some (column c cells).

(** [load] leaves these attributes alone while it reads the rows. *)
Definition same_meta (s s' : Star) : Prop :=
  header_1 s' = header_1 s /\ root_dir s' = root_dir s /\ fname s' = fname s.

(** A file with an integer and a real column; the integer column has the
    tokens [1e3] and [3.7]. *)
Definition file_example : star_file :=
  {| sf_preamble := header_1 Star_init;
     sf_keys := ["_rlnClassNumber"; "_rlnCoordinateX"];
     sf_col_lines := ["_rlnClassNumber #1" +:+ NL; "_rlnCoordinateX #2" +:+ NL];
     sf_rows := [["1e3"; "1e3"]; ["3.7"; "4"]];
     sf_row_lines := ["1e3" +:+ TAB +:+ "1e3" +:+ NL; "3.7   4" +:+ NL];
     sf_tail := [NL] |}.

(* ===================================================================== *)
(** ** Words for the statements about the round trip *)
(* ===================================================================== *)

Definition no_blank (l : list ascii) : Prop := Forall (fun c => isspace c = false) l.

(** A text that [split] gives back as one token. *)
Definition is_token (t : string) : Prop := t <> "" /\ no_blank (chars t).

(** A line as [readlines] gives them: one newline, at the end. *)
Definition proper_line (line : string) : Prop :=
  exists body, chars line = body ++ [nl] /\ nl ∉ body.

(** The cells that the text form can carry: a text cell that is one token,
    any integer, a real that its 12 digits give back. *)
Definition cell_ok (v : value) : Prop :=
  match v with
  | VStr t => is_token t
  | VInt _ => True
  | VFloat x => float_parse (float_str x) = Some x
  end.

(** The tokens of a row joined as [to_string] does. *)
Fixpoint join_tab (toks : list string) : string :=
  match toks with
  | [] => ""
  | [t] => t +:+ NL
  | t :: toks' => t +:+ TAB +:+ join_tab toks'
  end.

(** Row [r] of a table, in the order of the columns. *)
Definition row_cells (s : Star) (r : nat) : list value :=
  (fun key => (data s !!! key) !!! r) <$> cols s.

(** The file [to_string] writes for a table. *)
Definition file_of (s : Star) : star_file :=
  {| sf_preamble := header_1 s;
     sf_keys := cols s;
     sf_col_lines := imap header_line (cols s);
     sf_rows := (fun r => py_str <$> row_cells s r) <$> seq 0 (rows s);
     sf_row_lines := (fun r => join_tab (py_str <$> row_cells s r)) <$> seq 0 (rows s);
     sf_tail := [NL] |}.

(** A character that is no blank and no underscore: the characters of the
    text of a number. *)
Definition plain_char (c : ascii) : Prop := isspace c = false /\ c <> "_"%char.

(** Every cell of the table is one the text form can carry. *)
Definition cells_ok (s : Star) : Prop :=
  forall key l, data s !! key = Some l -> Forall cell_ok l.

(** The cell of the first row in the first column, if it is a text, does
    not start with an underscore: the loop of [load] over the column lines
    stops at the first line that does not start with one, so the line of
    the first row has to be such a line; the lines after it are read as
    rows whatever they start with. *)
Definition first_cells_ok (s : Star) : Prop :=
  forall key l t, cols s !! 0%nat = Some key -> data s !! key = Some l ->
    l !! 0%nat = Some (VStr t) -> starts_with_underscore t = false.

(** The lines of [header_1] are lines, and none is empty or starts with an
    underscore. *)
Definition header_1_ok (s : Star) : Prop :=
  Forall (fun line => preamble_line line /\ proper_line line) (header_1 s).

(** [to_string] and then [load] of the text into a new table. *)
Definition round_trip (path : string) (s : Star) : res unit * Star :=
  match to_string s with
  | Ret text => load path text Star_init
  | Raise e => (Raise e, Star_init)
  end.

(** One text column, one row; the cell has a blank. *)
Definition table_blank : Star :=
  snd (run_ops
    [ OpAddColumn "_rlnMicrographName" (OVal (VInt (-1))) false;
      OpAddRow [("_rlnMicrographName", VStr "my tomo.mrc")] ]
    Star_init).

(** One real column, one row; the cell has 13 significant digits. *)
Definition table_digits : Star :=
  snd (run_ops
    [ OpAddColumn "_rlnCoordinateX" (OVal (VInt (-1))) false;
      OpAddRow [("_rlnCoordinateX", VStr "0.1234567890123")] ]
    Star_init).

(** No column and one row. *)
Definition table_no_column : Star :=
  snd (run_ops [ OpAddRow [] ] Star_init).

(** A text, an integer and a real column, two rows. *)
Definition table_trip : Star :=
  snd (run_ops
    [ OpAddColumn "_rlnMicrographName" (OVal (VInt (-1))) false;
      OpAddColumn "_rlnClassNumber" (OVal (VInt (-1))) false;
      OpAddColumn "_rlnCoordinateX" (OVal (VInt (-1))) false;
      OpAddRow [("_rlnMicrographName", VStr "t1.mrc"); ("_rlnClassNumber", VInt 2);
                ("_rlnCoordinateX", VStr "1.5")];
      OpAddRow [("_rlnCoordinateX", VStr "-0.1"); ("_rlnClassNumber", VInt (-3));
                ("_rlnMicrographName", VStr "t2.mrc")] ]
    Star_init).

(** A text and an integer column, two rows; the text cell of the second
    row starts with an underscore. *)
Definition table_trip_underscore : Star :=
  snd (run_ops
    [ OpAddColumn "_rlnMicrographName" (OVal (VInt (-1))) false;
      OpAddColumn "_rlnClassNumber" (OVal (VInt (-1))) false;
      OpAddRow [("_rlnMicrographName", VStr "t1.mrc"); ("_rlnClassNumber", VInt 2)];
      OpAddRow [("_rlnClassNumber", VInt 7); ("_rlnMicrographName", VStr "_t2.mrc")] ]
    Star_init).

(** One text column, one row; the cell starts with an underscore. *)
Definition table_underscore : Star :=
  snd (run_ops
    [ OpAddColumn "_rlnMicrographName" (OVal (VInt (-1))) false;
      OpAddRow [("_rlnMicrographName", VStr "_rlnCoordinateX")] ]
    Star_init).

(* ===================================================================== *)
(** ** More of [Star]: cells, counting, copies of columns *)
(* ===================================================================== *)

(** [get_elements]: the cells of row [row] in the columns [keys]. *)
Definition get_elements (keys : list string) (row : Z) (s : Star) : res (list value) :=
  res_map (fun key => get_element key row s) keys.

(** [set_element]. The type is the one of the registry, not the one of the
    column: for a key the registry does not know it is [None], and calling
    it is a TypeError. The value is cast before the cell is looked up. *)
Definition set_element (key : string) (row : Z) (val : value) : M unit :=
  fun s =>
    match get_dtype key with
    | None => (Raise TypeError, s)
    | Some dtype =>
        match call_dtype dtype val with
        | Raise e => (Raise e, s)
        | Ret x =>
            match data_at key s with
            | Raise e => (Raise e, s)
            | Ret l =>
                match setitem l row x with
                | Raise e => (Raise e, s)
                | Ret l' => (Ret tt, set_data (<[key := l']> (data s)) s)
                end
            end
        end
    end.

(** The loop over the pairs of [count_elements] for one row: a missing
    column (KeyError) and a cell that differs both end it with a miss. *)
Fixpoint row_is_hit (pairs : list (string * value)) (row : Z) (s : Star) : res bool :=
  match pairs with
  | [] => Ret true
  | (pkey, pval) :: pairs' =>
      match get_element pkey row s with
      | Raise KeyError => Ret false
      | Raise e => Raise e
      | Ret val =>
          if negb (py_eq val pval) then Ret false
          else row_is_hit pairs' row s
      end
  end.

Fixpoint count_loop (pairs : list (string * value)) (rows_ : list nat) (s : Star)
    (count : Z) : res Z :=
  match rows_ with
  | [] => Ret count
  | row :: rows' =>
      is_hit ← row_is_hit pairs (Z.of_nat row) s;
      count_loop pairs rows' s (if is_hit : bool then count + 1 else count)
  end.

Definition count_elements (pairs : list (string * value)) (s : Star) : res Z :=
  count_loop pairs (seq 0 (get_nrows s)) s 0.

(** [copy_data_columns]; [func] is a function of the list of the cells, or
    [None]. *)
Definition copy_data_columns (key_in key_out : string)
    (func : option (list value -> res pyobj)) : M unit :=
  fun s =>
    match get_column_data key_in s with
    | Raise e => (Raise e, s)
    | Ret None =>
        (Raise (PySegInputError "self (Star)"
                  ("Input column with " +:+ key_in +:+ " does not exist")), s)
    | Ret (Some vals) =>
        match (match func with
               | None => Ret (OSeq vals)
               | Some f => f vals
               end) with
        | Raise e => (Raise e, s)
        | Ret v => add_column key_out v false s
        end
    end.

(** [check_comparable]: the loop over the rows. *)
Fixpoint names_agree (rows_ : list nat) (self star : Star) : res bool :=
  match rows_ with
  | [] => Ret true
  | i :: rows' =>
      a ← get_element "_rlnImageName" (Z.of_nat i) self;
      b ← get_element "_rlnImageName" (Z.of_nat i) star;
      if negb (py_eq a b) then Ret false
      else names_agree rows' self star
  end.

Definition check_comparable (self star : Star) : res bool :=
  if negb (bool_decide (get_nrows self = get_nrows star)) then Ret false
  else names_agree (seq 0 (get_nrows self)) self star.

(* ===================================================================== *)
(** ** Subsets and copies of a table *)
(* ===================================================================== *)

(** [get_subset]: a new table with the columns of [self] and one row for
    each index of [rows_]. *)
Definition get_subset {O : PyOrders} (self : Star) (rows_ : list Z) : res Star :=
  let build : M unit :=
    for_each (get_column_keys self)
      (fun key => add_column key (OVal (VInt (-1))) false) ;;
    for_each rows_
      (fun idx =>
         keys ← gets get_column_keys;
         kwargs ← read (fun _ => row_kwargs keys idx self ∅);
         add_row (dict_items kwargs)) in
  match build Star_init with
  | (Ret _, hold_star) => Ret hold_star
  | (Raise e, _) => Raise e
  end.

(** [is_relion_compatible] for a key that is a [str]. *)
Definition is_relion_compatible (key : string) : bool :=
  is_valid key && (4 <=? String.length key)%nat
  && String.eqb (substring 0 4 key) "_rln".

(** [get_relion_parsed_copy]: [hold_star] is a deep copy of [self]; the
    loop goes through the columns of [self] and deletes from the copy those
    that are not compatible; the copy is returned. *)
Definition get_relion_parsed_copy (self : Star) : res Star :=
  let parse : M unit :=
    for_each (get_column_keys self)
      (fun key => if negb (is_relion_compatible key) then del_column key else mret tt) in
  match parse self with
  | (Ret _, hold_star) => Ret hold_star
  | (Raise e, _) => Raise e
  end.

(** [gen_random_subset] for an [int] [n]; [rnd_idx] is what
    [np.random.randint(0, self.get_nrows(), n)] gives. The result is a new
    table: a deep copy, the parsed copy or the subset. *)
Definition gen_random_subset {O : PyOrders} (n : Z) (parse : bool)
    (rnd_idx : list Z) (s : Star) : res Star :=
  if n <=? 0 then
    Raise (PySegInputError "gen_random_subset (Star)"
             "Input number of particles must be greater than zero!")
  else if Z.of_nat (get_nrows s) <=? n then
    if parse then get_relion_parsed_copy s else Ret s
  else get_subset s rnd_idx.

(* ===================================================================== *)
(** ** [scale_coords] *)
(* ===================================================================== *)

(** [np.asarray(l, dtype=np.float)] for a list of floats; what numpy does
    with other cells is not followed. *)
Definition np_asarray_float (l : list value) : res (list float64) :=
  res_map (fun v => match v with
                    | VFloat x => Ret x
                    | _ => Raise (Unmodelled "np.asarray(dtype=np.float) of a cell that is no float")
                    end) l.

(** One of the six steps: the column read, multiplied, and given to
    [set_column_data]. For a column that is not there [get_column_data]
    gives [None], numpy makes an array of it without complaint, and
    [set_column_data] stops at [is_column] before it asks for a length:
    nothing happens. *)
Definition scale_column (key : string) (fsf : float64) : M unit :=
  fun s =>
    match get_column_data key s with
    | Raise e => (Raise e, s)
    | Ret None => (Ret tt, s)
    | Ret (Some l) =>
        match np_asarray_float l with
        | Raise e => (Raise e, s)
        | Ret a =>
            set_column_data key
              (VFloat <$> ((fun x => SFmul prec64 emax64 x fsf) <$> a)) s
        end
    end.

Definition coord_keys : list string :=
  [ "_rlnCoordinateX"; "_rlnCoordinateY"; "_rlnCoordinateZ";
    "_rlnOriginX"; "_rlnOriginY"; "_rlnOriginZ" ].

Definition scale_coords (sf : value) : M unit :=
  fun s =>
    match py_float sf with
    | Raise e => (Raise e, s)
    | Ret fsf => for_each coord_keys (fun key => scale_column key fsf) s
    end.

(* ===================================================================== *)
(** ** Words for the statements about the methods above *)
(* ===================================================================== *)

(** Row [r] has in column [kv.1] a cell equal to [kv.2]. *)
Definition cell_matches (s : Star) (r : nat) (kv : string * value) : bool :=
  match cell_at (data s) kv.1 r with
  | Some x => py_eq x kv.2
  | None => false
  end.

(** The rows that satisfy every pair. *)
Definition matching_rows (s : Star) (pairs : list (string * value)) : list nat :=
  filter (fun r => forallb (cell_matches s r) pairs = true) (seq 0 (rows s)).

(** A cell of a coordinate column after [scale_coords]. *)
Definition scale_cell (fsf : float64) (v : value) : value :=
  match v with
  | VFloat x => VFloat (SFmul prec64 emax64 x fsf)
  | _ => v
  end.

(** [t] is what [load] has where a new table would have [s], when the
    object had been loaded before: the same preamble, columns and cells
    of the columns, but [extra] more types at the end of the list of
    types and [r0] more in the count of rows. *)
Definition loaded_over (extra : list dtype) (r0 : nat) (s t : Star) : Prop :=
  header_1 t = header_1 s /\ cols t = cols s /\
  dtypes t = dtypes s ++ extra /\ rows t = (r0 + rows s)%nat /\
  forall key, key ∈ cols s -> data t !! key = data s !! key.

(* ===================================================================== *)
(** ** [store] without sub-volumes *)
(* ===================================================================== *)

(** The outcome of [store(fname, del_ang=...)] with [sv] left at [None]:
    the text that is written to the file opened at [fname], or an
    exception. [UnboundLocal] is the UnboundLocalError for the variable
    [i]: only the loop over the rows of the sub-volume part binds it.
    (What the file system does with the write is not part of the model,
    nor is the sub-volume part, which reads and writes tomograms.) *)
Inductive store_outcome :=
  | Written (fname text : string)
  | StoreRaise (e : exn)
  | UnboundLocal.

(** [if del_ang[k] > 0: self.__data[key][i] = 0], then the rest [k]: the
    dictionary is looked up before [i] is. *)
Definition del_angle (flag : Z) (key : string) (s : Star)
    (rest : store_outcome) : store_outcome :=
  if 0 <? flag then
    match data s !! key with
    | None => StoreRaise KeyError
    | Some _ => UnboundLocal
    end
  else rest.

Definition store_plain (fname : string) (del_ang : Z * Z * Z) (s : Star) : store_outcome :=
  del_angle del_ang.1.1 "_rlnAngleRot" s
    (del_angle del_ang.1.2 "_rlnAngleTilt" s
       (del_angle del_ang.2 "_rlnAnglePsi" s
          (match to_string s with
           | Ret text => Written fname text
           | Raise e => StoreRaise e
           end))).

(* ===================================================================== *)
(** * Properties *)
(* ===================================================================== *)

(** ** The builtins *)

Lemma index_from_Some {A} (eqb : A -> A -> bool) l x i j :
  (forall a b, eqb a b = true <-> a = b) ->
  index_from eqb l x i = Some j ->
  (i <= j)%nat /\ l !! (j - i)%nat = Some x /\
  forall k, (k < j - i)%nat -> l !! k <> Some x.
Proof.
  intros Heq. revert i. induction l as [|y l IH]; intros i; simpl; [done|].
  destruct (eqb y x) eqn:E.
  - intros [= <-]. apply Heq in E as ->. rewrite Nat.sub_diag.
    split; [lia|]. split; [done|]. intros k Hk; lia.
  - intros H. apply IH in H as (Hle & Hl & Hfirst).
    split; [lia|]. replace (j - i)%nat with (S (j - S i)) by lia.
    split; [done|]. intros [|k] Hk; simpl.
    + intros [= ->]. assert (eqb x x = true) by by apply Heq. congruence.
    + apply Hfirst. lia.
Qed.

Lemma index_from_None {A} (eqb : A -> A -> bool) l x i :
  (forall a b, eqb a b = true <-> a = b) ->
  index_from eqb l x i = None <-> x ∉ l.
Proof.
  intros Heq. revert i. induction l as [|y l IH]; intros i; simpl.
  - split; [intros _; apply not_elem_of_nil | done].
  - destruct (eqb y x) eqn:E.
    + apply Heq in E as ->. split; [done|]. intros []. left.
    + rewrite IH, not_elem_of_cons. split; [|tauto]. intros H. split; [|done].
      intros ->. assert (eqb y y = true) by by apply Heq. congruence.
Qed.

Lemma str_eqb_iff (a b : string) : String.eqb a b = true <-> a = b.
Proof. apply String.eqb_eq. Qed.

Lemma str_index_Some l x j :
  str_index l x = Some j ->
  l !! j = Some x /\ forall k, (k < j)%nat -> l !! k <> Some x.
Proof.
  intros H. apply (index_from_Some _ _ _ _ _ str_eqb_iff) in H.
  rewrite Nat.sub_0_r in H. tauto.
Qed.

Lemma str_index_None l x : str_index l x = None <-> x ∉ l.
Proof. apply index_from_None, str_eqb_iff. Qed.

Lemma str_index_elem l x : x ∈ l -> exists j, str_index l x = Some j.
Proof.
  intros H. destruct (str_index l x) eqn:E; [eauto|].
  apply str_index_None in E. done.
Qed.

Lemma is_column_true key s : is_column key s = true <-> key ∈ cols s.
Proof. unfold is_column. apply bool_decide_eq_true. Qed.

Lemma is_column_false key s : is_column key s = false <-> key ∉ cols s.
Proof. unfold is_column. apply bool_decide_eq_false. Qed.

Lemma cast_all_length d l r : cast_all d l = Ret r -> length r = length l.
Proof.
  revert r. induction l as [|v l IH]; intros r; simpl.
  - by intros [= <-].
  - destruct (call_dtype d v); simpl; [|done].
    destruct (cast_all d l); simpl; [|done].
    intros [= <-]. simpl. f_equal. by apply IH.
Qed.

Lemma elem_of_pop_NoDup (l : list string) i x y :
  NoDup l -> l !! i = Some x -> y ∈ pop l i <-> y ∈ l /\ y <> x.
Proof.
  intros Hnd Hi. unfold pop. rewrite delete_take_drop.
  pose proof (take_drop_middle l i x Hi) as Hl.
  rewrite <- Hl in Hnd.
  apply NoDup_app in Hnd as (_ & Hdisj & Hnd2).
  apply NoDup_cons in Hnd2 as [Hx2 _].
  assert (y ∈ l <-> y ∈ take i l \/ y = x \/ y ∈ drop (S i) l) as ->.
  { rewrite <- Hl at 1. by rewrite elem_of_app, elem_of_cons. }
  rewrite elem_of_app. split.
  - intros [H|H]; (split; [tauto|]); intros ->; [|done].
    apply (Hdisj _ H). left.
  - tauto.
Qed.

Lemma NoDup_pop {A} (l : list A) i : NoDup l -> NoDup (pop l i).
Proof. intros H. eapply sublist_NoDup; [done|]. apply sublist_delete. Qed.

Lemma length_pop {A} (l : list A) i :
  (i < length l)%nat -> length (pop l i) = Nat.pred (length l).
Proof. intros H. unfold pop. rewrite length_delete; [lia|]. by apply lookup_lt_is_Some. Qed.

(** ** The monad *)

Lemma bind_Ret {A B} (m : M A) (f : A -> M B) s b s' :
  (m ≫= f) s = (Ret b, s') ->
  exists a s1, m s = (Ret a, s1) /\ f a s1 = (Ret b, s').
Proof.
  unfold mbind, M_bind. destruct (m s) as [[a|e] s1]; [eauto|done].
Qed.

Lemma for_each_cons {A} (x : A) l (body : A -> M unit) :
  for_each (x :: l) body = (body x ;; for_each l body).
Proof. done. Qed.

Lemma for_each_Ret_inv {A} (P : Star -> Prop) (l : list A) (body : A -> M unit) s s' :
  (forall x t t', x ∈ l -> P t -> body x t = (Ret tt, t') -> P t') ->
  P s -> for_each l body s = (Ret tt, s') -> P s'.
Proof.
  revert s. induction l as [|x l IH]; intros s Hstep Hs; simpl.
  - by intros [= <-].
  - intros (u & s1 & H1 & H2)%bind_Ret. destruct u.
    eapply IH; [|eapply (Hstep x); [left|done|done]|done].
    intros y t t' Hy. apply Hstep. by right.
Qed.

(** ** The invariant is kept by each structural operation that returns *)

Lemma star_inv_columns s : star_inv s -> columns_have_row_count s.
Proof.
  intros (_ & _ & Hdom & Hlen) key Hkey.
  apply Hdom in Hkey as [l Hl]. exists l. split; [done|]. by eapply Hlen.
Qed.

Lemma star_inv_empty n : star_inv (set_rows n Star_init).
Proof.
  split; [constructor|]. split; [done|]. split.
  - intros key. simpl. rewrite lookup_empty. split.
    + by intros ?%elem_of_nil.
    + by intros [? ?].
  - intros key l. simpl. by rewrite lookup_empty.
Qed.

Lemma star_inv_init : star_inv Star_init.
Proof.
  split; [constructor|]. split; [done|]. split.
  - intros key. simpl. rewrite lookup_empty. split.
    + by intros ?%elem_of_nil.
    + by intros [? ?].
  - intros key l. simpl. by rewrite lookup_empty.
Qed.

Lemma fill_row_length dt val (n : nat) row :
  fill_row dt val n = Ret row -> length row = n.
Proof.
  unfold fill_row. intros H. destruct val as [v|l].
  - destruct (has_len (OVal v)).
    + case_bool_decide as Hn; [|done]. cbn [negb] in H.
      apply cast_all_length in H. rewrite H. exact Hn.
    + apply cast_all_length in H. by rewrite length_replicate in H.
  - case_bool_decide as Hn; simpl in H; [|done].
    apply cast_all_length in H. congruence.
Qed.

Lemma add_column_inv key val no_parse s s' :
  star_inv s -> add_column key val no_parse s = (Ret tt, s') -> star_inv s'.
Proof.
  intros (Hnd & Hty & Hdom & Hlen). unfold add_column.
  destruct (no_parse || is_valid key); [|done].
  destruct (fill_row _ val (rows s)) as [row|e] eqn:Hrow; [|done].
  apply fill_row_length in Hrow.
  simpl. destruct (str_index (cols s) key) as [idx|] eqn:Hidx.
  - apply str_index_Some in Hidx as [Hidx _].
    rewrite (list_insert_id (cols s)) by done.
    case_bool_decide; [|done]. intros [= <-]. unfold star_inv; simpl.
    split; [done|]. split; [by rewrite length_insert|]. split.
    + intros k. destruct (decide (k = key)) as [->|Hne].
      * rewrite lookup_insert_eq. split; [eauto|].
        intros _. by eapply list_elem_of_lookup_2.
      * by rewrite lookup_insert_ne.
    + intros k l. destruct (decide (k = key)) as [->|Hne].
      * rewrite lookup_insert_eq. by intros [= <-].
      * rewrite lookup_insert_ne by done. apply Hlen.
  - apply str_index_None in Hidx. intros [= <-]. unfold star_inv; simpl.
    split. { apply NoDup_app. split; [done|]. split; [|apply NoDup_singleton].
             intros x Hx ->%list_elem_of_singleton. done. }
    split. { rewrite !length_app. simpl. lia. }
    split.
    + intros k. rewrite elem_of_app, list_elem_of_singleton.
      destruct (decide (k = key)) as [->|Hne].
      * rewrite lookup_insert_eq. split; eauto.
      * rewrite lookup_insert_ne by done. rewrite <- Hdom. tauto.
    + intros k l. destruct (decide (k = key)) as [->|Hne].
      * rewrite lookup_insert_eq. by intros [= <-].
      * rewrite lookup_insert_ne by done. apply Hlen.
Qed.

Lemma del_column_inv key s s' :
  star_inv s -> del_column key s = (Ret tt, s') -> star_inv s'.
Proof.
  intros (Hnd & Hty & Hdom & Hlen). unfold del_column.
  destruct (is_column key s) eqn:Hc; [|by intros [= <-]].
  destruct (str_index (cols s) key) as [idx|] eqn:Hidx; [|done].
  apply str_index_Some in Hidx as [Hidx _]. simpl.
  case_bool_decide as Hlt; [|done]. simpl.
  destruct (data s !! key) eqn:Hk; [|done]. intros [= <-]. unfold star_inv; simpl.
  assert (idx < length (cols s))%nat by by eapply lookup_lt_Some.
  split; [by apply NoDup_pop|]. split.
  { rewrite !length_pop; lia. }
  split.
  - intros k. rewrite (elem_of_pop_NoDup _ _ key) by done.
    destruct (decide (k = key)) as [->|Hne].
    + rewrite lookup_delete_eq. split; [tauto|]. by intros [? ?].
    + rewrite lookup_delete_ne by done. rewrite <- Hdom. tauto.
  - intros k l'. destruct (decide (k = key)) as [->|Hne].
    + by rewrite lookup_delete_eq.
    + rewrite lookup_delete_ne by done. apply Hlen.
Qed.

(** *** [add_row] *)

Lemma add_row_item_Ret key v s s' :
  add_row_item (key, v) s = (Ret tt, s') ->
  key ∈ cols s /\
  exists l dt x,
    data s !! key = Some l /\ get_column_type key s = Ret (Some dt) /\
    call_dtype dt v = Ret x /\
    s' = set_data (<[key := l ++ [x]]> (data s)) s.
Proof.
  unfold add_row_item. destruct (is_column key s) eqn:Hc; [|done].
  apply is_column_true in Hc. intros H. split; [done|]. revert H.
  destruct (get_column_type key s) as [[dt|]|] eqn:Hty; [|done|done].
  unfold data_at. destruct (data s !! key) as [l|]; simpl; [|done].
  destruct (call_dtype dt v) as [x|] eqn:Hx; [|done].
  intros [= <-]. by exists l, dt, x.
Qed.

Lemma get_column_type_set_data key d s :
  get_column_type key (set_data d s) = get_column_type key s.
Proof. done. Qed.

Lemma for_each_add_row_item kwargs s s' :
  NoDup kwargs.*1 ->
  for_each kwargs add_row_item s = (Ret tt, s') ->
  exists d, s' = set_data d s /\
  (forall key v, (key, v) ∈ kwargs ->
     key ∈ cols s /\
     exists l dt x,
       data s !! key = Some l /\ get_column_type key s = Ret (Some dt) /\
       call_dtype dt v = Ret x /\ d !! key = Some (l ++ [x])) /\
  (forall key, key ∉ kwargs.*1 -> d !! key = data s !! key).
Proof.
  revert s. induction kwargs as [|[k v] kwargs IH]; intros s Hnd.
  - intros [= <-]. exists (data s). split; [by destruct s|]. split; [|done].
    by intros ?? ?%elem_of_nil.
  - rewrite for_each_cons. intros ([] & s1 & H1 & H2)%bind_Ret.
    apply NoDup_cons in Hnd as [Hk Hnd].
    apply add_row_item_Ret in H1 as (Hcol & l & dt & x & Hl & Hdt & Hx & ->).
    apply IH in H2 as (d & -> & Hin & Hout); [|done]. simpl in *.
    exists d. split; [done|]. split.
    + intros key w [[= -> ->]|Hw]%elem_of_cons.
      * split; [done|]. exists l, dt, x. repeat split; try done.
        rewrite Hout by done. apply lookup_insert_eq.
      * assert (key <> k) as Hne.
        { intros ->. apply Hk. apply list_elem_of_fmap. by exists (k, w). }
        destruct (Hin key w Hw) as (? & l' & dt' & x' & Hl' & ? & ? & ?).
        split; [done|]. exists l', dt', x'. repeat split; try done.
        by rewrite lookup_insert_ne in Hl'.
    + intros key [Hne Hnot]%not_elem_of_cons.
      rewrite Hout by done. by rewrite lookup_insert_ne.
Qed.

(** A dictionary of keyword arguments with as many keys as there are
    columns, all of them columns, names every column. *)
Lemma kwargs_cover (keys colnames : list string) :
  NoDup keys -> (forall k, k ∈ keys -> k ∈ colnames) ->
  length keys = length colnames -> forall k, k ∈ colnames -> k ∈ keys.
Proof.
  intros Hnd Hsub Hlen k Hk.
  assert (keys ⊆+ colnames) as Hs by by apply NoDup_submseteq.
  apply submseteq_length_Permutation in Hs; [|lia].
  by rewrite Hs.
Qed.

Lemma add_row_Ret kwargs s s' :
  NoDup kwargs.*1 ->
  add_row kwargs s = (Ret tt, s') ->
  length kwargs = length (cols s) /\
  exists d, s' = set_rows (S (rows s)) (set_data d s) /\
  (forall key v, (key, v) ∈ kwargs ->
     key ∈ cols s /\
     exists l dt x,
       data s !! key = Some l /\ get_column_type key s = Ret (Some dt) /\
       call_dtype dt v = Ret x /\ d !! key = Some (l ++ [x])) /\
  (forall key, key ∉ kwargs.*1 -> d !! key = data s !! key).
Proof.
  intros Hnd. unfold add_row.
  intros (n & s0 & [= <- <-] & H)%bind_Ret. revert H.
  case_bool_decide as Hn; [|done]. simpl.
  intros ([] & s1 & H1 & [= <-])%bind_Ret.
  apply for_each_add_row_item in H1 as (d & -> & Hin & Hout); [|done].
  split; [done|]. by exists d.
Qed.

Lemma add_row_inv kwargs s s' :
  star_inv s -> NoDup kwargs.*1 ->
  add_row kwargs s = (Ret tt, s') -> star_inv s'.
Proof.
  intros (Hnd & Hty & Hdom & Hlen) Hkw H.
  apply add_row_Ret in H as (Hn & d & -> & Hin & Hout); [|done].
  unfold star_inv; simpl. split; [done|]. split; [done|].
  assert (forall k, k ∈ cols s -> k ∈ kwargs.*1) as Hcover.
  { apply kwargs_cover; [done| |by rewrite length_fmap].
    intros k ((k' & v) & -> & Hkv)%list_elem_of_fmap. by apply (Hin k' v). }
  split.
  - intros k. rewrite Hdom. destruct (decide (k ∈ kwargs.*1)) as [Hk|Hk].
    + apply list_elem_of_fmap in Hk as ((k' & v) & -> & Hkv). simpl.
      destruct (Hin k' v Hkv) as (_ & l & dt & x & -> & _ & _ & ->).
      split; eauto.
    + by rewrite Hout.
  - intros k l' Hl'. destruct (decide (k ∈ kwargs.*1)) as [Hk|Hk].
    + apply list_elem_of_fmap in Hk as ((k' & v) & -> & Hkv). simpl in *.
      destruct (Hin k' v Hkv) as (_ & l & dt & x & Hl & _ & _ & Hl2).
      rewrite Hl2 in Hl'. injection Hl' as <-.
      rewrite length_app. simpl. apply Hlen in Hl. lia.
    + rewrite Hout in Hl' by done.
      assert (k ∈ cols s) as Hc by (apply Hdom; eauto).
      by apply Hcover in Hc.
Qed.

(** *** [del_rows] *)

Lemma norm_index_Some n idx j :
  norm_index n idx = Some j <-> (j < n)%nat /\ names_row n idx j = true.
Proof.
  unfold norm_index, names_row.
  destruct (0 <=? idx) eqn:E1, (idx <? Z.of_nat n) eqn:E2; simpl;
    [|destruct (- Z.of_nat n <=? idx) eqn:E3, (idx <? 0) eqn:E4; simpl..];
    rewrite ?orb_true_iff, ?Z.eqb_eq; split;
    try (intros [= <-]); try lia; try (intros [? [?|?]]; try lia; f_equal; lia).
Qed.

Lemma mark_id_lookup lut idx j :
  (j < length lut)%nat ->
  mark_id lut idx !! j =
    (fun b => b || names_row (length lut) idx j) <$> lut !! j.
Proof.
  intros Hj. destruct (lookup_lt_is_Some_2 lut j Hj) as [b Hb].
  rewrite Hb. simpl. unfold mark_id, setitem.
  destruct (norm_index (length lut) idx) as [k|] eqn:Hk; simpl.
  - apply norm_index_Some in Hk as [Hk Hn].
    destruct (decide (k = j)) as [->|Hne].
    + rewrite list_lookup_insert_eq by done. by rewrite Hn, orb_true_r.
    + rewrite list_lookup_insert_ne by done. rewrite Hb. f_equal.
      destruct (names_row (length lut) idx j) eqn:Hn'; [|by rewrite orb_false_r].
      exfalso. apply Hne. unfold names_row in *.
      rewrite orb_true_iff, !Z.eqb_eq in *. lia.
  - rewrite Hb. f_equal.
    destruct (names_row (length lut) idx j) eqn:Hn'; [|by rewrite orb_false_r].
    assert (norm_index (length lut) idx = Some j) as Hc by by apply norm_index_Some.
    congruence.
Qed.

Lemma mark_id_length lut idx : length (mark_id lut idx) = length lut.
Proof.
  unfold mark_id, setitem. destruct (norm_index _ _); simpl; [|done].
  apply length_insert.
Qed.

Lemma ids_lut_lookup ids lut j :
  (j < length lut)%nat ->
  foldl mark_id lut ids !! j =
    (fun b => b || deleted (length lut) ids j) <$> lut !! j.
Proof.
  revert lut. induction ids as [|idx ids IH]; intros lut Hj; simpl.
  - destruct (lut !! j); simpl; [|done]. by rewrite orb_false_r.
  - rewrite IH by by rewrite mark_id_length.
    rewrite mark_id_lookup, mark_id_length by done.
    destruct (lut !! j); simpl; [|done]. by rewrite orb_assoc.
Qed.

Lemma remaining_from_app {A} del j (l1 l2 : list A) :
  remaining_from del j (l1 ++ l2) =
  remaining_from del j l1 ++ remaining_from del (j + length l1) l2.
Proof.
  revert j. induction l1 as [|x l1 IH]; intros j; simpl.
  - by rewrite Nat.add_0_r.
  - rewrite IH. replace (S j + length l1)%nat with (j + S (length l1))%nat by lia.
    by destruct (del j).
Qed.

Lemma remaining_from_length {A} del j (l : list A) :
  length (remaining_from del j l) =
  length (remaining_from del j (replicate (length l) tt)).
Proof.
  revert j. induction l as [|x l IH]; intros j; simpl; [done|].
  destruct (del j); simpl; by rewrite IH.
Qed.

Lemma del_rows_loop s (ids_lut : list bool) del m a :
  (forall key l, data s !! key = Some l -> length l = (a + m)%nat) ->
  (forall j, (j < a + m)%nat -> ids_lut !! j = Some (del j)) ->
  for_each (seq a m)
    (fun i => match ids_lut !! i with
              | Some true => mret tt
              | Some false => copy_row (data s) i
              | None => raise IndexError
              end) (del_rows_state s del a)
  = (Ret tt, del_rows_state s del (a + m)).
Proof.
  revert a. induction m as [|m IH]; intros a Hlen Hlut.
  - by rewrite Nat.add_0_r.
  - rewrite <- cons_seq, for_each_cons.
    replace (a + S m)%nat with (S a + m)%nat in * by lia.
    assert (del_rows_state s del (S a) =
            if del a then del_rows_state s del a
            else set_rows (S (rows (del_rows_state s del a)))
                   (set_data (map_imap (fun key l => (fun x => l ++ [x]) <$> cell_at (data s) key a)
                                (data (del_rows_state s del a)))
                      (del_rows_state s del a))) as Hstep.
    { unfold del_rows_state.
      replace (replicate (S a) ()) with (replicate a () ++ [()])
        by (by rewrite <- replicate_cons_app).
      rewrite remaining_from_app, length_replicate. simpl.
      destruct (del a) eqn:Hd.
      - rewrite app_nil_r. f_equal. apply map_eq. intros key.
        rewrite !lookup_fmap. destruct (data s !! key) as [l|] eqn:Hl; [|done].
        simpl. f_equal. apply Hlen in Hl.
        destruct (lookup_lt_is_Some_2 l a) as [x Hx]; [lia|].
        rewrite (take_S_r _ _ _ Hx), remaining_from_app, length_take_le by lia.
        simpl. by rewrite Hd, app_nil_r.
      - rewrite length_app. simpl. unfold set_rows, set_data. simpl.
        f_equal; [|lia]. apply map_eq. intros key.
        rewrite map_lookup_imap, !lookup_fmap. unfold cell_at.
        destruct (data s !! key) as [l|] eqn:Hl; [|done].
        simpl. apply Hlen in Hl.
        destruct (lookup_lt_is_Some_2 l a) as [x Hx]; [lia|].
        rewrite Hx. simpl. f_equal.
        rewrite (take_S_r _ _ _ Hx), remaining_from_app, length_take_le by lia.
        simpl. by rewrite Hd. }
    unfold mbind at 1, M_bind. rewrite Hlut by lia.
    destruct (del a) eqn:Hd.
    + unfold mret, M_ret. rewrite <- Hstep. by apply IH.
    + unfold copy_row at 1. rewrite bool_decide_eq_true_2.
      * rewrite <- Hstep. by apply IH.
      * intros key l'. unfold del_rows_state. simpl. rewrite lookup_fmap.
        unfold cell_at. destruct (data s !! key) as [l|] eqn:Hl; [|done].
        intros _. simpl. apply lookup_lt_is_Some_2. apply Hlen in Hl. lia.
Qed.

Lemma del_rows_Ret s idx ids :
  (forall key l, data s !! key = Some l -> length l = rows s) ->
  del_rows (IdsSeq (idx :: ids)) s =
    (Ret tt, del_rows_state s (deleted (rows s) (idx :: ids)) (rows s)).
Proof.
  intros Hlen. unfold del_rows.
  pose proof (del_rows_loop s
    (foldl mark_id (replicate (rows s) false) (idx :: ids))
    (deleted (rows s) (idx :: ids)) (rows s) 0) as H.
  simpl in H. apply H; [done|].
  intros j Hj. change (foldl mark_id (mark_id (replicate (rows s) false) idx) ids)
    with (foldl mark_id (replicate (rows s) false) (idx :: ids)).
  rewrite ids_lut_lookup by by rewrite length_replicate.
  rewrite lookup_replicate_2 by done. by rewrite length_replicate.
Qed.

Lemma del_rows_state_inv s del :
  star_inv s -> star_inv (del_rows_state s del (rows s)).
Proof.
  intros (Hnd & Hty & Hdom & Hlen). unfold star_inv, del_rows_state; simpl.
  split; [done|]. split; [done|]. split.
  - intros key. rewrite lookup_fmap, Hdom. by rewrite fmap_is_Some.
  - intros key l'. rewrite lookup_fmap.
    destruct (data s !! key) as [l|] eqn:Hl; [|done]. intros [= <-].
    rewrite remaining_from_length. apply Hlen in Hl.
    by rewrite length_take_le by lia.
Qed.

Lemma del_rows_inv ids s s' :
  star_inv s -> del_rows ids s = (Ret tt, s') -> star_inv s'.
Proof.
  intros Hinv. destruct ids as [|[|idx ids]].
  - done.
  - by intros [= <-].
  - rewrite del_rows_Ret by apply Hinv. intros [= <-].
    by apply del_rows_state_inv.
Qed.

(** ** C2 *)

Lemma run_op_inv o s s' :
  star_inv s -> op_ok o -> run_op o s = (Ret tt, s') -> star_inv s'.
Proof.
  intros Hinv Hok. destruct o as [kwargs|ids|key val no_parse|key]; simpl.
  - by apply add_row_inv.
  - by apply del_rows_inv.
  - by apply add_column_inv.
  - by apply del_column_inv.
Qed.

Lemma run_ops_inv ops s s' :
  star_inv s -> Forall op_ok ops -> run_ops ops s = (Ret tt, s') -> star_inv s'.
Proof.
  intros Hinv Hok Hrun. revert Hrun. unfold run_ops.
  apply (for_each_Ret_inv star_inv); [|done].
  intros o t t' Ho Ht. apply run_op_inv; [done|].
  by eapply Forall_forall in Hok.
Qed.

(** C2. Starting from a table that has the invariants of the data model
    (the new table [Star()] for one), after any sequence of [add_row],
    [del_rows], [add_column] and [del_column] calls that all returned, the
    table has them again; in particular every column's list of cells has
    exactly [rows] elements. *)
Theorem structural_ops_keep_row_count (ops : list op) (s s' : Star) :
  star_inv s -> Forall op_ok ops ->
  run_ops ops s = (Ret tt, s') ->
  star_inv s' /\ columns_have_row_count s'.
Proof.
  intros Hinv Hok Hrun.
  assert (star_inv s') as H by by eapply run_ops_inv.
  split; [done|by apply star_inv_columns].
Qed.

Lemma NoDup_by_decide {A} `{EqDecision A} (l : list A) :
  bool_decide (NoDup l) = true -> NoDup l.
Proof. apply bool_decide_eq_true_1. Qed.

Ltac ops_ok :=
  repeat (apply Forall_cons; split);
  [ .. | apply Forall_nil ];
  first [ exact I | apply NoDup_by_decide; vm_compute; reflexivity ].

Lemma structural_ops_keep_row_count_witness :
  star_inv (run_ops ops_example Star_init).2 /\
  columns_have_row_count (run_ops ops_example Star_init).2.
Proof.
  apply (structural_ops_keep_row_count ops_example Star_init).
  - apply star_inv_init.
  - ops_ok.
  - vm_compute. reflexivity.
Defined.

(** ** C10 *)

Lemma remaining_from_none {A} del j (l : list A) :
  (forall k, (j <= k < j + length l)%nat -> del k = false) ->
  remaining_from del j l = l.
Proof.
  revert j. induction l as [|x l IH]; intros j H; simpl; [done|].
  rewrite H by (simpl; lia). f_equal. apply IH. intros k Hk. apply H. simpl. lia.
Qed.

Lemma deleted_true n ids j :
  deleted n ids j = true <->
  exists idx, idx ∈ ids /\ (idx = Z.of_nat j \/ idx = Z.of_nat j - Z.of_nat n).
Proof.
  unfold deleted. rewrite existsb_exists. unfold names_row.
  split; intros (idx & Hin & H); exists idx.
  - apply list_elem_of_In in Hin. rewrite orb_true_iff, !Z.eqb_eq in H. done.
  - apply list_elem_of_In in Hin. rewrite orb_true_iff, !Z.eqb_eq. done.
Qed.

(** C10. On a table with [n] rows, [del_rows] with a non-empty list of
    indices returns, and every column keeps exactly the cells whose
    position [j] is named by no index of the list, where an index [i]
    names [j] when [i = j] or [i = j - n]: an index [i] with [-n <= i < 0]
    deletes row [n + i]. When every index is [>= n] or [< -n] the table is
    left as it was. *)
Theorem del_rows_negative_index_wraps (s : Star) (ids : list Z) :
  star_inv s -> ids <> [] ->
  exists s',
    del_rows (IdsSeq ids) s = (Ret tt, s') /\
    cols s' = cols s /\
    (forall key l, data s !! key = Some l ->
       data s' !! key = Some (remaining (rows s) ids l)) /\
    rows s' = length (remaining (rows s) ids (seq 0 (rows s))) /\
    (forall i, i ∈ ids -> - Z.of_nat (rows s) <= i < 0 ->
       deleted (rows s) ids (Z.to_nat (Z.of_nat (rows s) + i)) = true) /\
    ((forall i, i ∈ ids -> Z.of_nat (rows s) <= i \/ i < - Z.of_nat (rows s)) ->
       s' = s).
Proof.
  intros Hinv Hne. destruct ids as [|idx ids]; [done|].
  destruct Hinv as (Hnd & Hty & Hdom & Hlen).
  eexists. split; [by apply del_rows_Ret|].
  split; [done|]. split; [|split; [|split]].
  - intros key l Hl. unfold del_rows_state. simpl.
    rewrite lookup_fmap, Hl. simpl. f_equal. apply Hlen in Hl.
    by rewrite take_ge by lia.
  - unfold del_rows_state, remaining. simpl.
    rewrite (remaining_from_length _ _ (seq _ _)). by rewrite length_seq.
  - intros i Hi Hrange. apply deleted_true. exists i. split; [done|]. lia.
  - intros Hout.
    assert (forall k, (k < rows s)%nat -> deleted (rows s) (idx :: ids) k = false) as Hno.
    { intros k Hk. apply not_true_is_false. intros (i & Hi & Hn)%deleted_true.
      specialize (Hout i Hi). lia. }
    unfold del_rows_state. destruct s as [h d t r c rd fn]. simpl in *.
    unfold set_data, set_rows. simpl. f_equal.
    + apply map_eq. intros key. rewrite lookup_fmap.
      destruct (d !! key) as [l|] eqn:Hl; [|done]. simpl. f_equal.
      apply Hlen in Hl. rewrite take_ge by lia.
      apply remaining_from_none. intros k Hk. apply Hno. lia.
    + rewrite remaining_from_none; [by rewrite length_replicate|].
      intros k Hk. apply Hno. rewrite length_replicate in Hk. lia.
Qed.

Lemma ops_star_inv ops s :
  star_inv s -> Forall op_ok ops -> (run_ops ops s).1 = Ret tt ->
  star_inv (run_ops ops s).2.
Proof.
  intros Hs Hok Hr. destruct (run_ops ops s) as [r s'] eqn:E.
  simpl in *. subst r. by apply (run_ops_inv ops s s').
Qed.

Lemma table_4rows_inv : star_inv table_4rows.
Proof.
  apply ops_star_inv; [apply star_inv_init| |by vm_compute].
  ops_ok.
Qed.

Lemma del_rows_negative_index_wraps_witness :
  exists s',
    del_rows (IdsSeq [-1; 9]) table_4rows = (Ret tt, s') /\
    cols s' = cols table_4rows /\
    (forall key l, data table_4rows !! key = Some l ->
       data s' !! key = Some (remaining (rows table_4rows) [-1; 9] l)) /\
    rows s' = length (remaining (rows table_4rows) [-1; 9] (seq 0 (rows table_4rows))) /\
    (forall i, i ∈ [-1; 9] -> - Z.of_nat (rows table_4rows) <= i < 0 ->
       deleted (rows table_4rows) [-1; 9]
         (Z.to_nat (Z.of_nat (rows table_4rows) + i)) = true) /\
    ((forall i, i ∈ [-1; 9] ->
        Z.of_nat (rows table_4rows) <= i \/ i < - Z.of_nat (rows table_4rows)) ->
       s' = table_4rows).
Proof.
  apply (del_rows_negative_index_wraps table_4rows [-1; 9]).
  - apply table_4rows_inv.
  - discriminate.
Defined.

(** ** C9 *)

Lemma length_chars (v : string) : length (chars v) = String.length v.
Proof. induction v; simpl; congruence. Qed.

Lemma cast_all_str l : cast_all Dstr (VStr <$> l) = Ret (VStr <$> l).
Proof.
  induction l as [|x l IH]; [done|].
  rewrite fmap_cons. cbn [cast_all]. rewrite IH. done.
Qed.

(** C9. For a key the registry types as text, [add_column] with one string
    as the value takes the string for a sequence of its characters: with a
    length other than [rows] the call raises the length error of
    [add_column] and leaves the table as it was; with length [rows] it
    returns and row [i] of the column is the one-character string of
    character [i]. *)
Theorem add_column_string_is_a_sequence (s : Star) (key v : string) :
  star_inv s -> get_dtype key = Some Dstr ->
  (String.length v <> rows s ->
     add_column key (OVal (VStr v)) false s =
       (Raise (PySegInputError "add_column (Star)"
                 (add_column_len_msg (String.length v) (rows s))), s)) /\
  (String.length v = rows s ->
     exists s',
       add_column key (OVal (VStr v)) false s = (Ret tt, s') /\
       rows s' = rows s /\
       data s' !! key =
         Some (map (fun c => VStr (String c EmptyString)) (chars v))).
Proof.
  intros (Hnd & Hty & Hdom & Hlen) Hkey.
  assert (is_valid key = true) as Hv.
  { unfold get_dtype in Hkey. by destruct (is_valid key). }
  assert (py_len (OVal (VStr v)) = String.length v) as Hpl.
  { unfold py_len, py_iter, str_iter. by rewrite !length_fmap, length_chars. }
  unfold add_column, column_dtype. rewrite Hv, Hkey. simpl. unfold fill_row.
  change (has_len (OVal (VStr v))) with true. cbv iota. rewrite Hpl.
  split; intros Hn.
  - by rewrite bool_decide_eq_false_2.
  - rewrite bool_decide_eq_true_2 by done. cbn [negb].
    unfold py_iter. rewrite cast_all_str. simpl.
    destruct (str_index (cols s) key) as [idx|] eqn:Hidx.
    + apply str_index_Some in Hidx as [Hidx _].
      apply lookup_lt_Some in Hidx.
      rewrite bool_decide_eq_true_2 by lia.
      eexists. split; [done|]. simpl. split; [done|].
      rewrite lookup_insert_eq. unfold str_iter. by rewrite <- list_fmap_compose.
    + eexists. split; [done|]. simpl. split; [done|].
      rewrite lookup_insert_eq. unfold str_iter. by rewrite <- list_fmap_compose.
Qed.

Lemma add_column_string_is_a_sequence_witness :
  add_column "_rlnMicrographName" (OVal (VStr "abc")) false table_4rows =
    (Raise (PySegInputError "add_column (Star)"
              (add_column_len_msg (String.length "abc") (rows table_4rows))),
     table_4rows) /\
  exists s',
    add_column "_rlnMicrographName" (OVal (VStr "abcd")) false table_4rows
      = (Ret tt, s') /\
    rows s' = rows table_4rows /\
    data s' !! "_rlnMicrographName" =
      Some (map (fun c => VStr (String c EmptyString)) (chars "abcd")).
Proof.
  split.
  - apply (add_column_string_is_a_sequence table_4rows "_rlnMicrographName" "abc").
    + apply table_4rows_inv.
    + reflexivity.
    + discriminate.
  - apply (add_column_string_is_a_sequence table_4rows "_rlnMicrographName" "abcd").
    + apply table_4rows_inv.
    + reflexivity.
    + reflexivity.
Defined.

(** ** C1 *)

(** A call with a number of keys other than the number of columns raises
    before anything is written. *)
Lemma add_row_count_mismatch kwargs s :
  length kwargs <> length (cols s) ->
  add_row kwargs s =
    (Raise (PySegInputError "add_row (Star)"
              (add_row_count_msg (length kwargs) (length (cols s)))), s).
Proof.
  intros H. unfold add_row, mbind, M_bind, gets, get_ncols.
  by rewrite bool_decide_eq_false_2.
Qed.

Lemma add_row_item_rows kv s r s' :
  add_row_item kv s = (r, s') -> rows s' = rows s /\ cols s' = cols s.
Proof.
  destruct kv as [key v]. unfold add_row_item.
  repeat match goal with
         | |- context [match ?x with _ => _ end] => destruct x
         end; by intros [= <- <-].
Qed.

Lemma for_each_add_row_item_rows kwargs s r s' :
  for_each kwargs add_row_item s = (r, s') ->
  rows s' = rows s /\ cols s' = cols s.
Proof.
  revert s. induction kwargs as [|kv kwargs IH]; intros s.
  - by intros [= <- <-].
  - rewrite for_each_cons. unfold mbind, M_bind.
    destruct (add_row_item kv s) as [[[]|e] s1] eqn:E;
      apply add_row_item_rows in E as [E1 E2].
    + intros [? ?]%IH. split; congruence.
    + intros [= <- <-]. done.
Qed.

Lemma for_each_add_row_item_unknown kwargs s key :
  key ∈ kwargs.*1 -> key ∉ cols s ->
  exists e s', for_each kwargs add_row_item s = (Raise e, s').
Proof.
  revert s. induction kwargs as [|[k v] kwargs IH]; intros s Hin Hout.
  - by apply elem_of_nil in Hin.
  - rewrite for_each_cons. unfold mbind, M_bind.
    destruct (add_row_item (k, v) s) as [[[]|e] s1] eqn:E; [|eauto].
    pose proof (add_row_item_rows _ _ _ _ E) as [_ Hc].
    apply add_row_item_Ret in E as [Hk _].
    simpl in Hin. apply elem_of_cons in Hin as [->|Hin]; [done|].
    apply IH; [done|]. by rewrite Hc.
Qed.

(** A call with a key that is no column raises, and [rows] stays as it
    was (the lists of the columns need not). *)
Lemma add_row_unknown_key_raises kwargs s key :
  key ∈ kwargs.*1 -> key ∉ cols s ->
  exists e s', add_row kwargs s = (Raise e, s') /\ rows s' = rows s.
Proof.
  intros Hin Hout. unfold add_row, mbind at 1, M_bind, gets.
  case_bool_decide as Hn; simpl; [|unfold raise; eauto].
  unfold mbind, M_bind.
  destruct (for_each_add_row_item_unknown kwargs s key Hin Hout) as (e & s' & E).
  rewrite E. exists e, s'. split; [done|].
  by apply for_each_add_row_item_rows in E as [? _].
Qed.

(** C1, where the code departs from it. The table has the columns
    [_rlnImageName] and [_rlnClassNumber] and no row. The call
    [add_row(_rlnImageName='p1.mrc', _rlnGroupNumber=1)] has the right
    number of keys and one key that is no column; its dictionary yields
    [_rlnImageName] first. The call raises the error for the unknown key
    and [rows] is still 0, but the list of [_rlnImageName] has been extended
    by one cell: the columns no longer have [rows] cells each. *)
Theorem add_row_unknown_key_partial_commit :
  star_inv table_0rows /\
  exists s',
    add_row [("_rlnImageName", VStr "p1.mrc"); ("_rlnGroupNumber", VInt 1)]
      table_0rows
    = (Raise (PySegInputError "add_row (Star)"
                "Column name _rlnGroupNumber not present."), s') /\
    rows s' = rows table_0rows /\
    data table_0rows !! "_rlnImageName" = Some [] /\
    data s' !! "_rlnImageName" = Some [VStr "p1.mrc"] /\
    ~ columns_have_row_count s'.
Proof.
  split.
  { apply ops_star_inv; [apply star_inv_init|ops_ok|by vm_compute]. }
  eexists. split; [vm_compute; reflexivity|].
  split; [done|]. split; [by vm_compute|]. split; [by vm_compute|].
  intros H. destruct (H "_rlnImageName") as (l & Hl & Hn).
  - simpl. left.
  - vm_compute in Hl. injection Hl as <-. vm_compute in Hn. discriminate.
Qed.

(** ** C7 *)

Lemma getitem_nat {A} (l : list A) i x :
  l !! i = Some x -> getitem l (Z.of_nat i) = Ret x.
Proof.
  intros H. pose proof (lookup_lt_Some _ _ _ H) as Hlt.
  unfold getitem, norm_index.
  destruct (0 <=? Z.of_nat i) eqn:E1; [|lia].
  destruct (Z.of_nat i <? Z.of_nat (length l)) eqn:E2; [|lia].
  simpl. by rewrite Nat2Z.id, H.
Qed.

Lemma get_element_nat key i s l x :
  data s !! key = Some l -> l !! i = Some x ->
  get_element key (Z.of_nat i) s = Ret x.
Proof.
  intros Hl Hx. unfold get_element, data_at. rewrite Hl. simpl.
  by apply getitem_nat.
Qed.

Lemma value_index_None l x :
  value_index l x = None <-> Forall (fun y => py_eq y x = false) l.
Proof.
  unfold value_index. generalize 0%nat.
  induction l as [|y l IH]; intros n; simpl.
  - split; [constructor|done].
  - destruct (py_eq y x) eqn:E.
    + split; [done|]. intros H. apply Forall_cons in H as [H _]. congruence.
    + rewrite IH. split; [by constructor|]. by intros [_ ?]%Forall_cons.
Qed.

Section Malign.
Context {C : Collaborators}.
Variables (self ref_star : Star) (a_ref_vect : vec).
Variables (names ref_names : list value).
Hypothesis Hnames : data self !! "_rlnImageName" = Some names.
Hypothesis Hlen : length names = rows self.
Hypothesis Href : data ref_star !! "_rlnImageName" = Some ref_names.

Hypothesis Hhit : forall i name j,
  names !! i = Some name ->
  value_index ref_names name = Some j ->
  exists r, malign_hit self ref_star a_ref_vect (Z.of_nat i) (Z.of_nat j) = Ret r.

Lemma malign_row_inv i out :
  (i < rows self)%nat -> malign_inv (rows self) names ref_names out ->
  exists out', malign_row self ref_star a_ref_vect i out = Ret out' /\
               malign_inv (rows self) names ref_names out'.
Proof.
  intros Hi (H1 & H2 & Hm). unfold malign_row.
  destruct (lookup_lt_is_Some_2 names i) as [name Hname]; [lia|].
  rewrite (get_element_nat _ _ _ _ _ Hnames Hname). simpl.
  unfold find_element, data_at. rewrite Href. simpl.
  destruct (value_index ref_names name) as [j|] eqn:Hj; simpl.
  - destruct (Hhit i name j Hname Hj) as [[ang shift] ->]. simpl.
    eexists. split; [done|]. split; [|split]; simpl.
    + by rewrite length_insert.
    + by rewrite length_insert.
    + intros k Hk. assert (k <> i) as Hne.
      { intros ->. destruct Hk as (name' & Hn' & Hall).
        rewrite Hname in Hn'. injection Hn' as <-.
        apply value_index_None in Hall. congruence. }
      rewrite !list_lookup_insert_ne by done. by apply Hm.
  - exists out. split; [done|]. by split.
Qed.

Lemma malign_loop_inv rows_ out :
  Forall (fun i => (i < rows self)%nat) rows_ -> malign_inv (rows self) names ref_names out ->
  exists out', malign_loop self ref_star a_ref_vect rows_ out = Ret out' /\
               malign_inv (rows self) names ref_names out'.
Proof.
  revert out. induction rows_ as [|i rows_ IH]; intros out Hall Hinv; simpl.
  - by exists out.
  - apply Forall_cons in Hall as [Hi Hall].
    destruct (malign_row_inv i out Hi Hinv) as (out1 & -> & Hinv1). simpl.
    by apply IH.
Qed.
End Malign.

(** C7. When both tables have the image-name column and the part of the
    loop body that follows a successful lookup does not raise on the rows
    that are found, [compute_malign] returns two sequences with one entry
    per row; for every row whose image name equals none of the reference's,
    both entries are the -1 the arrays were filled with. The rows that are
    not found take no part in the hypothesis: they raise nothing. *)
Theorem compute_malign_miss_is_sentinel {C : Collaborators}
    (self ref_star : Star) (ref_vect : pyobj) (a_ref_vect : vec)
    (names ref_names : list value) :
  data self !! "_rlnImageName" = Some names ->
  length names = rows self ->
  data ref_star !! "_rlnImageName" = Some ref_names ->
  np_column_vector ref_vect = Ret a_ref_vect ->
  (forall i name j,
     names !! i = Some name -> value_index ref_names name = Some j ->
     exists r, malign_hit self ref_star a_ref_vect (Z.of_nat i) (Z.of_nat j) = Ret r) ->
  exists angs shifts,
    compute_malign self ref_star ref_vect = Ret (angs, shifts) /\
    length angs = rows self /\ length shifts = rows self /\
    forall i name,
      names !! i = Some name ->
      Forall (fun r => py_eq r name = false) ref_names ->
      angs !! i = Some (f32_of_float float_minus_one) /\
      shifts !! i = Some (f32_of_float float_minus_one).
Proof.
  intros Hnames Hlen Href Hvec Hhit. unfold compute_malign. rewrite Hvec. simpl.
  destruct (malign_loop_inv self ref_star a_ref_vect names ref_names
              Hnames Hlen Href Hhit (seq 0 (get_nrows self))
              (replicate (get_nrows self) (f32_of_float float_minus_one),
               replicate (get_nrows self) (f32_of_float float_minus_one)))
    as ([angs shifts] & Hrun & Ha & Hs & Hm).
  - apply Forall_forall. intros i Hi%elem_of_seq. unfold get_nrows in Hi. lia.
  - split; [|split]; simpl; try apply length_replicate.
    intros i (name & Hn & _). apply lookup_lt_Some in Hn.
    unfold get_nrows. rewrite !lookup_replicate_2 by lia. done.
  - exists angs, shifts. split; [done|]. split; [done|]. split; [done|].
    intros i name Hn Hall. apply Hm. by exists name.
Qed.

Lemma compute_malign_miss_is_sentinel_witness :
  exists angs shifts,
    compute_malign (C := collaborators_zero) table_align table_align_ref
      (OSeq [VInt 0; VInt 0; VInt 1]) = Ret (angs, shifts) /\
    length angs = rows table_align /\ length shifts = rows table_align /\
    forall i name,
      [VStr "p0.mrc"; VStr "p1.mrc"; VStr "p2.mrc"] !! i = Some name ->
      Forall (fun r => py_eq r name = false) [VStr "p0.mrc"; VStr "p2.mrc"] ->
      angs !! i = Some (f32_of_float (Collaborators := collaborators_zero) float_minus_one) /\
      shifts !! i = Some (f32_of_float (Collaborators := collaborators_zero) float_minus_one).
Proof.
  apply (compute_malign_miss_is_sentinel (C := collaborators_zero)
           table_align table_align_ref (OSeq [VInt 0; VInt 0; VInt 1]) tt).
  - vm_compute. reflexivity.
  - reflexivity.
  - vm_compute. reflexivity.
  - reflexivity.
  - intros i name j Hn Hj.
    destruct i as [|[|[|i]]]; simpl in Hn; try discriminate;
      injection Hn as <-; vm_compute in Hj; try discriminate;
      injection Hj as <-; eexists; vm_compute; reflexivity.
Defined.

(** ** The simple orders are orders every interpreter could have *)

Lemma insert_sorted_perm a p l : insert_sorted a p l ≡ₚ p :: l.
Proof.
  induction l as [|q l IH]; simpl; [done|].
  destruct (_ <=? _); [done|]. rewrite IH. apply Permutation_swap.
Qed.

Lemma insert_sorted_sorted (a : list Z) p l :
  StronglySorted (fun p q => a !!! p <= a !!! q) l ->
  StronglySorted (fun p q => a !!! p <= a !!! q) (insert_sorted a p l).
Proof.
  induction l as [|q l IH]; intros Hs; simpl.
  - repeat constructor.
  - apply StronglySorted_cons in Hs as [Hq Hs].
    destruct (a !!! p <=? a !!! q) eqn:E.
    + apply Z.leb_le in E. constructor; [by constructor|].
      constructor; [done|]. eapply Forall_impl; [exact Hq|].
      simpl. intros. lia.
    + apply Z.leb_gt in E. constructor; [by apply IH|].
      rewrite insert_sorted_perm. constructor; [lia|done].
Qed.

Lemma argsort_stable_perm a : argsort_stable a ≡ₚ seq 0 (length a).
Proof.
  unfold argsort_stable. induction (seq 0 (length a)) as [|p l IH]; simpl; [done|].
  by rewrite insert_sorted_perm, IH.
Qed.

Lemma argsort_stable_sorted a :
  StronglySorted (fun p q => a !!! p <= a !!! q) (argsort_stable a).
Proof.
  unfold argsort_stable. induction (seq 0 (length a)) as [|p l IH]; simpl.
  - constructor.
  - by apply insert_sorted_sorted.
Qed.

Lemma StronglySorted_lookup_le {A} (R : A -> A -> Prop) l i j x y :
  (forall z, R z z) -> StronglySorted R l -> (i <= j)%nat ->
  l !! i = Some x -> l !! j = Some y -> R x y.
Proof.
  intros Hrefl Hs. revert i j.
  induction Hs as [|z l Hs IH Hall]; intros i j Hij Hi Hj.
  - done.
  - destruct i as [|i], j as [|j]; simpl in *; try lia.
    + by simplify_eq.
    + injection Hi as <-. eapply Forall_forall in Hall; [done|].
      by eapply list_elem_of_lookup_2.
    + eapply IH; [|done..]. lia.
Qed.

#[global] Instance orders_simple_ok : PyOrdersOk orders_simple.
Proof.
  split; simpl.
  - done.
  - done.
  - apply argsort_stable_perm.
  - intros a i j p q x y Hij Hp Hq Hx Hy.
    pose proof (argsort_stable_sorted a) as Hs.
    assert (a !!! p <= a !!! q) as Hle.
    { eapply (StronglySorted_lookup_le (fun p q => a !!! p <= a !!! q));
        [|exact Hs|exact Hij|exact Hp|exact Hq]. intros ?. simpl. lia. }
    by rewrite (list_lookup_total_correct _ _ _ Hx),
               (list_lookup_total_correct _ _ _ Hy) in Hle.
Qed.

(** ** C4 *)

(** Without the column [_rlnGroupNumber], [get_column_data] gives [None]
    and [set(None)] raises a TypeError, which the handlers (for ValueError)
    let through: the grouping by image or micrograph name is never
    reached, and the table is left as it was. *)
Lemma particle_group_no_group_column {O : PyOrders} min_gp s :
  "_rlnGroupNumber" ∉ cols s ->
  particle_group min_gp s = (Raise TypeError, s).
Proof.
  intros Hc. apply is_column_false in Hc.
  unfold particle_group, mbind at 1, M_bind, group_init, groups_from_column,
    get_column_data.
  by rewrite Hc.
Qed.

(** With the column, the groups the gathering starts from are the distinct
    cells of the column. *)
Lemma group_init_from_column {O : PyOrders} s l nparts :
  "_rlnGroupNumber" ∈ cols s ->
  data s !! "_rlnGroupNumber" = Some l ->
  count_rows "_rlnGroupNumber" (py_set l) (seq 0 (get_nrows s)) s
    (replicate (length (py_set l)) 0) = Ret nparts ->
  group_init s = (Ret (py_set l, nparts), s).
Proof.
  intros Hc%is_column_true Hl Hn.
  unfold group_init, groups_from_column, get_column_data, data_at.
  rewrite Hc, Hl. simpl. by rewrite Hn.
Qed.

(** C4, where the code departs from it. The table has micrograph names and
    image names and no group column: [particle_group] raises a TypeError
    and groups nothing. *)
Theorem particle_group_without_group_column_raises :
  star_inv table_mics /\
  ("_rlnGroupNumber" ∉ cols table_mics) /\
  ("_rlnMicrographName" ∈ cols table_mics) /\
  particle_group (O := orders_simple) (Some 1) table_mics
    = (Raise TypeError, table_mics).
Proof.
  assert ("_rlnGroupNumber" ∉ cols table_mics) as Hno.
  { apply (bool_decide_eq_false_1 (_ ∈ _)). by vm_compute. }
  split; [|split; [done|split]].
  - apply ops_star_inv; [apply star_inv_empty|ops_ok|by vm_compute].
  - left.
  - by apply particle_group_no_group_column.
Qed.

(** ** C5 *)

Lemma occupancy_cons c x gs :
  occupancy c (x :: gs) = (if decide (x = c) then 1 else 0) + occupancy c gs.
Proof.
  unfold occupancy. rewrite filter_cons.
  destruct (decide (x = c)); simpl; lia.
Qed.

Lemma occupancy_nonneg c gs : 0 <= occupancy c gs.
Proof. unfold occupancy. lia. Qed.








Lemma filter_VInt x (dz : list Z) :
  filter (fun y => py_eq (VInt x) y = false) (VInt <$> dz)
  = VInt <$> filter (fun y => x <> y) dz.
Proof.
  induction dz as [|y dz IH]; [done|].
  rewrite fmap_cons, !filter_cons, IH. simpl.
  destruct (x =? y) eqn:E; [apply Z.eqb_eq in E|apply Z.eqb_neq in E].
  - rewrite decide_False by done. by rewrite decide_False by (intros ?; done).
  - rewrite decide_True by done. by rewrite decide_True by done.
Qed.

Lemma py_dedup_ints gs :
  exists dz, py_dedup (VInt <$> gs) = VInt <$> dz /\ NoDup dz /\
             forall x, x ∈ dz <-> x ∈ gs.
Proof.
  induction gs as [|x gs (dz & IH & Hnd & Hin)].
  - exists []. split; [done|]. split; [constructor|done].
  - exists (x :: filter (fun y => x <> y) dz). rewrite !fmap_cons.
    cbn [py_dedup]. rewrite IH, filter_VInt. split; [done|]. split.
    + constructor; [|by apply NoDup_filter].
      rewrite list_elem_of_filter. tauto.
    + intros y. rewrite !elem_of_cons, list_elem_of_filter, Hin.
      destruct (decide (y = x)); [tauto|]. split; [tauto|].
      intros [?|?]; [done|]. right. split; [congruence|done].
Qed.

Lemma Permutation_VInt (l : list value) (dz : list Z) :
  l ≡ₚ VInt <$> dz -> exists curr, l = VInt <$> curr /\ curr ≡ₚ dz.
Proof.
  intros Hp. apply Permutation_map_inv in Hp as (curr & -> & Hp).
  exists curr. split; [done|]. by symmetry.
Qed.

Lemma py_set_ints {O : PyOrders} {OK : PyOrdersOk O} gs :
  exists curr, py_set (VInt <$> gs) = VInt <$> curr /\ NoDup curr /\
               forall x, x ∈ curr <-> x ∈ gs.
Proof.
  destruct (py_dedup_ints gs) as (dz & Hdz & Hnd & Hin).
  unfold py_set. rewrite Hdz.
  destruct (Permutation_VInt _ _ (set_order_perm (VInt <$> dz))) as (curr & -> & Hp).
  exists curr. split; [done|]. split; [by rewrite Hp|].
  intros x. by rewrite Hp.
Qed.

Lemma value_index_ints curr x n :
  index_from py_eq (VInt <$> curr) (VInt x) n = index_from Z.eqb curr x n.
Proof.
  revert n. induction curr as [|y curr IH]; intros n; [done|].
  rewrite fmap_cons. simpl. by rewrite IH.
Qed.

Lemma value_index_int_elem curr x :
  x ∈ curr ->
  exists p, value_index (VInt <$> curr) (VInt x) = Some p /\ curr !! p = Some x.
Proof.
  intros Hx. unfold value_index. rewrite value_index_ints.
  destruct (index_from Z.eqb curr x 0) as [p|] eqn:E.
  - exists p. split; [done|].
    apply (index_from_Some _ _ _ _ _ Z.eqb_eq) in E as (_ & E & _).
    by rewrite Nat.sub_0_r in E.
  - by apply (index_from_None _ _ _ _ Z.eqb_eq) in E.
Qed.

Lemma occupancy_app c l1 l2 :
  occupancy c (l1 ++ l2) = occupancy c l1 + occupancy c l2.
Proof. unfold occupancy. rewrite filter_app, length_app. lia. Qed.

Lemma count_rows_ints key s gs curr m a :
  data s !! key = Some (VInt <$> gs) ->
  NoDup curr -> (forall x, x ∈ gs -> x ∈ curr) ->
  (a + m = length gs)%nat ->
  count_rows key (VInt <$> curr) (seq a m) s
    ((fun c => occupancy c (take a gs)) <$> curr)
  = Ret ((fun c => occupancy c gs) <$> curr).
Proof.
  intros Hdata Hnd Hin. revert a. induction m as [|m IH]; intros a Ham.
  - simpl. by rewrite take_ge by lia.
  - simpl. destruct (lookup_lt_is_Some_2 gs a) as [x Hx]; [lia|].
    rewrite (get_element_nat _ _ _ _ (VInt x) Hdata)
      by (by rewrite list_lookup_fmap, Hx).
    cbn [mbind res_bind].
    destruct (value_index_int_elem curr x) as (p & -> & Hp).
    { apply Hin. by eapply list_elem_of_lookup_2. }
    cbn [of_option mbind res_bind]. unfold list_add.
    rewrite list_lookup_fmap, Hp. cbn [fmap option_fmap option_map mbind res_bind].
    assert (<[p := occupancy x (take a gs) + 1]>
              ((fun c => occupancy c (take a gs)) <$> curr)
            = (fun c => occupancy c (take (S a) gs)) <$> curr) as ->.
    { apply list_eq. intros q. rewrite (take_S_r _ _ _ Hx).
      destruct (decide (q = p)) as [->|Hq].
      - rewrite list_lookup_insert_eq
          by (rewrite length_fmap; by eapply lookup_lt_Some).
        rewrite list_lookup_fmap, Hp. simpl. f_equal.
        rewrite occupancy_app, occupancy_cons. rewrite decide_True by done.
        unfold occupancy. simpl. lia.
      - rewrite list_lookup_insert_ne by done. rewrite !list_lookup_fmap.
        destruct (curr !! q) as [c|] eqn:Hc; [|done]. simpl. f_equal.
        rewrite occupancy_app, occupancy_cons. rewrite decide_False.
        + unfold occupancy. simpl. lia.
        + intros ->. apply Hq. by eapply NoDup_lookup. }
    apply IH. lia.
Qed.

Lemma np_asarray_int_ints curr :
  (forall c, c ∈ curr -> in_int64 c = true) ->
  np_asarray_int (VInt <$> curr) = Ret curr.
Proof.
  induction curr as [|c curr IH]; intros H; [done|].
  rewrite fmap_cons. simpl. rewrite H by left.
  rewrite IH; [done|]. intros x Hx. apply H. by right.
Qed.

Lemma foldl_max_spec (l : list Z) x :
  (x <= foldl Z.max x l) /\ (forall c, c ∈ l -> c <= foldl Z.max x l) /\
  (foldl Z.max x l = x \/ foldl Z.max x l ∈ l).
Proof.
  revert x. induction l as [|y l IH]; intros x; simpl.
  - split; [lia|]. split; [by intros ? ?%elem_of_nil|by left].
  - destruct (IH (Z.max x y)) as (H1 & H2 & H3). split; [lia|]. split.
    + intros c [->|Hc]%elem_of_cons; [lia|by apply H2].
    + destruct H3 as [H3|H3]; [|right; by right].
      destruct (Z.max_spec x y) as [[? E]|[? E]]; rewrite E in *.
      * right. rewrite H3. left.
      * by left.
Qed.

Lemma np_max_spec curr :
  curr <> [] ->
  exists mx, np_max curr = Ret mx /\ mx ∈ curr /\ forall c, c ∈ curr -> c <= mx.
Proof.
  destruct curr as [|x l]; [done|]. intros _. simpl.
  exists (foldl Z.max x l). split; [done|].
  destruct (foldl_max_spec l x) as (H1 & H2 & H3). split.
  - destruct H3 as [->|H3]; [left|by right].
  - intros c [->|Hc]%elem_of_cons; [done|by apply H2].
Qed.

Lemma np_arange_length n : length (np_arange n) = Z.to_nat n.
Proof. unfold np_arange. by rewrite length_fmap, length_seq. Qed.

Lemma np_arange_lookup n c :
  0 <= c < n -> np_arange n !! Z.to_nat c = Some c.
Proof.
  intros Hc. unfold np_arange. rewrite list_lookup_fmap.
  rewrite lookup_seq_lt by lia. simpl. f_equal. lia.
Qed.

Lemma regrouped_arange n gs :
  (forall x, x ∈ gs -> 0 <= x < n) -> regrouped (np_arange n) gs = gs.
Proof.
  intros H. unfold regrouped. rewrite <- (list_fmap_id gs) at 2.
  apply list_fmap_ext. intros i x Hx. simpl.
  apply list_lookup_total_correct, np_arange_lookup, H.
  by eapply list_elem_of_lookup_2.
Qed.

Lemma relabel_ints s gs lut m a :
  data s !! "_rlnGroupNumber" = Some (VInt <$> gs) ->
  (forall x, x ∈ gs -> 0 <= x < Z.of_nat (length lut)) ->
  (a + m <= length gs)%nat ->
  relabel lut (seq a m) s = Ret (VInt <$> regrouped lut (take m (drop a gs))).
Proof.
  intros Hdata Hr. revert a. induction m as [|m IH]; intros a Ham; [done|].
  destruct (lookup_lt_is_Some_2 gs a) as [x Hx]; [lia|].
  cbn [seq relabel].
  rewrite (get_element_nat _ _ _ _ (VInt x) Hdata)
    by (by rewrite list_lookup_fmap, Hx).
  cbn [mbind res_bind].
  assert (0 <= x < Z.of_nat (length lut)) as Hxr.
  { apply Hr. by eapply list_elem_of_lookup_2. }
  destruct (lookup_lt_is_Some_2 lut (Z.to_nat x)) as [c Hc]; [lia|].
  rewrite <- (Z2Nat.id x) at 1 by lia. rewrite (getitem_nat _ _ _ Hc).
  cbn [mbind res_bind]. rewrite IH by lia. cbn [mbind res_bind].
  rewrite (drop_S _ _ _ Hx). cbn [take]. unfold regrouped.
  rewrite !fmap_cons. by rewrite (list_lookup_total_correct _ _ _ Hc).
Qed.

Lemma wrap_int64_id z : int64_min <= z <= int64_max -> wrap_int64 z = z.
Proof.
  unfold wrap_int64, int64_min, int64_max. intros H.
  rewrite Z.mod_small by lia. lia.
Qed.

(** The lookup table of [particle_group] for a greatest group id [mx] that
    is not negative: no wrap-around, and an array that numpy makes when it
    has the memory for [mx + 1] entries, of 8 bytes each. *)
Lemma np_arange_new_ok {O : PyOrders} mx :
  0 <= mx < arange_max -> 8 * (mx + 1) <= int64_max ->
  np_arange_new (wrap_int64 (mx + 1)) = Ret (np_arange (mx + 1)).
Proof.
  unfold int64_max. intros H Hb.
  rewrite wrap_int64_id by (unfold int64_min, int64_max; lia).
  unfold np_arange_new, int64_max.
  rewrite (proj2 (Z.ltb_ge _ _)) by lia.
  by rewrite (proj2 (Z.ltb_ge arange_max _)), andb_false_r by lia.
Qed.


Lemma table_groups_inv gs : star_inv (table_groups gs).
Proof.
  unfold table_groups.
  destruct (add_column _ _ _ _) as [r s'] eqn:E.
  assert (r = Ret tt) as ->.
  { revert E. unfold add_column. simpl. change (column_dtype "_rlnGroupNumber") with Dint.
    unfold fill_row. simpl.
    rewrite length_fmap, bool_decide_eq_true_2 by done. simpl.
    assert (cast_all Dint (VInt <$> gs) = Ret (VInt <$> gs)) as ->.
    { clear. induction gs as [|x gs IH]; [done|].
      rewrite fmap_cons. cbn [cast_all]. rewrite IH. done. }
    by intros [= <- _]. }
  simpl. eapply add_column_inv; [|exact E]. apply star_inv_empty.
Qed.


(** Beyond the bound, with the orders and the memory of [orders_simple]: a
    greatest group id of 2^60-1 asks for a lookup table of 2^63 bytes and
    [np.arange] is a ValueError; at the greatest 64-bit integer [max() + 1]
    wraps around, the lookup table is empty and reading it is an
    IndexError. *)
Lemma particle_group_id_bound :
  (particle_group (O := orders_simple) (Some 2) (table_groups [2 ^ 60 - 1])).1
    = Raise ValueError /\
  (particle_group (O := orders_simple) (Some 2) (table_groups [int64_max])).1
    = Raise IndexError.
Proof. split; vm_compute; reflexivity. Qed.


(** ** C8 *)

Lemma call_dtype_typed d v : value_has_type d v -> call_dtype d v = Ret v.
Proof. by destruct d, v. Qed.

Lemma add_row_item_ok key v t l dt x :
  key ∈ cols t -> data t !! key = Some l ->
  get_column_type key t = Ret (Some dt) -> call_dtype dt v = Ret x ->
  add_row_item (key, v) t = (Ret tt, set_data (<[key := l ++ [x]]> (data t)) t).
Proof.
  intros Hc%is_column_true Hl Hdt Hx. unfold add_row_item, data_at.
  by rewrite Hc, Hdt, Hl, Hx.
Qed.

Lemma for_each_add_row_item_ok kwargs t :
  NoDup kwargs.*1 ->
  (forall key v, (key, v) ∈ kwargs ->
     key ∈ cols t /\
     exists l dt x, data t !! key = Some l /\
                    get_column_type key t = Ret (Some dt) /\
                    call_dtype dt v = Ret x) ->
  exists t', for_each kwargs add_row_item t = (Ret tt, t').
Proof.
  revert t. induction kwargs as [|[k v] kwargs IH]; intros t Hnd Hok.
  - by eexists.
  - apply NoDup_cons in Hnd as [Hk Hnd].
    destruct (Hok k v) as (Hc & l & dt & x & Hl & Hdt & Hx); [left|].
    rewrite for_each_cons. unfold mbind, M_bind.
    rewrite (add_row_item_ok _ _ _ _ _ _ Hc Hl Hdt Hx).
    apply IH; [done|]. intros key w Hw.
    destruct (Hok key w) as (Hc' & l' & dt' & x' & Hl' & Hdt' & Hx'); [by right|].
    split; [done|]. exists l', dt', x'. split; [|done]. simpl.
    rewrite lookup_insert_ne; [done|]. intros ->. apply Hk.
    apply list_elem_of_fmap. by exists (key, w).
Qed.

Lemma add_row_ok kwargs t :
  NoDup kwargs.*1 -> length kwargs = length (cols t) ->
  (forall key v, (key, v) ∈ kwargs ->
     key ∈ cols t /\
     exists l dt x, data t !! key = Some l /\
                    get_column_type key t = Ret (Some dt) /\
                    call_dtype dt v = Ret x) ->
  exists d,
    add_row kwargs t = (Ret tt, set_rows (S (rows t)) (set_data d t)) /\
    (forall key v, (key, v) ∈ kwargs ->
       exists l dt x, data t !! key = Some l /\
                      get_column_type key t = Ret (Some dt) /\
                      call_dtype dt v = Ret x /\ d !! key = Some (l ++ [x])) /\
    (forall key, key ∉ kwargs.*1 -> d !! key = data t !! key).
Proof.
  intros Hnd Hlen Hok.
  destruct (for_each_add_row_item_ok kwargs t Hnd Hok) as [t' Ht'].
  pose proof Ht' as Hrun.
  apply for_each_add_row_item in Ht' as (d & -> & Hin & Hout); [|done].
  exists d. split.
  - unfold add_row, mbind at 1, M_bind, gets, get_ncols.
    rewrite bool_decide_eq_true_2 by done. cbn [negb].
    unfold mbind, M_bind. by rewrite Hrun.
  - split; [|done]. intros key v Hkv.
    destruct (Hin key v Hkv) as (_ & l & dt & x & ?). by exists l, dt, x.
Qed.

(** The loop that creates the columns of the new table. *)
Lemma add_columns_fresh p q t :
  is_fresh_star t p -> NoDup (p ++ q) ->
  (forall key, key ∈ q -> is_valid key = true) ->
  exists t', for_each q (fun key => add_column key (OVal (VInt (-1))) false) t
               = (Ret tt, t') /\ is_fresh_star t' (p ++ q).
Proof.
  revert p t. induction q as [|k q IH]; intros p t Ht Hnd Hvalid.
  - exists t. by rewrite app_nil_r.
  - destruct Ht as (Hh & Hrd & Hfn & Hrows & Hcols & Hdt & Hdata).
    assert (k ∉ p) as Hk.
    { apply NoDup_app in Hnd as (_ & Hdisj & _). intros Hk.
      apply (Hdisj k Hk). left. }
    rewrite for_each_cons. unfold mbind, M_bind.
    assert (add_column k (OVal (VInt (-1))) false t =
            (Ret tt, set_dtypes (dtypes t ++ [column_dtype k])
                       (set_cols (cols t ++ [k])
                          (set_data (<[k := []]> (data t)) t)))) as ->.
    { unfold add_column. rewrite (Hvalid k) by left. rewrite orb_true_r.
      unfold fill_row. cbn [has_len]. rewrite Hrows. cbn [replicate cast_all].
      cbn [set_data cols data]. rewrite Hcols.
      by rewrite (proj2 (str_index_None p k)). }
    replace (p ++ k :: q) with ((p ++ [k]) ++ q) in * by (by rewrite <- app_assoc).
    apply (IH (p ++ [k])).
    + repeat split; simpl; try done.
      * by rewrite Hcols.
      * by rewrite Hdt, fmap_app.
      * intros key. destruct (decide (key = k)) as [->|Hne].
        -- rewrite lookup_insert_eq. rewrite decide_True; [done|].
           apply elem_of_app. right. left.
        -- rewrite lookup_insert_ne by done. rewrite Hdata.
           destruct (decide (key ∈ p)) as [Hp|Hp].
           ++ rewrite decide_True; [done|]. apply elem_of_app. by left.
           ++ rewrite decide_False; [done|].
              intros [?|?%list_elem_of_singleton]%elem_of_app; done.
    + done.
    + intros key Hkey. apply Hvalid. by right.
Qed.

Lemma typed_dtypes s :
  star_inv s -> star_typed s -> dtypes s = column_dtype <$> cols s.
Proof.
  intros (_ & Hlen & _) Hty. apply list_eq_same_length with (length (cols s)).
  - by rewrite length_fmap.
  - done.
  - intros i d d' Hi Hd Hd'. rewrite list_lookup_fmap in Hd'.
    destruct (cols s !! i) as [key|] eqn:Hk; [|done].
    destruct (Hty i key Hk) as [Hd2 _]. simpl in Hd'. congruence.
Qed.

Lemma fresh_star_is_sub_star s t :
  star_inv s -> star_typed s -> is_fresh_star t (cols s) -> t = sub_star s [].
Proof.
  intros Hinv Hty (Hh & Hrd & Hfn & Hrows & Hcols & Hdt & Hdata).
  destruct t as [h d ty r c rd fn]. simpl in *. subst. unfold sub_star.
  rewrite (typed_dtypes s) by done. simpl. f_equal.
  apply map_eq. intros key. rewrite Hdata, lookup_fmap.
  destruct Hinv as (_ & _ & Hdom & _).
  destruct (decide (key ∈ cols s)) as [Hk|Hk].
  - apply Hdom in Hk as [l ->]. done.
  - destruct (data s !! key) eqn:E; [|done]. exfalso. apply Hk, Hdom. eauto.
Qed.

Lemma get_column_type_typed s key :
  star_typed s -> key ∈ cols s ->
  get_column_type key s = Ret (Some (column_dtype key)).
Proof.
  intros Hty Hk. unfold get_column_type.
  destruct (str_index_elem _ _ Hk) as [i Hi]. rewrite Hi.
  apply str_index_Some in Hi as [Hi _].
  destruct (Hty i key Hi) as [-> _]. done.
Qed.

Lemma row_kwargs_spec keys j s acc :
  (forall key, key ∈ keys -> exists l x, data s !! key = Some l /\ l !! j = Some x) ->
  exists kw,
    row_kwargs keys (Z.of_nat j) s acc = Ret kw /\
    forall key, kw !! key =
      if decide (key ∈ keys) then data s !! key ≫= (fun l => l !! j)
      else acc !! key.
Proof.
  revert acc. induction keys as [|k keys IH]; intros acc Hok.
  - exists acc. split; [done|]. intros key. rewrite decide_False; [done|].
    apply not_elem_of_nil.
  - destruct (Hok k) as (l & x & Hl & Hx); [left|].
    cbn [row_kwargs]. rewrite (get_element_nat _ _ _ _ _ Hl Hx).
    cbn [mbind res_bind].
    destruct (IH (<[k := x]> acc)) as (kw & -> & Hkw).
    { intros key Hkey. apply Hok. by right. }
    exists kw. split; [done|]. intros key. rewrite Hkw.
    destruct (decide (key ∈ keys)) as [Hin|Hin].
    + rewrite decide_True; [done|by right].
    + destruct (decide (key = k)) as [->|Hne].
      * rewrite decide_True by left. rewrite lookup_insert_eq, Hl. simpl. done.
      * rewrite lookup_insert_ne by done. rewrite decide_False; [done|].
        intros [?|?]%elem_of_cons; done.
Qed.

Lemma dict_items_elem {O : PyOrders} {OK : PyOrdersOk O} (kw : gmap string value) key v :
  (key, v) ∈ dict_items kw <-> kw !! key = Some v.
Proof. rewrite dict_items_perm. apply elem_of_map_to_list. Qed.

Lemma dict_items_NoDup {O : PyOrders} {OK : PyOrdersOk O} (kw : gmap string value) :
  NoDup (dict_items kw).*1.
Proof. rewrite dict_items_perm. apply NoDup_fst_map_to_list. Qed.

Lemma dict_items_keys {O : PyOrders} {OK : PyOrdersOk O} (kw : gmap string value) keys :
  NoDup keys -> (forall key, is_Some (kw !! key) <-> key ∈ keys) ->
  length (dict_items kw) = length keys.
Proof.
  intros Hnd Hdom. rewrite <- (length_fmap fst).
  apply Permutation_length, NoDup_Permutation; [apply dict_items_NoDup|done|].
  intros key. rewrite <- Hdom. split.
  - intros ((k & v) & -> & Hkv)%list_elem_of_fmap.
    apply dict_items_elem in Hkv. eauto.
  - intros [v Hv]. apply list_elem_of_fmap. exists (key, v).
    split; [done|]. by apply dict_items_elem.
Qed.

Lemma sub_star_add_row {O : PyOrders} {OK : PyOrdersOk O} s picked j :
  star_inv s -> star_typed s -> (j < rows s)%nat ->
  exists kw,
    row_kwargs (cols s) (Z.of_nat j) s ∅ = Ret kw /\
    add_row (dict_items kw) (sub_star s picked)
      = (Ret tt, sub_star s (picked ++ [j])).
Proof.
  intros (Hnd & Hlen & Hdom & Hrows) Hty Hj.
  assert (forall key, key ∈ cols s ->
            exists l x, data s !! key = Some l /\ l !! j = Some x) as Hcell.
  { intros key [l Hl]%Hdom. destruct (lookup_lt_is_Some_2 l j) as [x Hx].
    - rewrite (Hrows _ _ Hl). done.
    - eauto. }
  destruct (row_kwargs_spec (cols s) j s ∅ Hcell) as (kw & Hkw & Hlook).
  exists kw. split; [done|].
  assert (forall key v, kw !! key = Some v ->
            key ∈ cols s /\ exists l, data s !! key = Some l /\ l !! j = Some v)
    as Hkv.
  { intros key v Hv. rewrite Hlook in Hv.
    destruct (decide (key ∈ cols s)) as [Hin|Hin]; [|by rewrite lookup_empty in Hv].
    split; [done|]. destruct (data s !! key) as [l|]; [|done]. eauto. }
  destruct (add_row_ok (dict_items kw) (sub_star s picked)) as (d & -> & Hin & Hout).
  - apply dict_items_NoDup.
  - apply dict_items_keys; [done|]. intros key. rewrite Hlook. split.
    + intros [v Hv]. destruct (decide (key ∈ cols s)); [done|].
      by rewrite lookup_empty in Hv.
    + intros Hin. rewrite decide_True by done.
      destruct (Hcell key Hin) as (l & x & -> & Hx). simpl. eauto.
  - intros key v Hv%dict_items_elem. destruct (Hkv key v Hv) as (Hin & l & Hl & Hx).
    split; [done|]. unfold sub_star at 1. cbn [data].
    exists ((fun i => l !!! i) <$> picked), (column_dtype key), v.
    split; [by rewrite lookup_fmap, Hl|]. split.
    + rewrite <- (get_column_type_typed s key) by done. done.
    + apply call_dtype_typed.
      apply list_elem_of_lookup in Hin as [i Hi].
      destruct (Hty i key Hi) as [_ Hall].
      eapply Forall_forall; [by apply Hall|]. by eapply list_elem_of_lookup_2.
  - f_equal. unfold sub_star, set_rows, set_data. cbn. f_equal.
    + apply map_eq. intros key. rewrite lookup_fmap.
      destruct (decide (key ∈ cols s)) as [Hc|Hc].
      * destruct (Hcell key Hc) as (l & x & Hl & Hx).
        assert ((key, x) ∈ dict_items kw) as Hitem.
        { apply dict_items_elem. rewrite Hlook, decide_True by done.
          by rewrite Hl. }
        destruct (Hin key x Hitem) as (l' & dt & x' & Hl' & Hdt & Hx' & ->).
        rewrite Hl. simpl. f_equal.
        unfold sub_star in Hl'. cbn in Hl'. rewrite lookup_fmap, Hl in Hl'.
        injection Hl' as <-.
        change (get_column_type key (sub_star s picked))
          with (get_column_type key s) in Hdt.
        rewrite (get_column_type_typed s key) in Hdt by done.
        injection Hdt as <-. rewrite call_dtype_typed in Hx'.
        -- injection Hx' as <-. rewrite fmap_app. simpl.
           by rewrite (list_lookup_total_correct _ _ _ Hx).
        -- apply list_elem_of_lookup in Hc as [i Hi].
           destruct (Hty i key Hi) as [_ Hall].
           eapply Forall_forall; [by apply Hall|].
           by eapply list_elem_of_lookup_2.
      * rewrite Hout.
        -- unfold sub_star. cbn. rewrite lookup_fmap.
           destruct (data s !! key) eqn:E; [|done].
           exfalso. apply Hc, Hdom. eauto.
        -- intros ((k & v) & -> & Hv)%list_elem_of_fmap.
           apply dict_items_elem, Hkv in Hv as [? _]. done.
    + by rewrite length_app, Nat.add_1_r.
Qed.

Lemma sub_star_rows_loop {O : PyOrders} {OK : PyOrdersOk O} s picked more :
  star_inv s -> star_typed s -> (forall j, j ∈ more -> (j < rows s)%nat) ->
  for_each more
    (fun row =>
       kwargs ← read (fun _ => row_kwargs (cols s) (Z.of_nat row) s ∅);
       add_row (dict_items kwargs)) (sub_star s picked)
  = (Ret tt, sub_star s (picked ++ more)).
Proof.
  intros Hinv Hty. revert picked. induction more as [|j more IH]; intros picked Hlt.
  - by rewrite app_nil_r.
  - rewrite for_each_cons. unfold mbind at 1, M_bind.
    destruct (sub_star_add_row s picked j Hinv Hty) as (kw & Hkw & Hadd).
    { apply Hlt. left. }
    unfold mbind at 1, M_bind, read. rewrite Hkw, Hadd.
    rewrite IH; [by rewrite <- app_assoc|].
    intros i Hi. apply Hlt. by right.
Qed.

Lemma np_where_eq_bound classes c i j :
  j ∈ np_where_eq classes c i -> (i <= j < i + length classes)%nat.
Proof.
  revert i. induction classes as [|cl classes IH]; intros i; simpl.
  - by intros ?%elem_of_nil.
  - destruct (cl =? c).
    + intros [->|Hj%IH]%elem_of_cons; lia.
    + intros Hj%IH. lia.
Qed.

Lemma np_where_eq_rows {A} `{Inhabited A} classes c i (l : list A) :
  length l = (i + length classes)%nat ->
  (fun j => l !!! j) <$> np_where_eq classes c i
  = rows_of_class classes c (drop i l).
Proof.
  revert i. induction classes as [|cl classes IH]; intros i Hl.
  - done.
  - destruct (lookup_lt_is_Some_2 l i) as [x Hx]; [simpl in Hl; lia|].
    rewrite (drop_S _ _ _ Hx). simpl. destruct (cl =? c).
    + rewrite fmap_cons, (list_lookup_total_correct _ _ _ Hx).
      f_equal. apply IH. simpl in Hl. lia.
    + apply IH. simpl in Hl. lia.
Qed.

Lemma fresh_star_init : is_fresh_star Star_init [].
Proof. by repeat split. Qed.

Lemma class_star_spec {O : PyOrders} {OK : PyOrdersOk O} s classes c :
  star_inv s -> star_typed s ->
  (forall key, key ∈ cols s -> is_valid key = true) ->
  length classes = rows s ->
  class_star s (cols s) classes (VInt c)
    = Ret (sub_star s (np_where_eq classes c 0)).
Proof.
  intros Hinv Hty Hvalid Hlen. unfold class_star.
  destruct (add_columns_fresh [] (cols s) Star_init fresh_star_init)
    as (t & Hcols & Hfresh); [apply Hinv|done|].
  simpl in Hfresh. apply fresh_star_is_sub_star in Hfresh; [|done..]. subst t.
  unfold mbind at 1, M_bind at 1. rewrite Hcols.
  rewrite sub_star_rows_loop; [done..|].
  intros j Hj%np_where_eq_bound. lia.
Qed.

Lemma sub_star_inv s picked : star_inv s -> star_inv (sub_star s picked).
Proof.
  intros (Hnd & Hlen & Hdom & Hrows).
  split; [done|]. split; [done|]. split.
  - intros key. simpl. rewrite lookup_fmap, fmap_is_Some. apply Hdom.
  - intros key l. simpl. rewrite lookup_fmap.
    destruct (data s !! key); [|done]. intros [= <-]. by rewrite length_fmap.
Qed.

Lemma res_map_fmap {A B C} (f : A -> res B) (h : C -> A) (g : C -> B) (l : list C) :
  (forall x, x ∈ l -> f (h x) = Ret (g x)) -> res_map f (h <$> l) = Ret (g <$> l).
Proof.
  induction l as [|x l IH]; intros H; [done|].
  rewrite !fmap_cons. cbn [res_map]. rewrite H by left. cbn [mbind res_bind].
  rewrite IH; [done|]. intros y Hy. apply H. by right.
Qed.

(** C8, as amended. [split_class] raises the missing-column error when the
    table has no [_rlnClassNumber]. On a table with the invariants whose
    columns are all names of the registry, whose cells have the types of
    their columns and whose class ids fit 64 bits, it returns one table
    for each distinct class id (in the order the set of the ids yields
    them); the table of id [c] has the columns and types of the original,
    the invariants, and in every column the cells of the rows of class
    [c], in the order of the rows. *)
Theorem split_class_partitions {O : PyOrders} {OK : PyOrdersOk O} (s : Star) :
  ("_rlnClassNumber" ∉ cols s ->
     split_class s =
       Raise (PySegInputError "split_class (Star)" "No _rlnClassNumber column found!")) /\
  (forall classes,
     star_inv s -> star_typed s ->
     (forall key, key ∈ cols s -> is_valid key = true) ->
     data s !! "_rlnClassNumber" = Some (VInt <$> classes) ->
     (forall c, c ∈ classes -> in_int64 c = true) ->
     exists ids stars,
       split_class s = Ret stars /\
       NoDup ids /\ (forall c, c ∈ ids <-> c ∈ classes) /\
       Forall2 (fun c t =>
                  star_inv t /\ cols t = cols s /\ dtypes t = dtypes s /\
                  rows t = length (rows_of_class classes c classes) /\
                  forall key l, data s !! key = Some l ->
                    data t !! key = Some (rows_of_class classes c l))
         ids stars).
Proof.
  split.
  - intros Hno. unfold split_class, has_column.
    by rewrite bool_decide_eq_false_2.
  - intros classes Hinv Hty Hvalid Hdata Hint.
    pose proof Hinv as (Hnd & Hlen & Hdom & Hrows).
    assert ("_rlnClassNumber" ∈ cols s) as Hcol by (apply Hdom; eauto).
    pose proof (Hrows _ _ Hdata) as Hn. rewrite length_fmap in Hn.
    destruct (py_set_ints classes) as (ids & Hset & Hind & Hin).
    exists ids, ((fun c => sub_star s (np_where_eq classes c 0)) <$> ids).
    split; [|split; [done|split; [done|]]].
    + unfold split_class, has_column, get_column_data, is_column, data_at.
      rewrite bool_decide_eq_true_2 by done. rewrite Hdata. cbn.
      rewrite Hset, np_asarray_int_ints by done. cbn.
      unfold get_column_keys.
      apply res_map_fmap. intros c Hc. by apply class_star_spec.
    + apply Forall2_fmap_r, Forall_Forall2_diag, Forall_forall.
      intros c Hc. split; [by apply sub_star_inv|]. split; [done|].
      split; [done|]. split.
      * simpl. rewrite <- (length_fmap (fun j => classes !!! j)).
        rewrite np_where_eq_rows by done. by rewrite drop_0.
      * intros key l Hl. simpl. rewrite lookup_fmap, Hl. simpl. f_equal.
        rewrite np_where_eq_rows; [by rewrite drop_0|].
        rewrite (Hrows _ _ Hl). done.
Qed.

(** ** The cells keep the types of their columns *)

Lemma call_dtype_has_type d v x : call_dtype d v = Ret x -> value_has_type d x.
Proof.
  destruct d; simpl.
  - by intros [= <-].
  - destruct (py_int v); simpl; [|done]. by intros [= <-].
  - destruct (py_float v); simpl; [|done]. by intros [= <-].
Qed.

Lemma cast_all_has_type d l r :
  cast_all d l = Ret r -> Forall (value_has_type d) r.
Proof.
  revert r. induction l as [|v l IH]; intros r; simpl.
  - intros [= <-]. constructor.
  - destruct (call_dtype d v) as [x|] eqn:Hx; simpl; [|done].
    destruct (cast_all d l) as [r'|]; simpl; [|done].
    intros [= <-]. constructor; [by eapply call_dtype_has_type|by apply IH].
Qed.

Lemma fill_row_has_type d val n row :
  fill_row d val n = Ret row -> Forall (value_has_type d) row.
Proof.
  unfold fill_row. destruct val as [v|l].
  - destruct (has_len (OVal v)).
    + destruct (negb _); [done|]. apply cast_all_has_type.
    + apply cast_all_has_type.
  - destruct (negb _); [done|]. apply cast_all_has_type.
Qed.

Lemma Forall_remaining_from {A} (P : A -> Prop) del j (l : list A) :
  Forall P l -> Forall P (remaining_from del j l).
Proof.
  intros H. revert j. induction H as [|x l Hx Hl IH]; intros j; simpl.
  - constructor.
  - destruct (del j); [apply IH|]. constructor; [done|apply IH].
Qed.

Lemma add_column_typed key val no_parse s s' :
  star_inv s -> star_typed s ->
  add_column key val no_parse s = (Ret tt, s') -> star_typed s'.
Proof.
  intros (Hnd & Hlen & Hdom & Hrows) Hty. unfold add_column.
  destruct (no_parse || is_valid key); [|done].
  destruct (fill_row _ val (rows s)) as [row|e] eqn:Hrow; [|done].
  apply fill_row_has_type in Hrow.
  simpl. destruct (str_index (cols s) key) as [idx|] eqn:Hidx.
  - apply str_index_Some in Hidx as [Hidx _].
    rewrite (list_insert_id (cols s)) by done.
    case_bool_decide as Hlt; [|done]. intros [= <-].
    intros i k Hi. simpl in *. destruct (decide (i = idx)) as [->|Hne].
    + assert (k = key) as -> by congruence.
      rewrite list_lookup_insert_eq by done. split; [done|].
      intros l. rewrite lookup_insert_eq. by intros [= <-].
    + rewrite list_lookup_insert_ne by done.
      destruct (Hty i k Hi) as [Hd Hall]. split; [done|].
      intros l. rewrite lookup_insert_ne; [apply Hall|].
      intros <-. apply Hne. by eapply NoDup_lookup.
  - apply str_index_None in Hidx. intros [= <-].
    intros i k Hi. simpl in *.
    destruct (decide (i < length (cols s))%nat) as [Hlt|Hge].
    + rewrite lookup_app_l in Hi by done. rewrite lookup_app_l by lia.
      destruct (Hty i k Hi) as [Hd Hall]. split; [done|].
      intros l. rewrite lookup_insert_ne; [apply Hall|].
      intros <-. apply Hidx. by eapply list_elem_of_lookup_2.
    + rewrite lookup_app_r in Hi by lia. rewrite lookup_app_r by lia.
      rewrite Hlen.
      destruct (i - length (cols s))%nat as [|n]; simpl in *; [|done].
      injection Hi as <-. split; [done|].
      intros l. rewrite lookup_insert_eq. by intros [= <-].
Qed.

Lemma add_row_typed kwargs s s' :
  star_inv s -> star_typed s -> NoDup kwargs.*1 ->
  add_row kwargs s = (Ret tt, s') -> star_typed s'.
Proof.
  intros Hinv Hty Hnd H.
  apply add_row_Ret in H as (Hn & d & -> & Hin & Hout); [|done].
  intros i k Hi. simpl in *. destruct (Hty i k Hi) as [Hd Hall].
  split; [done|]. intros l Hl.
  destruct (decide (k ∈ kwargs.*1)) as [Hk|Hk].
  - apply list_elem_of_fmap in Hk as ((k' & v) & -> & Hkv). simpl in *.
    destruct (Hin k' v Hkv) as (Hc & l0 & dt & x & Hl0 & Hdt & Hx & Hl').
    rewrite Hl' in Hl. injection Hl as <-.
    rewrite get_column_type_typed in Hdt by done. injection Hdt as <-.
    apply Forall_app. split; [by apply Hall|].
    constructor; [by eapply call_dtype_has_type|constructor].
  - rewrite Hout in Hl by done. by apply Hall.
Qed.

Lemma del_rows_typed ids s s' :
  star_inv s -> star_typed s ->
  del_rows ids s = (Ret tt, s') -> star_typed s'.
Proof.
  intros Hinv Hty. destruct ids as [|[|idx ids]].
  - done.
  - by intros [= <-].
  - rewrite del_rows_Ret by apply Hinv. intros [= <-].
    intros i k Hi. simpl in *. destruct (Hty i k Hi) as [Hd Hall].
    split; [done|]. intros l. rewrite lookup_fmap.
    destruct (data s !! k) as [l0|] eqn:Hl0; [|done]. intros [= <-].
    apply Forall_remaining_from, Forall_take. by apply Hall.
Qed.

Lemma del_column_typed key s s' :
  star_inv s -> star_typed s ->
  del_column key s = (Ret tt, s') -> star_typed s'.
Proof.
  intros (Hnd & Hlen & Hdom & Hrows) Hty. unfold del_column.
  destruct (is_column key s) eqn:Hc; [|by intros [= <-]].
  destruct (str_index (cols s) key) as [idx|] eqn:Hidx; [|done].
  apply str_index_Some in Hidx as [Hidx _]. simpl.
  case_bool_decide as Hlt; [|done]. simpl.
  destruct (data s !! key) eqn:Hk; [|done]. intros [= <-].
  intros i k Hi. simpl in *. unfold pop in *.
  assert (exists i', cols s !! i' = Some k /\ i' <> idx /\
                     delete idx (dtypes s) !! i = dtypes s !! i')
    as (i' & Hi' & Hne & ->).
  { destruct (decide (i < idx)%nat).
    - exists i. rewrite list_lookup_delete_lt in Hi by done.
      rewrite list_lookup_delete_lt by done. split; [done|]. split; [lia|done].
    - exists (S i). rewrite list_lookup_delete_ge in Hi by lia.
      rewrite list_lookup_delete_ge by lia. split; [done|]. split; [lia|done]. }
  destruct (Hty i' k Hi') as [Hd Hall]. split; [done|].
  intros l0. rewrite lookup_delete_ne; [apply Hall|].
  intros <-. apply Hne. by eapply NoDup_lookup.
Qed.

(** Tables made by the structural operations from a typed table (the new
    table for one) have the invariants and typed cells. *)
Lemma run_ops_typed ops s s' :
  star_inv s -> star_typed s -> Forall op_ok ops ->
  run_ops ops s = (Ret tt, s') -> star_inv s' /\ star_typed s'.
Proof.
  intros Hinv Hty Hok. unfold run_ops.
  apply (for_each_Ret_inv (fun t => star_inv t /\ star_typed t)); [|done].
  intros o t t' Ho [Hi Ht] Hrun.
  assert (op_ok o) as Hoo by by eapply Forall_forall in Hok.
  split; [by eapply run_op_inv|].
  destruct o as [kwargs|ids|key val no_parse|key]; simpl in *.
  - by eapply add_row_typed.
  - by eapply del_rows_typed.
  - by eapply add_column_typed.
  - by eapply del_column_typed.
Qed.

Lemma star_typed_empty n : star_typed (set_rows n Star_init).
Proof. intros i key Hi. done. Qed.

Lemma ops_star_typed ops s :
  star_inv s -> star_typed s -> Forall op_ok ops ->
  (run_ops ops s).1 = Ret tt -> star_typed (run_ops ops s).2.
Proof.
  intros Hs Ht Hok Hr. destruct (run_ops ops s) as [r s'] eqn:E.
  simpl in *. subst r. by apply (run_ops_typed ops s s').
Qed.

Lemma table_112_inv : star_inv table_112.
Proof. apply ops_star_inv; [apply star_inv_empty|ops_ok|by vm_compute]. Qed.

Lemma table_112_typed : star_typed table_112.
Proof.
  apply ops_star_typed;
    [apply star_inv_empty|apply star_typed_empty|ops_ok|by vm_compute].
Qed.

Lemma table_mics_no_class : "_rlnClassNumber" ∉ cols table_mics.
Proof. apply (bool_decide_eq_false_1 (_ ∈ _)). by vm_compute. Qed.

Lemma table_112_valid key : key ∈ cols table_112 -> is_valid key = true.
Proof.
  change (cols table_112) with ["_rlnImageName"; "_rlnClassNumber"]. intros Hk.
  repeat (apply elem_of_cons in Hk as [->|Hk]; [done|]).
  by apply elem_of_nil in Hk.
Qed.

Lemma ints_112_int64 c : c ∈ [1; 1; 2] -> in_int64 c = true.
Proof.
  intros Hc. repeat (apply elem_of_cons in Hc as [->|Hc]; [done|]).
  by apply elem_of_nil in Hc.
Qed.

Lemma split_class_partitions_witness :
  split_class (O := orders_simple) table_mics =
    Raise (PySegInputError "split_class (Star)" "No _rlnClassNumber column found!") /\
  exists ids stars,
    split_class (O := orders_simple) table_112 = Ret stars /\
    NoDup ids /\ (forall c, c ∈ ids <-> c ∈ [1; 1; 2]) /\
    Forall2 (fun c t =>
               star_inv t /\ cols t = cols table_112 /\
               dtypes t = dtypes table_112 /\
               rows t = length (rows_of_class [1; 1; 2] c [1; 1; 2]) /\
               forall key l, data table_112 !! key = Some l ->
                 data t !! key = Some (rows_of_class [1; 1; 2] c l))
      ids stars.
Proof.
  split.
  - apply (split_class_partitions (OK := orders_simple_ok) table_mics).
    apply table_mics_no_class.
  - apply (split_class_partitions (OK := orders_simple_ok) table_112).
    + apply table_112_inv.
    + apply table_112_typed.
    + apply table_112_valid.
    + reflexivity.
    + apply ints_112_int64.
Defined.

(** The scenario of the specification: class ids 1, 1, 2 give two tables,
    of 2 rows and of 1 row, each with the invariants. *)
Lemma split_class_scenario_112 :
  exists t1 t2,
    split_class (O := orders_simple) table_112 = Ret [t1; t2] /\
    rows t1 = 2%nat /\ rows t2 = 1%nat /\
    star_inv t1 /\ star_inv t2 /\
    data t1 !! "_rlnImageName" = Some [VStr "p0.mrc"; VStr "p1.mrc"] /\
    data t2 !! "_rlnImageName" = Some [VStr "p2.mrc"].
Proof.
  assert (split_class (O := orders_simple) table_112
          = Ret [sub_star table_112 [0; 1]%nat; sub_star table_112 [2%nat]]) as E
    by (by vm_compute).
  eexists _, _. split; [exact E|].
  split; [done|]. split; [done|].
  split; [apply sub_star_inv, table_112_inv|].
  split; [apply sub_star_inv, table_112_inv|].
  split; by vm_compute.
Qed.

(** C8 as stated fails on a table with a column that is not in the
    registry (accepted by [add_column] with [no_parse=True]): the class
    column is there, but [split_class] re-creates the columns with a
    checked [add_column] and raises its error. *)
Lemma split_class_bypass_column_counterexample :
  star_inv table_112_bypass /\
  ("_rlnClassNumber" ∈ cols table_112_bypass) /\
  split_class (O := orders_simple) table_112_bypass =
    Raise (PySegInputError "add_column (Star)" "Column name myScore not accepted").
Proof.
  split; [|split].
  - unfold table_112_bypass.
    destruct (add_column "myScore" _ true table_112) as [r t] eqn:E.
    assert (r = Ret tt) as -> by (by vm_compute in E; injection E as <- _).
    eapply add_column_inv; [apply table_112_inv|exact E].
  - apply (bool_decide_eq_true_1 (_ ∈ _)). by vm_compute.
  - by vm_compute.
Qed.

(** ** [load], loop by loop *)

Lemma set_header_1_id s : set_header_1 (header_1 s) s = s.
Proof. by destruct s. Qed.

Lemma load_header_1_spec hdr rest s :
  Forall preamble_line hdr ->
  match rest with
  | [] => True
  | line :: _ => starts_with_underscore line = true
  end ->
  load_header_1 (hdr ++ rest) s = (Ret rest, set_header_1 (header_1 s ++ hdr) s).
Proof.
  intros Hhdr Hrest. revert s. induction Hhdr as [|line hdr [Hne Hu] _ IH]; intros s.
  - simpl. rewrite app_nil_r, set_header_1_id.
    destruct rest as [|[|c line] rest]; try done. simpl in *. by rewrite Hrest.
  - simpl. destruct line as [|c line]; [done|]. simpl in Hu. rewrite Hu.
    unfold mbind, M_bind, modify. rewrite IH. simpl.
    by rewrite <- app_assoc.
Qed.

Lemma with_columns_cons s key keys :
  with_columns (with_columns s [key]) keys = with_columns s (key :: keys).
Proof.
  unfold with_columns. simpl. by rewrite <- !app_assoc.
Qed.

Lemma with_columns_nil s : with_columns s [] = s.
Proof. unfold with_columns. simpl. rewrite !app_nil_r. by destruct s. Qed.

Lemma load_header_2_spec fname keys col_lines rest s :
  Forall2 column_line keys col_lines ->
  Forall (fun key => is_valid key = true) keys ->
  NoDup (cols s ++ keys) ->
  match rest with
  | [] => True
  | line :: _ => preamble_line line
  end ->
  load_header_2 fname (col_lines ++ rest) s = (Ret rest, with_columns s keys).
Proof.
  intros Hcl. revert s.
  induction Hcl as [|key line keys col_lines [Hu Hhead] _ IH]; intros s Hvalid Hnd Hrest.
  - simpl. rewrite with_columns_nil.
    destruct rest as [|line rest]; [done|]. destruct Hrest as [Hne Hu].
    simpl. destruct line as [|c line]; [done|]. simpl in Hu. by rewrite Hu.
  - apply Forall_cons in Hvalid as [Hv Hvalid].
    simpl. destruct line as [|c line]; [done|]. simpl in Hu. rewrite Hu.
    destruct (split (String c line)) as [|col toks]; [done|].
    simpl in Hhead. injection Hhead as ->.
    assert (key ∉ cols s) as Hk.
    { apply NoDup_app in Hnd as (_ & Hdisj & _). intros Hk.
      apply (Hdisj key Hk). left. }
    unfold mbind at 1, M_bind, gets. rewrite Hv.
    rewrite (proj2 (is_column_false key s) Hk). cbn [andb negb].
    unfold mbind at 1, M_bind, modify.
    change (set_cols (cols s ++ [key])
              (set_dtypes (dtypes s ++ [column_dtype key])
                 (set_data (<[key:=[]]> (data s)) s)))
      with (with_columns s [key]).
    rewrite IH; [by rewrite with_columns_cons|done| |done].
    simpl. by rewrite <- app_assoc.
Qed.

Lemma foldl_insert_nil_lookup (keys : list string) (m : gmap string (list value)) key :
  foldl (fun m key => <[key := []]> m) m keys !! key =
    if decide (key ∈ keys) then Some [] else m !! key.
Proof.
  revert m. induction keys as [|k keys IH]; intros m; cbn [foldl].
  - rewrite decide_False; [done|apply not_elem_of_nil].
  - rewrite IH. destruct (decide (key ∈ keys)) as [Hin|Hin].
    + rewrite decide_True; [done|by right].
    + destruct (decide (key = k)) as [->|Hne].
      * rewrite lookup_insert_eq. rewrite decide_True; [done|left].
      * rewrite lookup_insert_ne by done. rewrite decide_False; [done|].
        intros [?|?]%elem_of_cons; done.
Qed.

(** The loop over the tokens of one row. *)
Lemma for_each_load_cell_ok keys : forall toks dts vals s,
  NoDup keys -> length toks = length keys -> length dts = length keys ->
  cast_row dts toks = Ret vals ->
  (forall key, key ∈ keys -> is_Some (data s !! key)) ->
  exists d,
    for_each (zip3 toks dts keys) load_cell s = (Ret tt, set_data d s) /\
    length vals = length keys /\
    (forall c key v, keys !! c = Some key -> vals !! c = Some v ->
       exists l, data s !! key = Some l /\ d !! key = Some (l ++ [v])) /\
    (forall key, key ∉ keys -> d !! key = data s !! key).
Proof.
  induction keys as [|key keys IH]; intros toks dts vals s Hnd Ht Hd Hcast Hdata.
  - destruct toks; [|done]. destruct dts; [|done]. simpl in Hcast.
    injection Hcast as <-. exists (data s). split; [by destruct s|].
    split; [done|]. split; [|done]. by intros c key v ?.
  - destruct toks as [|d toks]; [done|]. destruct dts as [|dt dts]; [done|].
    apply NoDup_cons in Hnd as [Hk Hnd].
    simpl in Hcast. destruct (load_cast dt d) as [x|] eqn:Hx; [|done].
    simpl in Hcast. destruct (cast_row dts toks) as [r|] eqn:Hr; [|done].
    simpl in Hcast. injection Hcast as <-.
    destruct (Hdata key) as [l Hl]; [left|].
    cbn [zip3]. rewrite for_each_cons. unfold mbind, M_bind.
    unfold load_cell at 1. rewrite Hx, Hl.
    destruct (IH toks dts r (set_data (<[key := l ++ [x]]> (data s)) s))
      as (d' & Hrun & Hlen & Hin & Hout); try done.
    { simpl in Ht. lia. } { simpl in Hd. lia. }
    { intros k Hkin. simpl. destruct (decide (k = key)) as [->|Hne].
      - rewrite lookup_insert_eq. eauto.
      - rewrite lookup_insert_ne by done. apply Hdata. by right. }
    rewrite Hrun. exists d'. split; [done|]. split; [simpl; lia|]. split.
    + intros [|c] k v Hc Hv; simpl in *.
      * injection Hc as <-. injection Hv as <-. exists l. split; [done|].
        rewrite Hout by done. apply lookup_insert_eq.
      * destruct (Hin c k v Hc Hv) as (l' & Hl' & Hd').
        exists l'. split; [|done]. rewrite lookup_insert_ne in Hl'; [done|].
        intros <-. apply Hk. by eapply list_elem_of_lookup_2.
    + intros k [Hne Hnin]%not_elem_of_cons. rewrite Hout by done.
      simpl. by rewrite lookup_insert_ne.
Qed.

Lemma for_each_load_cell_fail keys : forall toks dts e s,
  NoDup keys -> length toks = length keys -> length dts = length keys ->
  cast_row dts toks = Raise e ->
  (forall key, key ∈ keys -> is_Some (data s !! key)) ->
  exists s', for_each (zip3 toks dts keys) load_cell s = (Raise e, s').
Proof.
  induction keys as [|key keys IH]; intros toks dts e s Hnd Ht Hd Hcast Hdata.
  - destruct toks; [|done]. by destruct dts.
  - destruct toks as [|d toks]; [done|]. destruct dts as [|dt dts]; [done|].
    apply NoDup_cons in Hnd as [Hk Hnd].
    cbn [zip3]. rewrite for_each_cons. unfold mbind, M_bind.
    unfold load_cell at 1.
    simpl in Hcast. destruct (load_cast dt d) as [x|] eqn:Hx.
    + simpl in Hcast. destruct (cast_row dts toks) as [r|] eqn:Hr; [done|].
      simpl in Hcast. injection Hcast as <-.
      destruct (Hdata key) as [l Hl]; [left|]. rewrite Hl.
      apply IH; try done.
      { simpl in Ht. lia. } { simpl in Hd. lia. }
      intros k Hkin. simpl. destruct (decide (k = key)) as [->|Hne].
      * rewrite lookup_insert_eq. eauto.
      * rewrite lookup_insert_ne by done. apply Hdata. by right.
    + simpl in Hcast. injection Hcast as <-. eauto.
Qed.

Lemma column_snoc c cells vals v :
  vals !! c = Some v -> column c (cells ++ [vals]) = column c cells ++ [v].
Proof.
  intros Hv. unfold column. rewrite fmap_app. simpl.
  by rewrite (list_lookup_total_correct _ _ _ Hv).
Qed.

Lemma load_row_step keys cells toks vals s :
  NoDup keys -> rows_loaded keys cells s ->
  length toks = length keys ->
  cast_row (column_dtype <$> keys) toks = Ret vals ->
  exists s',
    (for_each (zip3 toks (dtypes s) (cols s)) load_cell ;;
     (modify (fun s => set_rows (S (rows s)) s) : M unit)) s = (Ret tt, s') /\
    rows_loaded keys (cells ++ [vals]) s' /\ same_meta s s'.
Proof.
  intros Hnd (Hcols & Hdts & Hrows & Hdata) Ht Hcast.
  rewrite Hcols, Hdts.
  destruct (for_each_load_cell_ok keys toks (column_dtype <$> keys) vals s)
    as (d & Hrun & Hlen & Hin & Hout); try done.
  { by rewrite length_fmap. }
  { intros key [c Hc]%list_elem_of_lookup. rewrite (Hdata c key Hc). eauto. }
  unfold mbind, M_bind. rewrite Hrun. unfold modify.
  eexists. split; [done|]. split; [|done].
  split; [done|]. split; [done|]. split.
  - simpl. rewrite length_app, Hrows. simpl. lia.
  - intros c key Hc. simpl.
    destruct (lookup_lt_is_Some_2 vals c) as [v Hv].
    { rewrite Hlen. by eapply lookup_lt_Some. }
    destruct (Hin c key v Hc Hv) as (l & Hl & ->).
    rewrite (Hdata c key Hc) in Hl. injection Hl as <-.
    by rewrite (column_snoc _ _ _ _ Hv).
Qed.

Lemma load_rows_tail keys cells tail s :
  rows_loaded keys cells s ->
  match tail with
  | [] => True
  | line :: _ => length (split line) <> length keys
  end ->
  load_rows tail s = (Ret tt, s).
Proof.
  intros (Hcols & _) Htail. destruct tail as [|line tail]; [done|].
  simpl. unfold get_ncols. rewrite Hcols.
  by rewrite bool_decide_eq_false_2.
Qed.

Lemma load_rows_ok keys rows_ row_lines tail : forall cells cells0 s,
  NoDup keys -> rows_loaded keys cells0 s ->
  Forall2 (fun toks line => split line = toks /\ length toks = length keys)
    rows_ row_lines ->
  res_map (cast_row (column_dtype <$> keys)) rows_ = Ret cells ->
  match tail with
  | [] => True
  | line :: _ => length (split line) <> length keys
  end ->
  exists s',
    load_rows (row_lines ++ tail) s = (Ret tt, s') /\
    rows_loaded keys (cells0 ++ cells) s' /\ same_meta s s'.
Proof.
  intros cells cells0 s Hnd Hs Hrows. revert cells cells0 s Hs.
  induction Hrows as [|toks line rows_ row_lines [Hsplit Hlen] _ IH];
    intros cells cells0 s Hs Hcast Htail.
  - simpl in Hcast. injection Hcast as <-. exists s.
    rewrite app_nil_r. split; [by eapply load_rows_tail|]. by split.
  - simpl in Hcast.
    destruct (cast_row (column_dtype <$> keys) toks) as [vals|] eqn:Hvals; [|done].
    simpl in Hcast.
    destruct (res_map (cast_row (column_dtype <$> keys)) rows_) as [cells'|] eqn:Hc;
      [|done].
    simpl in Hcast. injection Hcast as <-.
    destruct (load_row_step keys cells0 toks vals s Hnd Hs Hlen Hvals)
      as (s1 & Hstep & Hs1 & Hm1).
    destruct (IH cells' (cells0 ++ [vals]) s1 Hs1 eq_refl Htail)
      as (s' & Hrun & Hs' & Hm').
    exists s'. split.
    + cbn [app load_rows]. rewrite Hsplit.
      destruct Hs as (Hcols & _). unfold get_ncols. rewrite Hcols.
      rewrite bool_decide_eq_true_2 by done. cbn [negb].
      rewrite Hcols in Hstep. revert Hstep. unfold mbind, M_bind.
      destruct (for_each _ load_cell s) as [[[]|e] s0]; [|done].
      unfold modify. intros [= <-]. exact Hrun.
    + split; [by rewrite <- app_assoc in Hs'|].
      destruct Hm1 as (? & ? & ?), Hm' as (? & ? & ?).
      repeat split; congruence.
Qed.

Lemma load_rows_fail keys rows_ row_lines tail : forall e cells0 s,
  NoDup keys -> rows_loaded keys cells0 s ->
  Forall2 (fun toks line => split line = toks /\ length toks = length keys)
    rows_ row_lines ->
  res_map (cast_row (column_dtype <$> keys)) rows_ = Raise e ->
  exists s', load_rows (row_lines ++ tail) s = (Raise e, s').
Proof.
  intros e cells0 s Hnd Hs Hrows. revert cells0 s Hs.
  induction Hrows as [|toks line rows_ row_lines [Hsplit Hlen] _ IH];
    intros cells0 s Hs Hcast; [done|].
  simpl in Hcast. cbn [app load_rows]. rewrite Hsplit.
  pose proof Hs as (Hcols & Hdts & Hrows_ & Hdata).
  unfold get_ncols. rewrite Hcols.
  rewrite bool_decide_eq_true_2 by done. cbn [negb].
  destruct (cast_row (column_dtype <$> keys) toks) as [vals|] eqn:Hvals.
  - simpl in Hcast.
    destruct (res_map (cast_row (column_dtype <$> keys)) rows_) as [cells'|] eqn:Hc;
      [done|].
    simpl in Hcast. injection Hcast as <-.
    destruct (load_row_step keys cells0 toks vals s Hnd Hs Hlen Hvals)
      as (s1 & Hstep & Hs1 & Hm1).
    destruct (IH (cells0 ++ [vals]) s1 Hs1 eq_refl) as (s' & Hrun).
    exists s'. rewrite Hcols in Hstep. revert Hstep. unfold mbind, M_bind.
    destruct (for_each _ load_cell s) as [[[]|e'] s0]; [|done].
    unfold modify. intros [= <-]. exact Hrun.
  - simpl in Hcast. injection Hcast as <-.
    destruct (for_each_load_cell_fail keys toks (column_dtype <$> keys) _ s
                Hnd Hlen (length_fmap _ _) Hvals)
      as (s' & Hrun).
    { intros key [c Hc]%list_elem_of_lookup. rewrite (Hdata c key Hc). eauto. }
    exists s'. unfold mbind, M_bind. by rewrite Hdts, Hrun.
Qed.

Lemma load_cast_cases d :
  load_cast Dstr d = Ret (VStr d) /\
  load_cast Dfloat d =
    match float_parse d with
    | Some x => Ret (VFloat x)
    | None => Raise ValueError
    end /\
  load_cast Dint d =
    match int_parse d with
    | Some z => Ret (VInt z)
    | None =>
        match float_parse d with
        | None => Raise ValueError
        | Some x =>
            match float_trunc x with
            | TruncOk z => Ret (VInt z)
            | TruncInf => Raise OverflowError
            | TruncNan => Raise ValueError
            end
        end
    end.
Proof.
  split; [done|]. unfold load_cast. simpl. split.
  - by destruct (float_parse d).
  - destruct (int_parse d); [done|]. simpl.
    destruct (float_parse d) as [x|]; [|done]. simpl.
    by destruct (float_trunc x).
Qed.

(** The state of [load] on a new table when the column lines are read. *)
Lemma load_headers_spec path (f : star_file) :
  star_file_ok f ->
  exists s2,
    (modify (set_header_1 []) ;;
     lines ← load_header_1 (sf_lines f);
     modify (set_cols []) ;;
     load_header_2 path lines) Star_init
    = (Ret (sf_row_lines f ++ sf_tail f), s2) /\
    rows_loaded (sf_keys f) [] s2 /\
    header_1 s2 = sf_preamble f /\ root_dir s2 = None /\ fname s2 = None.
Proof.
  intros (Hpre & Hne & Hnd & Hvalid & Hcols & Hrows & Hfirst & Htail).
  unfold sf_lines.
  unfold mbind at 1, M_bind, modify. unfold mbind at 1, M_bind.
  rewrite load_header_1_spec; [|done|].
  2:{ destruct Hcols as [|key line keys col_lines [Hu _] _]; [done|]. done. }
  unfold mbind at 1, M_bind.
  rewrite (load_header_2_spec path (sf_keys f)); [|done|done|done|done].
  eexists. split; [done|]. split; [|done].
  split; [done|]. split; [done|]. split; [done|].
  intros c key Hc. simpl. rewrite foldl_insert_nil_lookup.
  rewrite decide_True; [done|]. by eapply list_elem_of_lookup_2.
Qed.

(** [load] on a file it understands whose tokens all cast. *)
Lemma load_lines_ok path (f : star_file) cells :
  star_file_ok f ->
  res_map (cast_row (column_dtype <$> sf_keys f)) (sf_rows f) = Ret cells ->
  exists s',
    load_lines path (sf_lines f) Star_init = (Ret tt, s') /\
    header_1 s' = sf_preamble f /\
    cols s' = sf_keys f /\
    dtypes s' = column_dtype <$> sf_keys f /\
    rows s' = length (sf_rows f) /\
    forall c key, sf_keys f !! c = Some key ->
      data s' !! key = Some (column c cells).
Proof.
  intros Hok Hcells.
  destruct (load_headers_spec path f Hok) as (s2 & Hhead & Hs2 & Hh & Hrd & Hfn).
  pose proof Hok as (Hpre & Hne & Hnd & Hvalid & Hcols & Hrows & Hfirst & Htail).
  destruct (load_rows_ok (sf_keys f) (sf_rows f) (sf_row_lines f) (sf_tail f)
              cells [] s2 Hnd Hs2 Hrows Hcells Htail)
    as (s3 & Hrun & (Hc3 & Hd3 & Hr3 & Hdata3) & Hm3 & _).
  eexists. split.
  - unfold load_lines. revert Hhead. unfold mbind, M_bind, modify.
    destruct (load_header_1 _ _) as [[l1|?] s1]; [|done].
    intros ->. rewrite Hrun. done.
  - simpl. split; [congruence|]. split; [done|]. split; [done|].
    split; [|done]. rewrite Hr3. simpl.
    clear -Hcells. revert cells Hcells.
    induction (sf_rows f) as [|r rs IH]; intros cells; simpl.
    + by intros [= <-].
    + destruct (cast_row _ r); simpl; [|done].
      destruct (res_map _ rs) as [cs|]; simpl; [|done].
      intros [= <-]. simpl. f_equal. by apply IH.
Qed.

(** C6, as amended. On a file that [load] understands (see [star_file_ok]),
    loaded into a new table: every token is cast by [load_cast] with the
    type of its column. If no cast raises, [load] returns and the table
    has the columns of the file and, in each, the cast tokens of the rows.
    If a cast raises, [load] raises the same exception. The cast leaves a
    text token as it is; parses a token of a real column, failing with
    ValueError; and for an integer column takes an integer literal, and
    otherwise - with or without a decimal point - the truncation of the
    token read as a real, failing with ValueError when the token is no
    real literal or reads as NaN and with OverflowError when it reads as
    an infinity. *)
Theorem load_casts_every_token (path : string) (f : star_file) :
  star_file_ok f ->
  (forall cells,
     res_map (cast_row (column_dtype <$> sf_keys f)) (sf_rows f) = Ret cells ->
     exists s',
       load_lines path (sf_lines f) Star_init = (Ret tt, s') /\
       header_1 s' = sf_preamble f /\
       cols s' = sf_keys f /\
       dtypes s' = column_dtype <$> sf_keys f /\
       rows s' = length (sf_rows f) /\
       forall c key, sf_keys f !! c = Some key ->
         data s' !! key = Some (column c cells)) /\
  (forall e,
     res_map (cast_row (column_dtype <$> sf_keys f)) (sf_rows f) = Raise e ->
     exists s', load_lines path (sf_lines f) Star_init = (Raise e, s')) /\
  (forall d,
     load_cast Dstr d = Ret (VStr d) /\
     load_cast Dfloat d =
       match float_parse d with
       | Some x => Ret (VFloat x)
       | None => Raise ValueError
       end /\
     load_cast Dint d =
       match int_parse d with
       | Some z => Ret (VInt z)
       | None =>
           match float_parse d with
           | None => Raise ValueError
           | Some x =>
               match float_trunc x with
               | TruncOk z => Ret (VInt z)
               | TruncInf => Raise OverflowError
               | TruncNan => Raise ValueError
               end
           end
       end).
Proof.
  intros Hok. destruct (load_headers_spec path f Hok) as (s2 & Hhead & Hs2 & Hh & Hrd & Hfn).
  pose proof Hok as (Hpre & Hne & Hnd & Hvalid & Hcols & Hrows & Hfirst & Htail).
  split; [|split; [|apply load_cast_cases]].
  - intros cells Hcells. by apply load_lines_ok.
  - intros e He.
    destruct (load_rows_fail (sf_keys f) (sf_rows f) (sf_row_lines f) (sf_tail f)
                e [] s2 Hnd Hs2 Hrows He) as (s3 & Hrun).
    exists s3. unfold load_lines. revert Hhead. unfold mbind, M_bind, modify.
    destruct (load_header_1 _ _) as [[l1|?] s1]; [|done].
    intros ->. by rewrite Hrun.
Qed.

Lemma file_example_ok : star_file_ok file_example.
Proof.
  split; [|split; [|split; [|split; [|split; [|split; [|split]]]]]]; simpl.
  - repeat constructor; done.
  - done.
  - apply NoDup_by_decide. by vm_compute.
  - repeat constructor.
  - repeat constructor; by vm_compute.
  - repeat constructor; by vm_compute.
  - done.
  - by vm_compute.
Qed.

Lemma load_casts_every_token_witness :
  exists s',
    load_lines "run1/particles.star" (sf_lines file_example) Star_init = (Ret tt, s') /\
    header_1 s' = sf_preamble file_example /\
    cols s' = sf_keys file_example /\
    dtypes s' = column_dtype <$> sf_keys file_example /\
    rows s' = length (sf_rows file_example) /\
    forall c key, sf_keys file_example !! c = Some key ->
      data s' !! key =
        Some (column c
                [[VInt 1000; VFloat (S754_finite false 8796093022208000 (-43))];
                 [VInt 3; VFloat (S754_finite false 4503599627370496 (-50))]]).
Proof.
  apply (load_casts_every_token "run1/particles.star" file_example).
  - apply file_example_ok.
  - by vm_compute.
Defined.

(** C6 as stated fails twice. The token [1e3] of an integer column has no
    decimal point and is no integer literal, yet [load] does not raise: it
    stores 1000. And a token with a decimal point can raise: [1.0e999]
    reads as an infinity (OverflowError), [1.2.3] is no real literal
    (ValueError). *)
Lemma load_cast_counterexample :
  (has_dot "1e3" = false /\ int_parse "1e3" = None /\
   exists s',
     load "particles.star"
       ("_rlnClassNumber #1" +:+ NL +:+ "1e3" +:+ NL) Star_init = (Ret tt, s') /\
     data s' !! "_rlnClassNumber" = Some [VInt 1000]) /\
  (has_dot "1.0e999" = true /\
   exists s',
     load "particles.star"
       ("_rlnClassNumber #1" +:+ NL +:+ "1.0e999" +:+ NL) Star_init
     = (Raise OverflowError, s')) /\
  (has_dot "1.2.3" = true /\
   exists s',
     load "particles.star"
       ("_rlnClassNumber #1" +:+ NL +:+ "1.2.3" +:+ NL) Star_init
     = (Raise ValueError, s')).
Proof.
  split; [|split].
  - split; [done|]. split; [done|]. eexists. split; by vm_compute.
  - split; [done|]. eexists. by vm_compute.
  - split; [done|]. eexists. by vm_compute.
Qed.

(** ** Strings: [split], [readlines] and the text of numbers *)

Lemma chars_app a b : chars (a +:+ b) = chars a ++ chars b.
Proof. induction a as [|c a IH]; simpl; [done|]. by rewrite IH. Qed.

Lemma unchars_chars s : unchars (chars s) = s.
Proof. apply string_of_list_ascii_of_string. Qed.

Lemma chars_unchars l : chars (unchars l) = l.
Proof. apply list_ascii_of_string_of_list_ascii. Qed.

Lemma chars_inj a b : chars a = chars b -> a = b.
Proof. intros H. by rewrite <- (unchars_chars a), <- (unchars_chars b), H. Qed.

Lemma split_go_no_blank tok rest cur :
  no_blank tok -> split_go (tok ++ rest) cur = split_go rest (rev tok ++ cur).
Proof.
  intros H. revert cur. induction H as [|c tok Hc _ IH]; intros cur; [done|].
  simpl. rewrite Hc, IH. by rewrite <- app_assoc.
Qed.

Lemma split_go_token tok c rest :
  no_blank tok -> tok <> [] -> isspace c = true ->
  split_go (tok ++ c :: rest) [] = unchars tok :: split_go rest [].
Proof.
  intros Hnb Hne Hc. rewrite split_go_no_blank by done.
  simpl. rewrite Hc, app_nil_r.
  destruct (rev tok) eqn:E.
  - apply (f_equal (@rev ascii)) in E. rewrite rev_involutive in E. done.
  - rewrite <- E. by rewrite rev_involutive.
Qed.

Lemma is_token_chars t : is_token t -> no_blank (chars t) /\ chars t <> [].
Proof.
  intros [Hne Hnb]. split; [done|]. intros E. apply Hne.
  apply chars_inj. by rewrite E.
Qed.

Lemma split_token_blank t c rest :
  is_token t -> isspace c = true ->
  split (t +:+ String c rest) = t :: split rest.
Proof.
  intros [Hnb Hne]%is_token_chars Hc. unfold split.
  rewrite chars_app. simpl. rewrite split_go_token by done.
  by rewrite unchars_chars.
Qed.

Lemma split_join_tab toks :
  toks <> [] -> Forall is_token toks -> split (join_tab toks) = toks.
Proof.
  intros Hne Hall. induction Hall as [|t toks Ht Hall IH]; [done|].
  destruct toks as [|t' toks].
  - simpl. unfold NL. by rewrite split_token_blank.
  - change (join_tab (t :: t' :: toks)) with (t +:+ TAB +:+ join_tab (t' :: toks)).
    unfold TAB. change (String tab "" +:+ ?x) with (String tab x).
    rewrite split_token_blank by done. f_equal. by apply IH.
Qed.

Lemma readlines_go_line body rest cur :
  nl ∉ body ->
  readlines_go (body ++ nl :: rest) cur
  = unchars (rev cur ++ body ++ [nl]) :: readlines_go rest [].
Proof.
  revert cur. induction body as [|c body IH]; intros cur Hnl; simpl.
  - done.
  - apply not_elem_of_cons in Hnl as [Hc Hnl].
    destruct (Ascii.eqb c nl) eqn:E; [by apply Ascii.eqb_eq in E|].
    rewrite IH by done. simpl. by rewrite <- app_assoc.
Qed.

Lemma chars_concat_strings lines :
  chars (concat_strings lines) = concat (chars <$> lines).
Proof.
  induction lines as [|l lines IH]; simpl; [done|]. by rewrite chars_app, IH.
Qed.

Lemma readlines_concat lines :
  Forall proper_line lines -> readlines (concat_strings lines) = lines.
Proof.
  unfold readlines. rewrite chars_concat_strings.
  induction 1 as [|l lines (body & Hl & Hnl) _ IH]; [done|].
  rewrite fmap_cons. cbn [concat]. rewrite Hl, <- app_assoc. simpl.
  rewrite readlines_go_line by done. simpl. rewrite IH. f_equal.
  apply chars_inj. by rewrite chars_unchars.
Qed.
Lemma plain_uint d : Forall plain_char (chars (NilEmpty.string_of_uint d)).
Proof. induction d; simpl; try constructor; try done. Qed.

Lemma uint_chars_nonnil d : d <> Decimal.Nil -> chars (NilEmpty.string_of_uint d) <> [].
Proof. by destruct d. Qed.

Lemma uint_head_digit d c l :
  chars (NilEmpty.string_of_uint d) = c :: l -> isdigit c = true.
Proof. destruct d; simpl; intros H; inversion H; done. Qed.

Lemma plain_int_str z : Forall plain_char (chars (int_str z)).
Proof.
  unfold int_str. destruct z; simpl.
  - by repeat constructor.
  - apply plain_uint.
  - constructor; [done|apply plain_uint].
Qed.

Lemma plain_no_blank l : Forall plain_char l -> no_blank l.
Proof. intros H. eapply Forall_impl; [exact H|]. by intros c [? _]. Qed.

Lemma lstrip_chars_id l : no_blank l -> lstrip_chars l = l.
Proof. destruct 1 as [|c l Hc _]; simpl; [done|]. by rewrite Hc. Qed.

Lemma strip_chars_id l : no_blank l -> strip_chars l = l.
Proof.
  intros H. unfold strip_chars. rewrite (lstrip_chars_id l) by done.
  rewrite lstrip_chars_id, rev_involutive; [done|].
  unfold no_blank. rewrite rev_alt. by apply Forall_reverse.
Qed.

Lemma signed_digits_digit c l :
  isdigit c = true -> signed_digits (c :: l) = digits_value (c :: l).
Proof.
  destruct c as [[] [] [] [] [] [] [] []]; try discriminate; reflexivity.
Qed.

Lemma digits_value_uint d :
  d <> Decimal.Nil ->
  digits_value (chars (NilEmpty.string_of_uint d)) = Some (Z.of_uint d).
Proof.
  intros Hd. unfold digits_value.
  destruct (chars (NilEmpty.string_of_uint d)) eqn:E.
  - by apply uint_chars_nonnil in E.
  - rewrite <- E, unchars_chars, NilEmpty.usu. done.
Qed.

Lemma of_uint_to_uint p : Z.of_uint (Pos.to_uint p) = Z.pos p.
Proof. unfold Z.of_uint. by rewrite DecimalPos.Unsigned.of_to. Qed.

Lemma int_parse_int_str z : int_parse (int_str z) = Some z.
Proof.
  unfold int_parse. rewrite strip_chars_id by apply plain_no_blank, plain_int_str.
  unfold int_str. destruct z as [|p|p]; simpl.
  - reflexivity.
  - pose proof (DecimalPos.Unsigned.to_uint_nonnil p) as Hn.
    destruct (chars (NilEmpty.string_of_uint (Pos.to_uint p))) as [|c l] eqn:E.
    + by apply uint_chars_nonnil in E.
    + rewrite signed_digits_digit by (eapply uint_head_digit; eauto).
      rewrite <- E, digits_value_uint by done. by rewrite of_uint_to_uint.
  - pose proof (DecimalPos.Unsigned.to_uint_nonnil p) as Hn.
    change (Z.opp <$> digits_value (chars (NilEmpty.string_of_uint (Pos.to_uint p))) = Some (Z.neg p)).
    rewrite digits_value_uint by done. by rewrite of_uint_to_uint.
Qed.

Lemma int_str_nonempty z : int_str z <> "".
Proof.
  intros E. pose proof (int_parse_int_str z) as H. rewrite E in H. discriminate.
Qed.
Lemma plain_rstrip_zeros_rev l :
  Forall plain_char l -> Forall plain_char (rstrip_zeros_rev l).
Proof.
  induction 1 as [|c l Hc Hl IH]; simpl; [constructor|].
  destruct (decide (c = "0"%char)) as [->|Hne].
  - destruct l; [by constructor|done].
  - assert (rstrip_zeros_rev (c :: l) = c :: l) as E.
    { destruct c as [[] [] [] [] [] [] [] []]; try reflexivity. by destruct Hne. }
    simpl in E. rewrite E. by constructor.
Qed.

Lemma plain_rev l : Forall plain_char l -> Forall plain_char (rev l).
Proof. rewrite rev_alt. apply Forall_reverse. Qed.

Lemma plain_zeros n : Forall plain_char (zeros n).
Proof.
  unfold zeros. induction (Z.to_nat n); simpl; constructor; done.
Qed.

Lemma plain_exp_str e : Forall plain_char (exp_str e).
Proof.
  unfold exp_str. constructor.
  - by destruct (e <? 0).
  - destruct (Z.abs e <? 10); [constructor; [done|]|]; apply plain_int_str.
Qed.

Lemma plain_format_g12 ds k :
  Forall plain_char ds -> Forall plain_char (format_g12 ds k).
Proof.
  intros H. unfold format_g12.
  destruct ((k <=? -4) || (11 <? k)).
  - destruct H as [|c rest Hc Hrest]; [constructor|].
    apply Forall_app. split.
    + constructor; [done|]. destruct Hrest; constructor; [done|]. by constructor.
    + constructor; [done|]. apply plain_exp_str.
  - destruct (k <=? 0).
    + do 2 (constructor; [done|]). apply Forall_app. split; [apply plain_zeros|done].
    + destruct (Z.of_nat (length ds) <=? k).
      * repeat (apply Forall_app; split); try done; [apply plain_zeros|].
        by repeat constructor.
      * apply Forall_app. split; [by apply Forall_take|].
        constructor; [done|]. by apply Forall_drop.
Qed.

Lemma plain_float_str x : Forall plain_char (chars (float_str x)).
Proof.
  destruct x as [[]|[]| |s m e]; simpl; try by repeat constructor.
  destruct (if 0 <=? e then _ else _) as [n d].
  destruct (dtoa 12 n d) as [ds k] eqn:E.
  rewrite chars_unchars. apply Forall_app. split.
  - destruct s; by repeat constructor.
  - apply plain_format_g12. unfold dtoa in E.
    destruct (if _ =? 10 ^ 12 then _ else _) as [q k'] in E.
    injection E as <- _.
    apply plain_rev, plain_rstrip_zeros_rev, plain_rev, plain_int_str.
Qed.

Lemma plain_py_str_number v :
  (forall t, v <> VStr t) -> Forall plain_char (chars (py_str v)).
Proof.
  destruct v as [t|z|x]; intros H.
  - by destruct (H t).
  - apply plain_int_str.
  - apply plain_float_str.
Qed.
Lemma append_assoc_ a b c : (a +:+ b) +:+ c = a +:+ (b +:+ c).
Proof. apply chars_inj. by rewrite !chars_app, app_assoc. Qed.

Lemma append_nil_r_ a : a +:+ "" = a.
Proof. apply chars_inj. rewrite chars_app. simpl. by rewrite app_nil_r. Qed.

Lemma concat_strings_app a b :
  concat_strings (a ++ b) = concat_strings a +:+ concat_strings b.
Proof.
  induction a as [|x a IH]; [done|].
  rewrite <- app_comm_cons. cbn [concat_strings]. by rewrite IH, append_assoc_.
Qed.

Lemma row_line_spec s r keys :
  keys <> [] ->
  (forall key, key ∈ keys -> exists l, data s !! key = Some l /\ (r < length l)%nat) ->
  row_line keys (Z.of_nat r) s
  = Ret (join_tab (py_str <$> ((fun key => (data s !!! key) !!! r) <$> keys))).
Proof.
  induction keys as [|key keys IH]; intros Hne Hk; [done|].
  destruct (Hk key) as (l & Hl & Hr); [left|].
  destruct (lookup_lt_is_Some_2 l r Hr) as [x Hx].
  assert ((data s !!! key) !!! r = x) as Ex.
  { rewrite (lookup_total_correct _ _ _ Hl). by apply list_lookup_total_correct. }
  destruct keys as [|key' keys].
  - simpl. rewrite (get_element_nat key r s l x Hl Hx). simpl. by rewrite Ex.
  - change (row_line (key :: key' :: keys) (Z.of_nat r) s)
      with (c ← get_element key (Z.of_nat r) s;
            rest ← row_line (key' :: keys) (Z.of_nat r) s;
            Ret (py_str c +:+ TAB +:+ rest)).
    rewrite (get_element_nat key r s l x Hl Hx).
    rewrite IH; [|done|by intros k Hk'; apply Hk; right].
    simpl. by rewrite Ex.
Qed.

Lemma res_map_Ret {A B} (f : A -> res B) (g : A -> B) l :
  (forall x, x ∈ l -> f x = Ret (g x)) -> res_map f l = Ret (g <$> l).
Proof.
  induction l as [|x l IH]; intros H; simpl; [done|].
  rewrite H by left. simpl. rewrite IH by (intros; apply H; by right). done.
Qed.

Lemma to_string_spec s :
  star_inv s -> cols s <> [] ->
  to_string s = Ret (concat_strings (sf_lines (file_of s))).
Proof.
  intros (Hnd & Hlen & Hdom & Hrows) Hne. unfold to_string.
  rewrite bool_decide_true.
  2:{ unfold get_ncols. destruct (cols s); [done|simpl; lia]. }
  rewrite (res_map_Ret _ (fun r => join_tab (py_str <$> row_cells s r))).
  - simpl. unfold sf_lines. simpl.
    rewrite !concat_strings_app. simpl. rewrite append_nil_r_.
    by rewrite !append_assoc_.
  - intros r Hr%elem_of_seq. unfold get_column_keys, get_nrows in *.
    apply row_line_spec; [done|].
    intros key Hkey. apply Hdom in Hkey as [l Hl]. exists l. split; [done|].
    rewrite (Hrows _ _ Hl). lia.
Qed.
(** ** The round trip [load] of [to_string] *)

Lemma no_blank_no_nl l : no_blank l -> nl ∉ l.
Proof.
  intros H Hin. unfold no_blank in H. rewrite Forall_forall in H.
  by specialize (H _ Hin).
Qed.

Lemma no_blank_forallb l :
  forallb (fun c => negb (isspace c)) l = true -> no_blank l.
Proof.
  intros H. apply Forall_forall. intros c Hc.
  rewrite forallb_forall in H. apply negb_true_iff, H. by apply list_elem_of_In.
Qed.

Lemma valid_key_shape key :
  is_valid key = true -> starts_with_underscore key = true /\ is_token key.
Proof.
  unfold is_valid. destruct (str_index relion_cols key) as [j|] eqn:E; [|done].
  intros _. apply str_index_Some in E as [E _].
  apply list_elem_of_lookup_2 in E. revert key E. apply Forall_forall.
  apply (Forall_impl (fun key =>
           starts_with_underscore key && negb (String.eqb key "")
           && forallb (fun c => negb (isspace c)) (chars key) = true)).
  - apply Forall_forall. intros key Hkey.
    assert (forallb (fun key =>
              starts_with_underscore key && negb (String.eqb key "")
              && forallb (fun c => negb (isspace c)) (chars key)) relion_cols = true)
      as H by (vm_compute; reflexivity).
    rewrite forallb_forall in H. apply H. by apply list_elem_of_In.
  - intros key [[H1 H2]%andb_true_iff H3]%andb_true_iff.
    split; [done|]. split; [|by apply no_blank_forallb].
    intros ->. done.
Qed.

Lemma starts_with_underscore_app a b :
  a <> "" -> starts_with_underscore (a +:+ b) = starts_with_underscore a.
Proof. by destruct a. Qed.

Lemma plain_no_underscore t :
  Forall plain_char (chars t) -> starts_with_underscore t = false.
Proof.
  destruct t as [|c t]; [done|]. simpl. intros H.
  apply Forall_cons in H as [[_ Hc] _]. by apply Ascii.eqb_neq.
Qed.

Lemma cell_token v : cell_ok v -> is_token (py_str v).
Proof.
  destruct v as [t|z|x]; simpl; intros H.
  - done.
  - split; [apply int_str_nonempty|apply plain_no_blank, plain_int_str].
  - split; [|apply plain_no_blank, plain_float_str].
    intros E. rewrite E in H. discriminate.
Qed.

Lemma cell_cast d v :
  value_has_type d v -> cell_ok v -> load_cast d (py_str v) = Ret v.
Proof.
  destruct d, v as [t|z|x]; simpl; try done; intros _ H.
  - unfold load_cast. simpl. by rewrite int_parse_int_str.
  - unfold load_cast. simpl. by rewrite H.
Qed.

Lemma cast_row_cells (f : string -> value) keys :
  (forall key, key ∈ keys -> load_cast (column_dtype key) (py_str (f key)) = Ret (f key)) ->
  cast_row (column_dtype <$> keys) (py_str <$> (f <$> keys)) = Ret (f <$> keys).
Proof.
  induction keys as [|key keys IH]; intros H; [done|].
  rewrite !fmap_cons. cbn [cast_row].
  rewrite H by left. rewrite IH by (intros; apply H; by right). done.
Qed.

Lemma fmap_lookup_total_seq {A} `{Inhabited A} (l : list A) :
  (fun r => l !!! r) <$> seq 0 (length l) = l.
Proof.
  apply list_eq. intros i. rewrite list_lookup_fmap.
  destruct (decide (i < length l)%nat) as [Hi|Hi].
  - rewrite lookup_seq_lt by done. simpl.
    destruct (lookup_lt_is_Some_2 l i Hi) as [x Hx].
    by rewrite Hx, (list_lookup_total_correct _ _ _ Hx).
  - rewrite lookup_seq_ge by lia. simpl. symmetry. apply lookup_ge_None. lia.
Qed.

Lemma column_row_cells s c key l :
  cols s !! c = Some key -> data s !! key = Some l -> length l = rows s ->
  column c (row_cells s <$> seq 0 (rows s)) = l.
Proof.
  intros Hc Hl Hlen. unfold column. rewrite <- list_fmap_compose.
  rewrite <- Hlen.
  trans ((fun r => l !!! r) <$> seq 0 (length l)); [|apply fmap_lookup_total_seq].
  apply list_fmap_ext. intros i r _. simpl. unfold row_cells.
  rewrite (list_lookup_total_fmap _ (cols s) c) by (by eapply lookup_lt_Some).
  rewrite (list_lookup_total_correct _ _ _ Hc).
  by rewrite (lookup_total_correct _ _ _ Hl).
Qed.

Lemma proper_join_tab toks :
  toks <> [] -> Forall is_token toks -> proper_line (join_tab toks).
Proof.
  intros Hne Hall. induction Hall as [|t toks [_ Ht] Hall IH]; [done|].
  destruct toks as [|t' toks].
  - exists (chars t). simpl. rewrite chars_app. split; [done|]. by apply no_blank_no_nl.
  - destruct IH as (body & Hb & Hnl); [done|].
    exists (chars t ++ tab :: body).
    change (join_tab (t :: t' :: toks)) with (t +:+ TAB +:+ join_tab (t' :: toks)).
    rewrite !chars_app, Hb. split; [by rewrite <- app_assoc|].
    intros [Hin|Hin]%elem_of_app.
    + by apply no_blank_no_nl in Hin.
    + apply elem_of_cons in Hin as [Hin|Hin]; [discriminate|done].
Qed.

Lemma proper_header_line i key :
  is_token key -> proper_line (header_line i key).
Proof.
  intros [_ Hk]. unfold header_line.
  exists (chars key ++ chars " #" ++ chars (int_str (Z.of_nat i + 1))).
  rewrite !chars_app. split; [by rewrite <- !app_assoc|].
  intros [Hin|[Hin|Hin]%elem_of_app]%elem_of_app.
  - by apply no_blank_no_nl in Hin.
  - simpl in Hin. apply elem_of_cons in Hin as [Hin|Hin]; [discriminate|].
    apply elem_of_cons in Hin as [Hin|Hin]; [discriminate|]. by apply elem_of_nil in Hin.
  - by apply (no_blank_no_nl _ (plain_no_blank _ (plain_int_str _))) in Hin.
Qed.

Lemma column_line_header i key :
  is_valid key = true -> column_line key (header_line i key).
Proof.
  intros [Hu Ht]%valid_key_shape. unfold header_line. split.
  - rewrite starts_with_underscore_app; [done|apply Ht].
  - change (" " +:+ ?x) with (String " " x).
    rewrite split_token_blank by done. done.
Qed.
Lemma row_cell_in s r key :
  star_inv s -> key ∈ cols s -> (r < rows s)%nat ->
  exists l, data s !! key = Some l /\ (data s !!! key) !!! r ∈ l.
Proof.
  intros (_ & _ & Hdom & Hrows) Hkey Hr.
  apply Hdom in Hkey as [l Hl]. exists l. split; [done|].
  rewrite (lookup_total_correct _ _ _ Hl).
  apply list_elem_of_lookup_total_2. by rewrite (Hrows _ _ Hl).
Qed.

Lemma row_tokens s r :
  star_inv s -> cells_ok s -> (r < rows s)%nat ->
  Forall is_token (py_str <$> row_cells s r).
Proof.
  intros Hinv Hcells Hr. unfold row_cells.
  rewrite <- list_fmap_compose. apply Forall_fmap, Forall_forall.
  intros key Hkey. simpl.
  destruct (row_cell_in s r key Hinv Hkey Hr) as (l & Hl & Hin).
  apply cell_token. specialize (Hcells _ _ Hl). rewrite Forall_forall in Hcells.
  by apply Hcells.
Qed.

Lemma first_token s key keys :
  star_inv s -> star_typed s -> cells_ok s -> first_cells_ok s ->
  cols s = key :: keys -> (0 < rows s)%nat ->
  preamble_line (join_tab (py_str <$> row_cells s 0)).
Proof.
  intros Hinv Htyped Hcells Hfirst Hcols Hr.
  assert (key ∈ cols s) as Hkey by (rewrite Hcols; left).
  destruct (row_cell_in s 0 key Hinv Hkey Hr) as (l & Hl & Hin).
  assert (cols s !! 0%nat = Some key) as H0 by by rewrite Hcols.
  assert (l !! 0%nat = Some ((data s !!! key) !!! 0%nat)) as Hl0.
  { rewrite (lookup_total_correct _ _ _ Hl). apply list_lookup_lookup_total_lt.
    destruct Hinv as (_ & _ & _ & Hrows). rewrite (Hrows _ _ Hl). lia. }
  set (v := (data s !!! key) !!! 0%nat) in *.
  assert (is_token (py_str v)) as Htok.
  { apply cell_token. specialize (Hcells _ _ Hl). rewrite Forall_forall in Hcells.
    by apply Hcells. }
  assert (starts_with_underscore (py_str v) = false) as Hu.
  { destruct v as [t|z|x] eqn:Ev.
    - by apply (Hfirst key l t).
    - apply plain_no_underscore, plain_int_str.
    - apply plain_no_underscore, plain_float_str. }
  unfold row_cells. rewrite Hcols, !fmap_cons. fold v.
  assert (forall rest, preamble_line (py_str v +:+ rest)) as Hpre.
  { intros rest. split.
    - intros E. apply (f_equal chars) in E. rewrite chars_app in E.
      apply app_eq_nil in E as [E _]. by apply is_token_chars in Htok as [_ ?].
    - rewrite starts_with_underscore_app; [done|apply Htok]. }
  destruct keys; apply Hpre.
Qed.

Lemma file_of_ok s :
  star_inv s -> star_typed s -> cols s <> [] ->
  Forall (fun key => is_valid key = true) (cols s) ->
  header_1_ok s -> cells_ok s -> first_cells_ok s ->
  star_file_ok (file_of s).
Proof.
  intros Hinv Htyped Hne Hvalid Hhead Hcells Hfirst.
  pose proof Hinv as (Hnd & Hlen & Hdom & Hrows).
  unfold star_file_ok, file_of. simpl.
  split; [|split; [done|split; [done|split; [done|split; [|split; [|split]]]]]].
  - eapply Forall_impl; [exact Hhead|]. by intros line [? _].
  - apply Forall2_same_length_lookup_2; [by rewrite length_imap|].
    intros i key line Hkey Hline. rewrite list_lookup_imap, Hkey in Hline.
    injection Hline as <-. apply column_line_header.
    rewrite Forall_forall in Hvalid. apply Hvalid. by eapply list_elem_of_lookup_2.
  - apply Forall2_fmap, Forall_Forall2_diag, Forall_forall.
    intros r Hr%elem_of_seq. split.
    + apply split_join_tab; [|apply row_tokens; [done|done|lia]].
      unfold row_cells. destruct (cols s); done.
    + unfold row_cells. by rewrite !length_fmap.
  - destruct (rows s) as [|n] eqn:En; simpl.
    + done.
    + destruct (cols s) as [|key keys] eqn:Ec; [done|].
      eapply first_token; eauto. lia.
  - destruct (cols s); [done|]. simpl. done.
Qed.

Lemma file_of_proper s :
  star_inv s -> cols s <> [] ->
  Forall (fun key => is_valid key = true) (cols s) ->
  header_1_ok s -> cells_ok s ->
  Forall proper_line (sf_lines (file_of s)).
Proof.
  intros Hinv Hne Hvalid Hhead Hcells. unfold sf_lines, file_of. simpl.
  repeat (apply Forall_app; split).
  - eapply Forall_impl; [exact Hhead|]. by intros line [_ ?].
  - apply Forall_forall. intros line (i & Hi)%list_elem_of_lookup_1.
    rewrite list_lookup_imap in Hi.
    destruct (cols s !! i) as [key|] eqn:Hkey; [|done]. injection Hi as <-.
    apply proper_header_line.
    rewrite Forall_forall in Hvalid. apply valid_key_shape, Hvalid.
    by eapply list_elem_of_lookup_2.
  - apply Forall_fmap, Forall_forall. intros r Hr%elem_of_seq. simpl.
    apply proper_join_tab; [|apply row_tokens; [done|done|lia]].
    unfold row_cells. destruct (cols s); done.
  - constructor; [|constructor]. exists []. split; [done|apply not_elem_of_nil].
Qed.

Lemma res_map_fmap_arg {A B C} (f : B -> res C) (g : A -> B) l :
  res_map f (g <$> l) = res_map (fun x => f (g x)) l.
Proof.
  induction l as [|x l IH]; [done|].
  rewrite fmap_cons. cbn [res_map]. by rewrite IH.
Qed.

Lemma file_of_casts s :
  star_inv s -> star_typed s -> cells_ok s ->
  res_map (cast_row (column_dtype <$> cols s)) (sf_rows (file_of s))
  = Ret (row_cells s <$> seq 0 (rows s)).
Proof.
  intros Hinv Htyped Hcells. unfold file_of. simpl.
  rewrite res_map_fmap_arg. apply res_map_Ret.
  intros r Hr%elem_of_seq. unfold row_cells. apply cast_row_cells.
  intros key Hkey.
  destruct (row_cell_in s r key Hinv Hkey) as (l & Hl & Hin); [lia|].
  apply list_elem_of_lookup_1 in Hkey as [i Hi].
  destruct (Htyped i key Hi) as [_ Hty].
  specialize (Hty l Hl). specialize (Hcells key l Hl).
  rewrite Forall_forall in Hty, Hcells.
  apply cell_cast; [by apply Hty|by apply Hcells].
Qed.

(** The round trip of a table without columns and rows: the text is the
    preamble and an empty line, and [load] reads all of it as preamble. *)
Lemma round_trip_no_column path s :
  cols s = [] -> rows s = 0%nat -> dtypes s = [] -> header_1_ok s ->
  exists text s',
    to_string s = Ret text /\
    load path text Star_init = (Ret tt, s') /\
    cols s' = [] /\ dtypes s' = [] /\ rows s' = 0%nat.
Proof.
  intros Hc Hr Hd Hhead.
  assert (Forall proper_line (header_1 s ++ [NL])) as Hproper.
  { apply Forall_app. split.
    - eapply Forall_impl; [exact Hhead|]. by intros line [_ ?].
    - apply Forall_cons_2; [|apply Forall_nil_2].
      exists []. split; [done|apply not_elem_of_nil]. }
  assert (Forall preamble_line (header_1 s ++ [NL])) as Hpre.
  { apply Forall_app. split.
    - eapply Forall_impl; [exact Hhead|]. by intros line [? _].
    - apply Forall_cons_2; [|apply Forall_nil_2]. split; [discriminate|reflexivity]. }
  exists (concat_strings (header_1 s ++ [NL])). eexists. split.
  { unfold to_string, get_ncols. rewrite Hc. simpl.
    rewrite concat_strings_app. simpl. by rewrite !append_nil_r_. }
  split.
  { unfold load. rewrite readlines_concat by done.
    unfold load_lines. unfold mbind at 1, M_bind, modify. unfold mbind at 1, M_bind.
    rewrite <- (app_nil_r (header_1 s ++ [NL])) at 1.
    rewrite load_header_1_spec by done. reflexivity. }
  done.
Qed.

(** C3, as amended. Let a table keep the invariants of the data model and
    the types of its columns (as the tables built by the structural
    operations do), have its columns in the registry, no row unless it has
    a column, and a preamble of lines that are not empty and do not start
    with an underscore. Let every text cell be one token (not empty, no
    blank), the cell of the first row in the first column, if a text, not
    start with an underscore, and every real cell be given back by its
    text of 12 significant digits. Then [to_string] returns a text, [load]
    of that text into a new table returns, and the loaded table has the
    same columns in the same order, the same types, the same number of rows
    and in every column the same cells; if the table has a column the
    preamble is the same as well. Integer cells need no condition, and
    neither do the text cells of the first column after the first row. *)
Theorem round_trip_identity (path : string) (s : Star) :
  star_inv s -> star_typed s -> (cols s = [] -> rows s = 0%nat) ->
  Forall (fun key => is_valid key = true) (cols s) ->
  header_1_ok s -> cells_ok s -> first_cells_ok s ->
  exists text s',
    to_string s = Ret text /\
    load path text Star_init = (Ret tt, s') /\
    (cols s <> [] -> header_1 s' = header_1 s) /\
    cols s' = cols s /\
    dtypes s' = dtypes s /\
    rows s' = rows s /\
    forall key, key ∈ cols s -> data s' !! key = data s !! key.
Proof.
  intros Hinv Htyped Hrows0 Hvalid Hhead Hcells Hfirst.
  destruct (decide (cols s = [])) as [Hnil|Hne].
  { assert (dtypes s = []) as Hd.
    { destruct Hinv as (_ & Hlen & _). rewrite Hnil in Hlen.
      by apply nil_length_inv in Hlen. }
    destruct (round_trip_no_column path s Hnil (Hrows0 Hnil) Hd Hhead)
      as (text & s' & Hto & Hload & Hc & Hd' & Hr).
    exists text, s'. rewrite Hnil, Hd, (Hrows0 Hnil).
    split; [done|]. split; [done|]. split; [done|]. split; [done|].
    split; [done|]. split; [done|]. by intros key Hkey%elem_of_nil. }
  destruct (load_lines_ok path (file_of s) _
              (file_of_ok s Hinv Htyped Hne Hvalid Hhead Hcells Hfirst)
              (file_of_casts s Hinv Htyped Hcells))
    as (s' & Hload & Hh & Hc & Hd & Hr & Hdata).
  exists (concat_strings (sf_lines (file_of s))), s'.
  split; [by apply to_string_spec|]. split.
  { unfold load. rewrite readlines_concat; [done|]. by apply file_of_proper. }
  split; [done|]. split; [done|].
  split; [by rewrite Hd, (typed_dtypes s)|].
  split; [simpl in Hr; by rewrite Hr, length_fmap, length_seq|].
  intros key [c Hkey]%list_elem_of_lookup_1.
  rewrite (Hdata c key Hkey).
  pose proof Hinv as (_ & _ & Hdom & Hrows).
  destruct (proj1 (Hdom key)) as [l Hl]; [by eapply list_elem_of_lookup_2|].
  rewrite Hl. f_equal. apply (column_row_cells s c key l Hkey Hl (Hrows key l Hl)).
Qed.

Lemma table_trip_inv : star_inv table_trip.
Proof. apply ops_star_inv; [apply star_inv_init|ops_ok|by vm_compute]. Qed.

Lemma table_trip_typed : star_typed table_trip.
Proof.
  apply ops_star_typed; [apply star_inv_init|apply (star_typed_empty 0)|ops_ok|by vm_compute].
Qed.

Lemma table_trip_header : header_1_ok table_trip.
Proof.
  unfold header_1_ok.
  change (header_1 table_trip) with [NL; "data_" +:+ NL; NL; "loop_" +:+ NL].
  repeat (apply Forall_cons_2; [split|]); try apply Forall_nil_2;
    try (split; [discriminate|reflexivity]).
  - exists []. split; [done|apply not_elem_of_nil].
  - exists (chars "data_"). split; [done|]. apply no_blank_no_nl, no_blank_forallb. done.
  - exists []. split; [done|apply not_elem_of_nil].
  - exists (chars "loop_"). split; [done|]. apply no_blank_no_nl, no_blank_forallb. done.
Qed.

Lemma table_trip_cells : cells_ok table_trip.
Proof.
  intros key l Hl.
  assert (key ∈ cols table_trip) as Hk by (apply table_trip_inv; eauto).
  change (cols table_trip)
    with ["_rlnMicrographName"; "_rlnClassNumber"; "_rlnCoordinateX"] in Hk.
  repeat (apply elem_of_cons in Hk as [->|Hk];
          [vm_compute in Hl; injection Hl as <-;
           repeat (apply Forall_cons_2); try apply Forall_nil_2|]).
  - split; [discriminate|]. apply no_blank_forallb. done.
  - split; [discriminate|]. apply no_blank_forallb. done.
  - done.
  - done.
  - by vm_compute.
  - by vm_compute.
  - by apply elem_of_nil in Hk.
Qed.

Lemma table_trip_first : first_cells_ok table_trip.
Proof.
  intros key l t H0 Hl Hin. vm_compute in H0. injection H0 as <-.
  vm_compute in Hl. injection Hl as <-. by injection Hin as <-.
Qed.

Lemma table_trip_underscore_inv : star_inv table_trip_underscore.
Proof. apply ops_star_inv; [apply star_inv_init|ops_ok|by vm_compute]. Qed.

Lemma table_trip_underscore_cells : cells_ok table_trip_underscore.
Proof.
  intros key l Hl.
  assert (key ∈ cols table_trip_underscore) as Hk
    by (apply table_trip_underscore_inv; eauto).
  change (cols table_trip_underscore)
    with ["_rlnMicrographName"; "_rlnClassNumber"] in Hk.
  repeat (apply elem_of_cons in Hk as [->|Hk];
          [vm_compute in Hl; injection Hl as <-;
           repeat (apply Forall_cons_2); try apply Forall_nil_2|]).
  - split; [discriminate|]. apply no_blank_forallb. done.
  - split; [discriminate|]. apply no_blank_forallb. done.
  - done.
  - done.
  - by apply elem_of_nil in Hk.
Qed.

(** The witness has a text cell that starts with an underscore in the
    first column, in its second row. *)
Lemma round_trip_identity_witness :
  exists text s',
    to_string table_trip_underscore = Ret text /\
    load "run1/out.star" text Star_init = (Ret tt, s') /\
    (cols table_trip_underscore <> [] -> header_1 s' = header_1 table_trip_underscore) /\
    cols s' = cols table_trip_underscore /\
    dtypes s' = dtypes table_trip_underscore /\
    rows s' = rows table_trip_underscore /\
    forall key, key ∈ cols table_trip_underscore ->
      data s' !! key = data table_trip_underscore !! key.
Proof.
  apply (round_trip_identity "run1/out.star" table_trip_underscore).
  - apply table_trip_underscore_inv.
  - apply ops_star_typed;
      [apply star_inv_init|apply (star_typed_empty 0)|ops_ok|by vm_compute].
  - discriminate.
  - repeat constructor.
  - apply table_trip_header.
  - apply table_trip_underscore_cells.
  - intros key l t H0 Hl Hin. vm_compute in H0. injection H0 as <-.
    vm_compute in Hl. injection Hl as <-. by injection Hin as <-.
Defined.

(** C3 as it is written fails on tables built by [add_column] and [add_row]
    alone. A text cell with a blank is written as it is, and [load] then
    counts two tokens for one column and stops: the row is gone. A real
    cell is written with 12 significant digits: the loaded cell is another
    number. *)
Lemma round_trip_counterexample :
  (star_inv table_blank /\ star_typed table_blank /\
   rows table_blank = 1%nat /\
   exists s', round_trip "out.star" table_blank = (Ret tt, s') /\
     rows s' = 0%nat /\ data s' !! "_rlnMicrographName" = Some []) /\
  (star_inv table_digits /\ star_typed table_digits /\
   exists s' x y, round_trip "out.star" table_digits = (Ret tt, s') /\
     data table_digits !! "_rlnCoordinateX" = Some [VFloat x] /\
     data s' !! "_rlnCoordinateX" = Some [VFloat y] /\ x <> y).
Proof.
  split.
  - split; [apply ops_star_inv; [apply star_inv_init|ops_ok|by vm_compute]|].
    split; [apply ops_star_typed;
            [apply star_inv_init|apply (star_typed_empty 0)|ops_ok|by vm_compute]|].
    split; [by vm_compute|]. eexists. split; [by vm_compute|]. split; by vm_compute.
  - split; [apply ops_star_inv; [apply star_inv_init|ops_ok|by vm_compute]|].
    split; [apply ops_star_typed;
            [apply star_inv_init|apply (star_typed_empty 0)|ops_ok|by vm_compute]|].
    eexists _, _, _. split; [by vm_compute|]. split; [by vm_compute|].
    split; [by vm_compute|]. discriminate.
Qed.

(** The other conditions of the amended C3 are needed as well: a table with
    a row and no column loses the row; a text cell that starts with an
    underscore in the first column of the first row is read as a column
    line; a column that is not in the registry is written without the
    underscore that [load] looks for, and its line is read as a row. *)
Lemma round_trip_conditions_needed :
  (rows table_no_column = 1%nat /\
   exists s', round_trip "out.star" table_no_column = (Ret tt, s') /\ rows s' = 0%nat) /\
  (cols table_underscore = ["_rlnMicrographName"] /\ rows table_underscore = 1%nat /\
   exists s', round_trip "out.star" table_underscore = (Ret tt, s') /\
     cols s' = ["_rlnMicrographName"; "_rlnCoordinateX"] /\ rows s' = 0%nat) /\
  (exists s', round_trip "out.star" table_112_bypass = (Raise ValueError, s')).
Proof.
  split; [|split].
  - split; [by vm_compute|]. eexists. split; by vm_compute.
  - split; [by vm_compute|]. split; [by vm_compute|].
    eexists. split; [by vm_compute|]. split; by vm_compute.
  - eexists. by vm_compute.
Qed.
(** ** [add_column], [del_column]: what a call leaves *)

Lemma add_column_Ret key val no_parse s s' :
  star_inv s -> add_column key val no_parse s = (Ret tt, s') ->
  exists row,
    fill_row (column_dtype key) val (rows s) = Ret row /\
    match str_index (cols s) key with
    | Some idx =>
        s' = set_dtypes (<[idx := column_dtype key]> (dtypes s))
               (set_data (<[key := row]> (data s)) s)
    | None =>
        s' = set_dtypes (dtypes s ++ [column_dtype key])
               (set_cols (cols s ++ [key]) (set_data (<[key := row]> (data s)) s))
    end.
Proof.
  intros (Hnd & Hty & Hdom & Hlen). unfold add_column.
  destruct (no_parse || is_valid key); [|done].
  destruct (fill_row _ val (rows s)) as [row|e] eqn:Hrow; [|done].
  simpl. intros H. exists row. split; [done|]. revert H.
  destruct (str_index (cols s) key) as [idx|] eqn:Hidx.
  - apply str_index_Some in Hidx as [Hidx _].
    rewrite (list_insert_id (cols s)) by done.
    case_bool_decide; [|done]. intros [= <-]. by destruct s.
  - by intros [= <-].
Qed.

Lemma index_from_app_l {A} (eqb : A -> A -> bool) l m x i j :
  index_from eqb l x i = Some j -> index_from eqb (l ++ m) x i = Some j.
Proof.
  revert i. induction l as [|y l IH]; intros i; simpl; [done|].
  destruct (eqb y x); [done|]. apply IH.
Qed.

Lemma index_from_snoc l key i :
  key ∉ l -> index_from String.eqb (l ++ [key]) key i = Some (length l + i)%nat.
Proof.
  revert i. induction l as [|y l IH]; intros i Hl; simpl.
  - by rewrite String.eqb_refl.
  - apply not_elem_of_cons in Hl as [Hy Hl].
    destruct (String.eqb y key) eqn:E; [apply String.eqb_eq in E; by subst|].
    rewrite IH by done. f_equal. lia.
Qed.

Lemma str_index_lt l x j : str_index l x = Some j -> (j < length l)%nat.
Proof. intros [H _]%str_index_Some. by eapply lookup_lt_Some. Qed.

Lemma get_column_data_Some key s l :
  key ∈ cols s -> data s !! key = Some l -> get_column_data key s = Ret (Some l).
Proof.
  intros Hk Hl. unfold get_column_data, data_at.
  rewrite (proj2 (is_column_true key s)) by done. by rewrite Hl.
Qed.

Lemma get_column_data_None key s :
  key ∉ cols s -> get_column_data key s = Ret None.
Proof.
  intros Hk. unfold get_column_data.
  by rewrite (proj2 (is_column_false key s)).
Qed.

(** X1. [add_column] is all or nothing. On a table with the invariants, a
    call that raises leaves the table as it was; and it raises either
    because the key is not accepted or because the new cells could not be
    built (wrong length, a value that does not cast). *)
Theorem add_column_raises_unchanged key val no_parse s e s' :
  star_inv s ->
  add_column key val no_parse s = (Raise e, s') ->
  s' = s /\
  ((no_parse = false /\ is_valid key = false /\
    e = PySegInputError "add_column (Star)" ("Column name " +:+ key +:+ " not accepted")) \/
   fill_row (column_dtype key) val (rows s) = Raise e).
Proof.
  intros (Hnd & Hty & Hdom & Hlen). unfold add_column.
  destruct (no_parse || is_valid key) eqn:Hacc.
  - destruct (fill_row _ val (rows s)) as [row|e'] eqn:Hrow.
    + simpl. destruct (str_index (cols s) key) as [idx|] eqn:Hidx; [|done].
      apply str_index_lt in Hidx.
      rewrite bool_decide_eq_true_2; [done|]. simpl. lia.
    + intros [= <- <-]. split; [done|]. by right.
  - apply orb_false_iff in Hacc as [-> Hv].
    intros [= <- <-]. split; [done|]. by left.
Qed.

Lemma add_column_raises_unchanged_witness :
  snd (add_column "_rlnClassNumber" (OSeq [VInt 3; VStr "4"; VStr "x"; VInt 5]) false
         table_4rows) = table_4rows /\
  ((false = false /\ is_valid "_rlnClassNumber" = false /\
    ValueError = PySegInputError "add_column (Star)"
                   ("Column name " +:+ "_rlnClassNumber" +:+ " not accepted")) \/
   fill_row (column_dtype "_rlnClassNumber")
     (OSeq [VInt 3; VStr "4"; VStr "x"; VInt 5]) (rows table_4rows) = Raise ValueError).
Proof.
  apply (add_column_raises_unchanged "_rlnClassNumber"
           (OSeq [VInt 3; VStr "4"; VStr "x"; VInt 5]) false table_4rows ValueError).
  - apply table_4rows_inv.
  - by vm_compute.
Defined.

(** X2. What a successful [add_column] leaves, seen through the getters:
    [get_column_data] gives the cast cells, one per row, and
    [get_column_type] the type of the key; the number of rows is as it
    was; a key that was a column keeps its place and a new key goes to the
    end; the cells and the type of every other column are untouched. *)
Theorem add_column_then_get key val no_parse s s' :
  star_inv s ->
  add_column key val no_parse s = (Ret tt, s') ->
  exists row,
    fill_row (column_dtype key) val (rows s) = Ret row /\
    length row = rows s /\
    get_column_data key s' = Ret (Some row) /\
    get_column_type key s' = Ret (Some (column_dtype key)) /\
    rows s' = rows s /\
    (key ∈ cols s -> cols s' = cols s) /\
    (key ∉ cols s -> cols s' = cols s ++ [key]) /\
    forall k, k <> key ->
      get_column_data k s' = get_column_data k s /\
      get_column_type k s' = get_column_type k s.
Proof.
  intros Hinv Hadd. pose proof Hinv as (Hnd & Hty & Hdom & Hlen).
  destruct (add_column_Ret _ _ _ _ _ Hinv Hadd) as (row & Hrow & Hs').
  exists row. split; [done|]. split; [by eapply fill_row_length|].
  destruct (str_index (cols s) key) as [idx|] eqn:Hidx.
  - pose proof (str_index_lt _ _ _ Hidx) as Hlt.
    pose proof Hidx as [Hk Hfirst]%str_index_Some.
    assert (key ∈ cols s) as Hin by by eapply list_elem_of_lookup_2.
    subst s'. split; [|split; [|split; [done|split; [done|split; [done|]]]]].
    + apply get_column_data_Some; [done|]. simpl. by rewrite lookup_insert_eq.
    + unfold get_column_type. simpl. rewrite Hidx. simpl.
      rewrite list_lookup_insert_eq by lia. done.
    + intros k Hne. split.
      * unfold get_column_data, is_column, data_at. simpl.
        by rewrite lookup_insert_ne.
      * unfold get_column_type. simpl.
        destruct (str_index (cols s) k) as [j|] eqn:Hj; [|done].
        rewrite list_lookup_insert_ne; [done|].
        intros <-. apply str_index_Some in Hj as [Hj _]. congruence.
  - pose proof Hidx as Hnot%str_index_None.
    subst s'. split; [|split; [|split; [done|split; [done|split; [done|]]]]].
    + apply get_column_data_Some; simpl.
      * apply elem_of_app. right. by left.
      * by rewrite lookup_insert_eq.
    + unfold get_column_type, str_index. simpl.
      rewrite index_from_snoc by done. simpl.
      rewrite Nat.add_0_r, <- Hty, lookup_app_r by lia.
      by rewrite Nat.sub_diag.
    + intros k Hne. split.
      * unfold get_column_data, is_column, data_at. simpl.
        rewrite lookup_insert_ne by done.
        destruct (decide (k ∈ cols s)) as [Hk|Hk].
        -- rewrite !bool_decide_eq_true_2; [done|done|]. apply elem_of_app. by left.
        -- rewrite !bool_decide_eq_false_2; [done|done|].
           intros [?|?%list_elem_of_singleton]%elem_of_app; done.
      * unfold get_column_type. simpl.
        destruct (str_index (cols s) k) as [j|] eqn:Hj.
        -- assert (str_index (cols s ++ [key]) k = Some j) as ->.
           { by apply index_from_app_l. }
           simpl. rewrite lookup_app_l; [done|].
           rewrite Hty. by eapply str_index_lt.
        -- assert (str_index (cols s ++ [key]) k = None) as ->; [|done].
           apply str_index_None. apply str_index_None in Hj.
           intros [?|?%list_elem_of_singleton]%elem_of_app; done.
Qed.

Lemma add_column_then_get_witness :
  exists row,
    fill_row (column_dtype "_rlnCoordinateX") (OVal (VInt 7)) (rows table_4rows)
      = Ret row /\
    length row = rows table_4rows /\
    get_column_data "_rlnCoordinateX"
      (snd (add_column "_rlnCoordinateX" (OVal (VInt 7)) false table_4rows))
      = Ret (Some row) /\
    get_column_type "_rlnCoordinateX"
      (snd (add_column "_rlnCoordinateX" (OVal (VInt 7)) false table_4rows))
      = Ret (Some (column_dtype "_rlnCoordinateX")) /\
    rows (snd (add_column "_rlnCoordinateX" (OVal (VInt 7)) false table_4rows))
      = rows table_4rows /\
    ("_rlnCoordinateX" ∈ cols table_4rows ->
       cols (snd (add_column "_rlnCoordinateX" (OVal (VInt 7)) false table_4rows))
       = cols table_4rows) /\
    ("_rlnCoordinateX" ∉ cols table_4rows ->
       cols (snd (add_column "_rlnCoordinateX" (OVal (VInt 7)) false table_4rows))
       = cols table_4rows ++ ["_rlnCoordinateX"]) /\
    forall k, k <> "_rlnCoordinateX" ->
      get_column_data k
        (snd (add_column "_rlnCoordinateX" (OVal (VInt 7)) false table_4rows))
      = get_column_data k table_4rows /\
      get_column_type k
        (snd (add_column "_rlnCoordinateX" (OVal (VInt 7)) false table_4rows))
      = get_column_type k table_4rows.
Proof.
  apply (add_column_then_get "_rlnCoordinateX" (OVal (VInt 7)) false table_4rows).
  - apply table_4rows_inv.
  - by vm_compute.
Defined.

Lemma delete_snoc {A} (l : list A) x : delete (length l) (l ++ [x]) = l.
Proof. induction l as [|y l IH]; simpl; [done|]. by rewrite IH. Qed.

Lemma delete_snoc_len {A} (l : list A) x n : n = length l -> delete n (l ++ [x]) = l.
Proof. intros ->. apply delete_snoc. Qed.

(** X3. [del_column] undoes [add_column] of a new column: on a table with
    the invariants, adding a key that is no column and deleting it again
    gives back the very table, whatever the value was. *)
Theorem del_column_undoes_add_column key val no_parse s s1 :
  star_inv s -> key ∉ cols s ->
  add_column key val no_parse s = (Ret tt, s1) ->
  del_column key s1 = (Ret tt, s).
Proof.
  intros Hinv Hnot Hadd. pose proof Hinv as (Hnd & Hty & Hdom & Hlen).
  destruct (add_column_Ret _ _ _ _ _ Hinv Hadd) as (row & Hrow & Hs1).
  rewrite (proj2 (str_index_None _ _) Hnot) in Hs1. subst s1.
  unfold del_column.
  rewrite (proj2 (is_column_true _ _)) by (simpl; apply elem_of_app; right; by left).
  simpl. unfold str_index. rewrite index_from_snoc by done.
  rewrite Nat.add_0_r. unfold pop. simpl. rewrite delete_snoc.
  rewrite bool_decide_eq_true_2 by (rewrite length_app; simpl; lia).
  simpl. rewrite lookup_insert_eq.
  rewrite (delete_snoc_len (dtypes s)) by done.
  rewrite delete_insert_eq, delete_id; [by destruct s|].
  destruct (data s !! key) eqn:E; [|done].
  exfalso. apply Hnot, Hdom. eauto.
Qed.

Lemma del_column_undoes_add_column_witness :
  del_column "_rlnCoordinateX"
    (snd (add_column "_rlnCoordinateX" (OVal (VInt 7)) false table_4rows))
  = (Ret tt, table_4rows).
Proof.
  apply (del_column_undoes_add_column "_rlnCoordinateX" (OVal (VInt 7)) false).
  - apply table_4rows_inv.
  - apply (bool_decide_eq_false_1 (_ ∈ _)). by vm_compute.
  - by vm_compute.
Defined.

Lemma index_from_shift {A} (eqb : A -> A -> bool) l x i :
  index_from eqb l x i = (fun j => (i + j)%nat) <$> index_from eqb l x 0.
Proof.
  revert i. induction l as [|y l IH]; intros i; simpl; [done|].
  destruct (eqb y x); simpl; [f_equal; lia|].
  rewrite (IH (S i)), (IH 1%nat).
  destruct (index_from eqb l x 0); simpl; [f_equal; lia|done].
Qed.

Lemma str_index_delete l idx key k :
  l !! idx = Some key -> k <> key ->
  str_index (delete idx l) k =
    (fun j => if decide (j < idx)%nat then j else pred j) <$> str_index l k.
Proof.
  unfold str_index. revert idx. induction l as [|y l IH]; intros idx Hidx Hne; [done|].
  destruct idx as [|idx]; simpl in *.
  - injection Hidx as ->.
    rewrite (proj2 (String.eqb_neq key k)) by done.
    rewrite (index_from_shift _ l k 1).
    destruct (index_from String.eqb l k 0); simpl; [|done]. done.
  - destruct (String.eqb y k); simpl; [done|].
    rewrite (index_from_shift _ (delete idx l) k 1), (index_from_shift _ l k 1).
    rewrite (IH idx) by done.
    destruct (index_from String.eqb l k 0) as [j|] eqn:Hj; simpl; [|done].
    apply (index_from_Some _ _ _ _ _ str_eqb_iff) in Hj as (_ & Hj & _).
    rewrite Nat.sub_0_r in Hj.
    assert (j <> idx) by congruence.
    f_equal. destruct (decide (j < idx)%nat), (decide (S j < S idx)%nat); lia.
Qed.

Lemma filter_ne_id (l : list string) key :
  key ∉ l -> filter (fun k => k <> key) l = l.
Proof.
  induction l as [|y l IH]; intros Hl; [done|].
  apply not_elem_of_cons in Hl as [Hy Hl].
  rewrite filter_cons_True by done. by rewrite IH.
Qed.

Lemma delete_filter_NoDup (l : list string) idx key :
  NoDup l -> l !! idx = Some key -> delete idx l = filter (fun k => k <> key) l.
Proof.
  intros Hnd. revert idx. induction Hnd as [|y l Hy Hnd IH]; intros idx Hidx; [done|].
  destruct idx as [|idx]; simpl in *.
  - injection Hidx as ->. rewrite filter_cons_False by (intros H; by apply H).
    by rewrite filter_ne_id.
  - rewrite filter_cons_True.
    + by rewrite (IH idx).
    + intros ->. apply Hy. by eapply list_elem_of_lookup_2.
Qed.

Lemma del_column_Ret key s :
  star_inv s ->
  exists s',
    del_column key s = (Ret tt, s') /\
    (((key ∉ cols s) /\ s' = s) \/
     exists idx, cols s !! idx = Some key /\
       s' = set_data (delete key (data s))
              (set_dtypes (delete idx (dtypes s))
                 (set_cols (delete idx (cols s)) s))).
Proof.
  intros (Hnd & Hty & Hdom & Hlen). unfold del_column.
  destruct (is_column key s) eqn:Hc.
  - apply is_column_true in Hc.
    destruct (str_index_elem _ _ Hc) as [idx Hidx]. rewrite Hidx.
    pose proof (str_index_lt _ _ _ Hidx) as Hlt.
    apply str_index_Some in Hidx as [Hidx _]. simpl.
    rewrite bool_decide_eq_true_2 by lia. simpl.
    destruct (proj1 (Hdom key) Hc) as [l ->].
    eexists. split; [done|]. right. by exists idx.
  - apply is_column_false in Hc. eexists. split; [done|]. by left.
Qed.

(** X4. On a table with the invariants [del_column] always returns. The
    key is no column afterwards, the columns that are left keep their
    order, their cells and their types, the number of rows is as it was
    and the invariants hold again; deleting a key that is no column
    changes nothing. *)
Theorem del_column_removes key s :
  star_inv s ->
  exists s',
    del_column key s = (Ret tt, s') /\
    star_inv s' /\
    cols s' = filter (fun k => k <> key) (cols s) /\
    data s' = delete key (data s) /\
    rows s' = rows s /\
    (forall k, k <> key -> get_column_type k s' = get_column_type k s) /\
    (key ∉ cols s -> s' = s).
Proof.
  intros Hinv. pose proof Hinv as (Hnd & Hty & Hdom & Hlen).
  destruct (del_column_Ret key s Hinv) as (s' & E & Hs').
  exists s'. split; [done|].
  split; [by eapply del_column_inv|].
  destruct Hs' as [[Hnot ->]|(idx & Hidx & ->)].
  - split; [by rewrite filter_ne_id|]. split; [|done].
    rewrite delete_id; [done|].
    destruct (data s !! key) eqn:El; [|done]. exfalso. apply Hnot, Hdom. eauto.
  - simpl. split; [by apply delete_filter_NoDup|]. split; [done|]. split; [done|].
    split.
    + intros k Hne. unfold get_column_type. simpl.
      rewrite (str_index_delete _ idx key) by done.
      destruct (str_index (cols s) k) as [j|] eqn:Hj; simpl; [|done].
      assert (j <> idx) as Hji.
      { intros ->. apply str_index_Some in Hj as [Hj _]. congruence. }
      destruct (decide (j < idx)%nat).
      * by rewrite list_lookup_delete_lt.
      * rewrite list_lookup_delete_ge by lia. f_equal. f_equal. f_equal. lia.
    + intros Hnot. exfalso. apply Hnot. by eapply list_elem_of_lookup_2.
Qed.

Lemma del_column_removes_witness :
  exists s',
    del_column "_rlnImageName" table_4rows = (Ret tt, s') /\
    star_inv s' /\
    cols s' = filter (fun k => k <> "_rlnImageName") (cols table_4rows) /\
    data s' = delete "_rlnImageName" (data table_4rows) /\
    rows s' = rows table_4rows /\
    (forall k, k <> "_rlnImageName" ->
       get_column_type k s' = get_column_type k table_4rows) /\
    ("_rlnImageName" ∉ cols table_4rows -> s' = table_4rows).
Proof.
  apply (del_column_removes "_rlnImageName" table_4rows).
  apply table_4rows_inv.
Defined.

(** ** [add_row], cells *)

(** X5. A successful [add_row] on a table with the invariants: there is
    one more row, the columns and their types are as they were, and every
    column got exactly one cell at its end, the value given under the
    column's key cast to the column's type - in whatever order the
    dictionary of the keyword arguments yields its items. *)
Theorem add_row_appends kwargs s s' :
  star_inv s -> NoDup kwargs.*1 ->
  add_row kwargs s = (Ret tt, s') ->
  rows s' = S (rows s) /\ cols s' = cols s /\ dtypes s' = dtypes s /\
  star_inv s' /\
  forall key, key ∈ cols s ->
    exists v l dt x,
      (key, v) ∈ kwargs /\ data s !! key = Some l /\
      get_column_type key s = Ret (Some dt) /\
      call_dtype dt v = Ret x /\
      data s' !! key = Some (l ++ [x]).
Proof.
  intros Hinv Hnd Hadd.
  pose proof (add_row_inv _ _ _ Hinv Hnd Hadd) as Hinv'.
  destruct (add_row_Ret _ _ _ Hnd Hadd) as (Hlen & d & -> & Hin & Hout).
  split; [done|]. split; [done|]. split; [done|]. split; [done|].
  intros key Hkey.
  assert (key ∈ kwargs.*1) as Hk.
  { apply (kwargs_cover kwargs.*1 (cols s)); [done| |by rewrite length_fmap|done].
    intros k [[k' v] [-> Hkv]]%list_elem_of_fmap. by apply (Hin k' v). }
  apply list_elem_of_fmap in Hk as [[k v] [-> Hkv]].
  destruct (Hin k v Hkv) as (_ & l & dt & x & Hl & Hdt & Hx & Hd).
  by exists v, l, dt, x.
Qed.

Lemma add_row_appends_witness :
  rows (snd (add_row [("_rlnClassNumber", VStr " 7 "); ("_rlnImageName", VInt 12)]
               table_4rows)) = S (rows table_4rows) /\
  cols (snd (add_row [("_rlnClassNumber", VStr " 7 "); ("_rlnImageName", VInt 12)]
               table_4rows)) = cols table_4rows /\
  dtypes (snd (add_row [("_rlnClassNumber", VStr " 7 "); ("_rlnImageName", VInt 12)]
                 table_4rows)) = dtypes table_4rows /\
  star_inv (snd (add_row [("_rlnClassNumber", VStr " 7 "); ("_rlnImageName", VInt 12)]
                   table_4rows)) /\
  forall key, key ∈ cols table_4rows ->
    exists v l dt x,
      (key, v) ∈ [("_rlnClassNumber", VStr " 7 "); ("_rlnImageName", VInt 12)] /\
      data table_4rows !! key = Some l /\
      get_column_type key table_4rows = Ret (Some dt) /\
      call_dtype dt v = Ret x /\
      data (snd (add_row [("_rlnClassNumber", VStr " 7 "); ("_rlnImageName", VInt 12)]
                   table_4rows)) !! key = Some (l ++ [x]).
Proof.
  apply (add_row_appends [("_rlnClassNumber", VStr " 7 "); ("_rlnImageName", VInt 12)]
           table_4rows).
  - apply table_4rows_inv.
  - apply NoDup_by_decide. by vm_compute.
  - by vm_compute.
Defined.

(** X6. The registry gives a type exactly to its own keys: [is_valid]
    holds of the listed names and of no other, and [get_dtype] is [None]
    if and only if [is_valid] is [False]; for a valid key the lookup in
    the list of types never runs off its end. *)
Theorem get_dtype_iff_valid key :
  (is_valid key = true <-> key ∈ relion_cols) /\
  (get_dtype key = None <-> is_valid key = false) /\
  (exists d, get_dtype key = if is_valid key then Some d else None).
Proof.
  assert (is_valid key = true <-> key ∈ relion_cols) as Hv.
  { unfold is_valid. destruct (str_index relion_cols key) as [j|] eqn:E.
    - apply str_index_Some in E as [E _]. split; [|done].
      intros _. by eapply list_elem_of_lookup_2.
    - apply str_index_None in E. split; [done|]. by intros ?. }
  assert (is_valid key = true -> exists d, get_dtype key = Some d) as Hd.
  { intros H. unfold get_dtype. rewrite H.
    unfold is_valid in H. destruct (str_index relion_cols key) as [j|] eqn:E; [|done].
    apply str_index_lt in E. simpl.
    apply lookup_lt_is_Some_2.
    change (length relion_dtypes) with (length relion_cols). done. }
  split; [done|]. split.
  - split.
    + intros Hn. destruct (is_valid key) eqn:E; [|done].
      destruct (Hd eq_refl) as [d Hd']. congruence.
    + intros Hn. unfold get_dtype. by rewrite Hn.
  - destruct (is_valid key) eqn:E.
    + by apply Hd.
    + exists Dfloat. unfold get_dtype. by rewrite E.
Qed.

Lemma getitem_norm {A} (l : list A) i :
  getitem l i = of_option IndexError (norm_index (length l) i ≫= fun j => l !! j).
Proof. done. Qed.

Lemma norm_index_lt n i j : norm_index n i = Some j -> (j < n)%nat.
Proof. by intros [? _]%norm_index_Some. Qed.

(** X7. [set_element] and [get_element]. For a key that is not in the
    registry [set_element] raises a TypeError and leaves the table alone
    (the type is asked of the registry, which gives [None]), even when the
    column exists. When [set_element] returns on a table with the
    invariants, [get_element] at the same key and row gives the value cast
    to the registry's type, every other cell reads as before, and the
    invariants hold again. *)
Theorem set_element_then_get key row val s :
  (is_valid key = false -> set_element key row val s = (Raise TypeError, s)) /\
  (forall s',
     star_inv s -> set_element key row val s = (Ret tt, s') ->
     exists x j,
       call_dtype (column_dtype key) val = Ret x /\
       norm_index (rows s) row = Some j /\
       get_element key row s' = Ret x /\
       (forall k r, k <> key \/ norm_index (rows s) r <> Some j ->
          get_element k r s' = get_element k r s) /\
       rows s' = rows s /\ cols s' = cols s /\ dtypes s' = dtypes s /\
       star_inv s').
Proof.
  split.
  - intros Hv. unfold set_element, get_dtype. by rewrite Hv.
  - intros s' Hinv. pose proof Hinv as (Hnd & Hty & Hdom & Hlen).
    unfold set_element.
    destruct (get_dtype key) as [dt|] eqn:Hdt; [|done].
    assert (dt = column_dtype key) as ->.
    { unfold column_dtype. by rewrite Hdt. }
    destruct (call_dtype _ val) as [x|] eqn:Hx; [|done].
    unfold data_at. destruct (data s !! key) as [l|] eqn:Hl; [|done]. simpl.
    pose proof (Hlen _ _ Hl) as Hll.
    unfold setitem. rewrite Hll.
    destruct (norm_index (rows s) row) as [j|] eqn:Hj; [|done]. simpl.
    intros [= <-]. exists x, j.
    pose proof (norm_index_lt _ _ _ Hj) as Hlt.
    split; [done|]. split; [done|]. split.
    { unfold get_element, data_at. simpl. rewrite lookup_insert_eq. simpl.
      rewrite getitem_norm, length_insert, Hll, Hj. simpl.
      rewrite list_lookup_insert_eq by lia. done. }
    split.
    { intros k r Hkr. unfold get_element, data_at. simpl.
      destruct (decide (k = key)) as [->|Hne].
      - destruct Hkr as [?|Hr]; [done|].
        rewrite lookup_insert_eq, Hl. simpl.
        rewrite !getitem_norm, length_insert, Hll.
        destruct (norm_index (rows s) r) as [j'|]; [|done]. simpl.
        rewrite list_lookup_insert_ne; [done|]. congruence.
      - by rewrite lookup_insert_ne. }
    split; [done|]. split; [done|]. split; [done|].
    unfold star_inv; simpl. split; [done|]. split; [done|]. split.
    + intros k. destruct (decide (k = key)) as [->|Hne].
      * rewrite lookup_insert_eq. split; [eauto|]. intros _. apply Hdom. eauto.
      * by rewrite lookup_insert_ne.
    + intros k l'. destruct (decide (k = key)) as [->|Hne].
      * rewrite lookup_insert_eq. intros [= <-]. by rewrite length_insert.
      * rewrite lookup_insert_ne by done. apply Hlen.
Qed.

Lemma set_element_then_get_witness :
  set_element "myScore" 0 (VInt 1) table_112_bypass
    = (Raise TypeError, table_112_bypass) /\
  exists x j,
    call_dtype (column_dtype "_rlnClassNumber") (VStr "12") = Ret x /\
    norm_index (rows table_4rows) (-1) = Some j /\
    get_element "_rlnClassNumber" (-1)
      (snd (set_element "_rlnClassNumber" (-1) (VStr "12") table_4rows)) = Ret x /\
    (forall k r, k <> "_rlnClassNumber" \/ norm_index (rows table_4rows) r <> Some j ->
       get_element k r (snd (set_element "_rlnClassNumber" (-1) (VStr "12") table_4rows))
       = get_element k r table_4rows) /\
    rows (snd (set_element "_rlnClassNumber" (-1) (VStr "12") table_4rows))
      = rows table_4rows /\
    cols (snd (set_element "_rlnClassNumber" (-1) (VStr "12") table_4rows))
      = cols table_4rows /\
    dtypes (snd (set_element "_rlnClassNumber" (-1) (VStr "12") table_4rows))
      = dtypes table_4rows /\
    star_inv (snd (set_element "_rlnClassNumber" (-1) (VStr "12") table_4rows)).
Proof.
  split.
  - apply (set_element_then_get "myScore" 0 (VInt 1) table_112_bypass).
    by vm_compute.
  - apply (set_element_then_get "_rlnClassNumber" (-1) (VStr "12") table_4rows).
    + apply table_4rows_inv.
    + by vm_compute.
Defined.

(** X8. [find_element] gives the first row that holds the value. When it
    returns [i], [get_element] at row [i] gives a cell equal to the value
    and no row before [i] holds an equal cell; when it raises, the error is
    a ValueError and no cell of the column is equal to the value. *)
Theorem find_element_first key val s l :
  data s !! key = Some l ->
  match find_element key val s with
  | Ret i =>
      exists x, get_element key (Z.of_nat i) s = Ret x /\ py_eq x val = true /\
        forall j y, (j < i)%nat -> l !! j = Some y -> py_eq y val = false
  | Raise e => e = ValueError /\ Forall (fun y => py_eq y val = false) l
  end.
Proof.
  intros Hl. unfold find_element, data_at. rewrite Hl. simpl.
  assert (forall (m : list value) i0 i,
            index_from py_eq m val i0 = Some i ->
            (i0 <= i)%nat /\
            exists x, m !! (i - i0)%nat = Some x /\ py_eq x val = true /\
              forall j y, (j < i - i0)%nat -> m !! j = Some y -> py_eq y val = false)
    as Hsome.
  { induction m as [|y m IH]; intros i0 i; simpl; [done|].
    destruct (py_eq y val) eqn:E.
    - intros [= <-]. split; [lia|]. rewrite Nat.sub_diag. exists y.
      split; [done|]. split; [done|]. intros j ? ?. lia.
    - intros H. apply IH in H as (Hle & x & Hx & Hxe & Hbefore).
      split; [lia|]. exists x.
      replace (i - i0)%nat with (S (i - S i0)) by lia.
      split; [done|]. split; [done|].
      intros [|j] y' Hj; simpl.
      + by intros [= <-].
      + apply Hbefore. lia. }
  assert (forall (m : list value) i0,
            index_from py_eq m val i0 = None <->
            Forall (fun y => py_eq y val = false) m) as Hnone.
  { induction m as [|y m IH]; intros i0; simpl.
    - split; [constructor|done].
    - destruct (py_eq y val) eqn:E.
      + split; [done|]. intros H. apply Forall_cons in H as [H _]. congruence.
      + rewrite IH. split; [by constructor|]. by intros [_ ?]%Forall_cons. }
  unfold value_index.
  destruct (index_from py_eq l val 0) as [i|] eqn:E; simpl.
  - apply Hsome in E as (_ & x & Hx & Hxe & Hbefore).
    rewrite Nat.sub_0_r in *. exists x. split; [|done].
    by apply (get_element_nat key i s l).
  - split; [done|]. by apply (Hnone l 0%nat).
Qed.

Lemma find_element_first_witness :
  match find_element "_rlnClassNumber" (VInt 2) table_4rows with
  | Ret i =>
      exists x, get_element "_rlnClassNumber" (Z.of_nat i) table_4rows = Ret x /\
        py_eq x (VInt 2) = true /\
        forall j y, (j < i)%nat -> [VInt 1; VInt 1; VInt 2; VInt 2] !! j = Some y ->
          py_eq y (VInt 2) = false
  | Raise e =>
      e = ValueError /\
      Forall (fun y => py_eq y (VInt 2) = false) [VInt 1; VInt 1; VInt 2; VInt 2]
  end.
Proof.
  apply (find_element_first "_rlnClassNumber" (VInt 2) table_4rows).
  by vm_compute.
Defined.

(** ** [count_elements], [check_comparable] *)

Lemma row_is_hit_spec pairs r s :
  star_inv s -> (r < rows s)%nat ->
  row_is_hit pairs (Z.of_nat r) s = Ret (forallb (cell_matches s r) pairs).
Proof.
  intros (_ & _ & _ & Hlen) Hr.
  induction pairs as [|[pkey pval] pairs IH]; [done|].
  cbn [row_is_hit forallb]. unfold cell_matches at 1, cell_at. simpl.
  destruct (data s !! pkey) as [l|] eqn:Hl; simpl.
  - destruct (lookup_lt_is_Some_2 l r) as [x Hx]; [by rewrite (Hlen _ _ Hl)|].
    rewrite (get_element_nat _ _ _ _ _ Hl Hx), Hx.
    destruct (py_eq x pval); simpl; [exact IH|done].
  - unfold get_element, data_at. by rewrite Hl.
Qed.

Lemma count_loop_spec pairs s rows_ count :
  star_inv s -> Forall (fun r => (r < rows s)%nat) rows_ ->
  count_loop pairs rows_ s count =
    Ret (count + Z.of_nat (length (filter (fun r => forallb (cell_matches s r) pairs = true) rows_))).
Proof.
  intros Hinv Hall. revert count.
  induction Hall as [|r rows_ Hr _ IH]; intros count.
  - simpl. f_equal. lia.
  - cbn [count_loop]. rewrite row_is_hit_spec by done. simpl.
    rewrite IH. f_equal.
    destruct (forallb (cell_matches s r) pairs) eqn:E.
    + rewrite filter_cons_True by done. simpl. lia.
    + rewrite filter_cons_False; [done|]. by rewrite E.
Qed.

(** X9. On a table with the invariants [count_elements] never raises and
    returns the number of rows in which, for every pair, the column of the
    pair exists and holds a cell equal to the value of the pair. The count
    is between 0 and the number of rows; with no pair it is the number of
    rows, and one more pair never makes it larger. *)
Theorem count_elements_spec pairs s :
  star_inv s ->
  count_elements pairs s = Ret (Z.of_nat (length (matching_rows s pairs))) /\
  (length (matching_rows s pairs) <= rows s)%nat /\
  matching_rows s [] = seq 0 (rows s) /\
  forall kv, matching_rows s (kv :: pairs) ⊆ matching_rows s pairs.
Proof.
  intros Hinv. split; [|split; [|split]].
  - unfold count_elements, get_nrows. rewrite count_loop_spec; [done|done|].
    apply Forall_forall. intros r Hr%elem_of_seq. lia.
  - unfold matching_rows.
    etrans; [apply length_filter|]. by rewrite length_seq.
  - unfold matching_rows. simpl.
    induction (seq 0 (rows s)) as [|r l IH]; [done|].
    rewrite filter_cons_True by done. by rewrite IH.
  - intros kv r. unfold matching_rows. rewrite !list_elem_of_filter. simpl.
    intros [[_ H]%andb_true_iff ?]. done.
Qed.

Lemma count_elements_spec_witness :
  count_elements [("_rlnClassNumber", VFloat (S754_finite false 1 1));
                  ("_rlnImageName", VStr "p3.mrc")] table_4rows
    = Ret (Z.of_nat (length (matching_rows table_4rows
             [("_rlnClassNumber", VFloat (S754_finite false 1 1));
              ("_rlnImageName", VStr "p3.mrc")]))) /\
  (length (matching_rows table_4rows
             [("_rlnClassNumber", VFloat (S754_finite false 1 1));
              ("_rlnImageName", VStr "p3.mrc")]) <= rows table_4rows)%nat /\
  matching_rows table_4rows [] = seq 0 (rows table_4rows) /\
  forall kv,
    matching_rows table_4rows
      (kv :: [("_rlnClassNumber", VFloat (S754_finite false 1 1));
              ("_rlnImageName", VStr "p3.mrc")])
    ⊆ matching_rows table_4rows
        [("_rlnClassNumber", VFloat (S754_finite false 1 1));
         ("_rlnImageName", VStr "p3.mrc")].
Proof.
  apply (count_elements_spec _ table_4rows). apply table_4rows_inv.
Defined.

Lemma names_agree_spec s t (a b : list string) rows_ :
  data s !! "_rlnImageName" = Some (VStr <$> a) ->
  data t !! "_rlnImageName" = Some (VStr <$> b) ->
  Forall (fun r => (r < length a)%nat /\ (r < length b)%nat) rows_ ->
  names_agree rows_ s t = Ret (forallb (fun r => bool_decide (a !! r = b !! r)) rows_).
Proof.
  intros Ha Hb Hall. induction Hall as [|r rows_ [Hra Hrb] _ IH]; [done|].
  destruct (lookup_lt_is_Some_2 a r Hra) as [x Hx].
  destruct (lookup_lt_is_Some_2 b r Hrb) as [y Hy].
  cbn [names_agree forallb].
  rewrite (get_element_nat _ r s _ (VStr x) Ha) by (by rewrite list_lookup_fmap, Hx).
  rewrite (get_element_nat _ r t _ (VStr y) Hb) by (by rewrite list_lookup_fmap, Hy).
  simpl. rewrite Hx, Hy.
  destruct (String.eqb x y) eqn:E; simpl.
  - apply String.eqb_eq in E as ->. by rewrite bool_decide_eq_true_2.
  - apply String.eqb_neq in E. rewrite bool_decide_eq_false_2; [done|congruence].
Qed.

(** X10. [check_comparable]. Tables with different numbers of rows are not
    comparable, and nothing else is looked at. For two tables with the
    invariants whose image names are texts the answer is [True] exactly
    when the two lists of image names are the same list. With equal,
    non-zero numbers of rows and no image-name column in the first table
    the call raises a KeyError. *)
Theorem check_comparable_spec s t :
  (rows s <> rows t -> check_comparable s t = Ret false) /\
  (forall a b,
     star_inv s -> star_inv t ->
     data s !! "_rlnImageName" = Some (VStr <$> a) ->
     data t !! "_rlnImageName" = Some (VStr <$> b) ->
     check_comparable s t = Ret (bool_decide (a = b))) /\
  (rows s = rows t -> (0 < rows s)%nat -> data s !! "_rlnImageName" = None ->
   check_comparable s t = Raise KeyError).
Proof.
  unfold check_comparable, get_nrows. split; [|split].
  - intros Hne. by rewrite bool_decide_eq_false_2.
  - intros a b (_ & _ & _ & Hls) (_ & _ & _ & Hlt) Ha Hb.
    pose proof (Hls _ _ Ha) as Hla. pose proof (Hlt _ _ Hb) as Hlb.
    rewrite length_fmap in Hla, Hlb.
    case_bool_decide as Hrows; simpl.
    + rewrite (names_agree_spec s t a b) by
        (try done; apply Forall_forall; intros r Hr%elem_of_seq; lia).
      f_equal. apply eq_iff_eq_true. rewrite bool_decide_eq_true, forallb_forall. split.
      * intros H. apply list_eq_same_length with (rows s); [lia|lia|].
        intros i x y Hi Hx Hy.
        specialize (H i). rewrite bool_decide_eq_true in H.
        assert (a !! i = b !! i) as E.
        { apply H. apply list_elem_of_In, elem_of_seq. lia. }
        congruence.
      * intros -> r _. by apply bool_decide_eq_true.
    + rewrite bool_decide_eq_false_2; [done|]. intros ->. lia.
  - intros Hrows Hpos Hn. rewrite bool_decide_eq_true_2 by done. simpl.
    destruct (rows s) as [|n]; [lia|]. simpl.
    unfold get_element, data_at. by rewrite Hn.
Qed.

Lemma check_comparable_spec_witness :
  check_comparable table_4rows table_112 = Ret false /\
  check_comparable table_112 table_mics
    = Ret (bool_decide (["p0.mrc"; "p1.mrc"; "p2.mrc"] = ["p0.mrc"; "p1.mrc"; "p2.mrc"]))
  /\ check_comparable table_no_column table_no_column = Raise KeyError.
Proof.
  split; [|split].
  - apply (check_comparable_spec table_4rows table_112). by vm_compute.
  - apply (check_comparable_spec table_112 table_mics).
    + apply table_112_inv.
    + apply ops_star_inv; [apply star_inv_empty|ops_ok|by vm_compute].
    + by vm_compute.
    + by vm_compute.
  - apply (check_comparable_spec table_no_column table_no_column).
    + done.
    + vm_compute. lia.
    + by vm_compute.
Defined.

(** ** [copy_data_columns] *)

Lemma call_dtype_typed_id d v : value_has_type d v -> call_dtype d v = Ret v.
Proof. by destruct d, v. Qed.

Lemma cast_all_typed_id d l :
  Forall (value_has_type d) l -> cast_all d l = Ret l.
Proof.
  induction 1 as [|v l Hv _ IH]; [done|].
  cbn [cast_all]. by rewrite call_dtype_typed_id, IH.
Qed.

Lemma typed_column s key l :
  star_typed s -> key ∈ cols s -> data s !! key = Some l ->
  Forall (value_has_type (column_dtype key)) l.
Proof.
  intros Hty [i Hi]%list_elem_of_lookup_1 Hl.
  destruct (Hty i key Hi) as [_ H]. by apply H.
Qed.

(** X11. [copy_data_columns] without a function. When the input key is no
    column the call raises its input error and the table is unchanged. On
    a table with the invariants and typed cells, copying a column to a
    valid key of the same type returns; afterwards both keys give the same
    cells, the cells of the input column, the number of rows is as it was
    and the invariants and the typing hold again. *)
Theorem copy_data_columns_spec key_in key_out s :
  (key_in ∉ cols s ->
   forall func,
     copy_data_columns key_in key_out func s =
       (Raise (PySegInputError "self (Star)"
                 ("Input column with " +:+ key_in +:+ " does not exist")), s)) /\
  (star_inv s -> star_typed s -> key_in ∈ cols s ->
   is_valid key_out = true -> column_dtype key_out = column_dtype key_in ->
   exists s' l,
     copy_data_columns key_in key_out None s = (Ret tt, s') /\
     get_column_data key_in s = Ret (Some l) /\
     get_column_data key_out s' = Ret (Some l) /\
     get_column_data key_in s' = Ret (Some l) /\
     rows s' = rows s /\ star_inv s' /\ star_typed s').
Proof.
  split.
  - intros Hnot func. unfold copy_data_columns.
    by rewrite get_column_data_None.
  - intros Hinv Hty Hin Hvalid Hsame.
    pose proof Hinv as (Hnd & Hlen & Hdom & Hrows).
    destruct (proj1 (Hdom key_in) Hin) as [l Hl].
    pose proof (get_column_data_Some _ _ _ Hin Hl) as Hget.
    destruct (add_column key_out (OSeq l) false s) as [r s'] eqn:Hadd.
    assert (fill_row (column_dtype key_out) (OSeq l) (rows s) = Ret l) as Hfill.
    { unfold fill_row. rewrite bool_decide_eq_true_2 by by apply (Hrows key_in).
      simpl. apply cast_all_typed_id. rewrite Hsame. by eapply typed_column. }
    assert (r = Ret tt) as ->.
    { revert Hadd. unfold add_column. rewrite Hvalid, Hfill. simpl.
      destruct (str_index (cols s) key_out) as [idx|] eqn:Hidx; [|by intros [= <- _]].
      apply str_index_lt in Hidx.
      rewrite bool_decide_eq_true_2; [by intros [= <- _]|]. simpl. lia. }
    exists s', l. unfold copy_data_columns. rewrite Hget.
    split; [done|]. split; [done|].
    destruct (add_column_Ret _ _ _ _ _ Hinv Hadd) as (row & Hrow & Hs').
    assert (row = l) as -> by congruence.
    assert (data s' = <[key_out := l]> (data s) /\ rows s' = rows s /\
            forall k, k ∈ cols s -> k ∈ cols s') as (Hd & Hr & Hc).
    { destruct (str_index (cols s) key_out); subst s'; simpl;
        (split; [done|split; [done|]]); [done|].
      intros k Hk. apply elem_of_app. by left. }
    pose proof (add_column_inv _ _ _ _ _ Hinv Hadd) as Hinv'.
    pose proof Hinv' as (_ & _ & Hdom' & _).
    split; [|split; [|split; [done|split; [done|exact (add_column_typed _ _ _ _ _ Hinv Hty Hadd)]]]].
    + apply get_column_data_Some; [|by rewrite Hd, lookup_insert_eq].
      apply Hdom'. rewrite Hd, lookup_insert_eq. eauto.
    + apply get_column_data_Some; [by apply Hc|]. rewrite Hd.
      destruct (decide (key_in = key_out)) as [->|Hne].
      * by rewrite lookup_insert_eq.
      * by rewrite lookup_insert_ne.
Qed.

Lemma copy_data_columns_spec_witness :
  (forall func,
     copy_data_columns "_rlnCtfImage" "_rlnImageName" func table_4rows =
       (Raise (PySegInputError "self (Star)"
                 ("Input column with " +:+ "_rlnCtfImage" +:+ " does not exist")),
        table_4rows)) /\
  exists s' l,
    copy_data_columns "_rlnImageName" "_rlnCtfImage" None table_4rows = (Ret tt, s') /\
    get_column_data "_rlnImageName" table_4rows = Ret (Some l) /\
    get_column_data "_rlnCtfImage" s' = Ret (Some l) /\
    get_column_data "_rlnImageName" s' = Ret (Some l) /\
    rows s' = rows table_4rows /\ star_inv s' /\ star_typed s'.
Proof.
  split.
  - apply (copy_data_columns_spec "_rlnCtfImage" "_rlnImageName" table_4rows).
    apply (bool_decide_eq_false_1 (_ ∈ _)). by vm_compute.
  - apply (copy_data_columns_spec "_rlnImageName" "_rlnCtfImage" table_4rows).
    + apply table_4rows_inv.
    + apply ops_star_typed;
        [apply star_inv_init|apply (star_typed_empty 0)|ops_ok|by vm_compute].
    + apply (bool_decide_eq_true_1 (_ ∈ _)). by vm_compute.
    + done.
    + done.
Defined.

(** ** [get_subset], [gen_random_subset] *)

Lemma norm_index_of_nat n j : (j < n)%nat -> norm_index n (Z.of_nat j) = Some j.
Proof.
  intros H. unfold norm_index.
  destruct (0 <=? Z.of_nat j) eqn:E1; [|lia].
  destruct (Z.of_nat j <? Z.of_nat n) eqn:E2; [|lia].
  simpl. by rewrite Nat2Z.id.
Qed.

Lemma get_element_norm key idx j s :
  star_inv s -> norm_index (rows s) idx = Some j ->
  get_element key idx s = get_element key (Z.of_nat j) s.
Proof.
  intros (_ & _ & _ & Hlen) Hj. unfold get_element, data_at.
  destruct (data s !! key) as [l|] eqn:Hl; [|done]. simpl.
  rewrite !getitem_norm, (Hlen _ _ Hl), Hj.
  rewrite norm_index_of_nat; [done|]. by eapply norm_index_lt.
Qed.

Lemma row_kwargs_norm keys idx j s acc :
  star_inv s -> norm_index (rows s) idx = Some j ->
  row_kwargs keys idx s acc = row_kwargs keys (Z.of_nat j) s acc.
Proof.
  intros Hinv Hj. revert acc. induction keys as [|key keys IH]; intros acc; [done|].
  cbn [row_kwargs]. rewrite (get_element_norm key idx j) by done.
  destruct (get_element key (Z.of_nat j) s); [|done]. simpl. apply IH.
Qed.

Lemma get_subset_loop {O : PyOrders} {OK : PyOrdersOk O} s idxs picked0 picked :
  star_inv s -> star_typed s ->
  Forall2 (fun idx j => norm_index (rows s) idx = Some j) idxs picked ->
  for_each idxs
    (fun idx =>
       keys ← gets get_column_keys;
       kwargs ← read (fun _ => row_kwargs keys idx s ∅);
       add_row (dict_items kwargs)) (sub_star s picked0)
  = (Ret tt, sub_star s (picked0 ++ picked)).
Proof.
  intros Hinv Hty Hall. revert picked0.
  induction Hall as [|idx j idxs picked Hj _ IH]; intros picked0.
  - by rewrite app_nil_r.
  - rewrite for_each_cons. unfold mbind at 1, M_bind.
    destruct (sub_star_add_row s picked0 j Hinv Hty) as (kw & Hkw & Hadd).
    { by eapply norm_index_lt. }
    unfold mbind at 1, M_bind, gets, get_column_keys.
    change (cols (sub_star s picked0)) with (cols s).
    unfold mbind at 1, M_bind, read.
    rewrite (row_kwargs_norm _ idx j) by done. rewrite Hkw, Hadd.
    rewrite IH. by rewrite <- app_assoc.
Qed.

Lemma get_subset_bad_index {O : PyOrders} {OK : PyOrdersOk O} s idxs picked0 :
  star_inv s -> star_typed s -> cols s <> [] ->
  Exists (fun idx => norm_index (rows s) idx = None) idxs ->
  exists t,
    for_each idxs
      (fun idx =>
         keys ← gets get_column_keys;
         kwargs ← read (fun _ => row_kwargs keys idx s ∅);
         add_row (dict_items kwargs)) (sub_star s picked0)
    = (Raise IndexError, t).
Proof.
  intros Hinv Hty Hne Hex. revert picked0.
  induction idxs as [|idx idxs IH]; intros picked0; [by apply Exists_nil in Hex|].
  rewrite for_each_cons. unfold mbind at 1, M_bind.
  unfold mbind at 1, M_bind, gets, get_column_keys.
  change (cols (sub_star s picked0)) with (cols s).
  unfold mbind at 1, M_bind, read.
  destruct (norm_index (rows s) idx) as [j|] eqn:Hj.
  - destruct (sub_star_add_row s picked0 j Hinv Hty) as (kw & Hkw & Hadd).
    { by eapply norm_index_lt. }
    rewrite (row_kwargs_norm _ idx j) by done. rewrite Hkw, Hadd.
    apply IH. apply Exists_cons in Hex as [Hex|Hex]; [congruence|done].
  - destruct (cols s) as [|key keys] eqn:Hc; [done|].
    cbn [row_kwargs].
    assert (get_element key idx s = Raise IndexError) as ->; [|by eexists].
    pose proof Hinv as (_ & _ & Hdom & Hlen).
    destruct (proj1 (Hdom key)) as [l Hl]; [rewrite Hc; left|].
    unfold get_element, data_at. rewrite Hl. simpl.
    by rewrite getitem_norm, (Hlen _ _ Hl), Hj.
Qed.

(** X12. [get_subset] on a table with the invariants, typed cells and
    columns of the registry. Given indices that are all within
    [-rows, rows), it returns a new table with the same columns and types
    and one row for each index, in the order of the indices: row [k] of
    the result is the row of the original that the [k]-th index names
    (a negative index counting from the end), so a row named twice is
    there twice. The result has the invariants. If some index is outside
    the range and the table has a column, the call raises an IndexError. *)
Theorem get_subset_spec {O : PyOrders} {OK : PyOrdersOk O} s idxs :
  star_inv s -> star_typed s ->
  (forall key, key ∈ cols s -> is_valid key = true) ->
  (forall picked,
     Forall2 (fun idx j => norm_index (rows s) idx = Some j) idxs picked ->
     get_subset s idxs = Ret (sub_star s picked) /\
     star_inv (sub_star s picked) /\
     forall key l, data s !! key = Some l ->
       data (sub_star s picked) !! key = Some ((fun j => l !!! j) <$> picked)) /\
  (cols s <> [] -> Exists (fun idx => norm_index (rows s) idx = None) idxs ->
   get_subset s idxs = Raise IndexError).
Proof.
  intros Hinv Hty Hvalid.
  destruct (add_columns_fresh [] (cols s) Star_init fresh_star_init)
    as (t & Hcols & Hfresh); [apply Hinv|done|].
  simpl in Hfresh. apply fresh_star_is_sub_star in Hfresh; [|done..]. subst t.
  split.
  - intros picked Hall. split; [|split].
    + unfold get_subset.
      change (get_column_keys s) with (cols s).
      unfold mbind at 1, M_bind at 1. rewrite Hcols.
      by rewrite (get_subset_loop s idxs [] picked).
    + by apply sub_star_inv.
    + intros key l Hl. simpl. by rewrite lookup_fmap, Hl.
  - intros Hne Hex. unfold get_subset.
    change (get_column_keys s) with (cols s).
    unfold mbind at 1, M_bind at 1. rewrite Hcols.
    destruct (get_subset_bad_index s idxs [] Hinv Hty Hne Hex) as [t ->]. done.
Qed.

Lemma get_subset_spec_witness :
  (get_subset (O := orders_simple) table_4rows [-1; 0; 3] = Ret (sub_star table_4rows [3; 0; 3])%nat /\
   star_inv (sub_star table_4rows [3; 0; 3]%nat) /\
   forall key l, data table_4rows !! key = Some l ->
     data (sub_star table_4rows [3; 0; 3]%nat) !! key
     = Some ((fun j => l !!! j) <$> [3; 0; 3]%nat)) /\
  get_subset (O := orders_simple) table_4rows [1; 4] = Raise IndexError.
Proof.
  assert (star_typed table_4rows) as Hty.
  { apply ops_star_typed;
      [apply star_inv_init|apply (star_typed_empty 0)|ops_ok|by vm_compute]. }
  assert (forall key, key ∈ cols table_4rows -> is_valid key = true) as Hvalid.
  { change (cols table_4rows) with ["_rlnImageName"; "_rlnClassNumber"]. intros key Hk.
    repeat (apply elem_of_cons in Hk as [->|Hk]; [done|]).
    by apply elem_of_nil in Hk. }
  split.
  - apply (get_subset_spec (OK := orders_simple_ok) table_4rows [-1; 0; 3]
             table_4rows_inv Hty Hvalid).
    repeat constructor.
  - apply (get_subset_spec (OK := orders_simple_ok) table_4rows [1; 4]
             table_4rows_inv Hty Hvalid).
    + done.
    + apply Exists_cons. right. apply Exists_cons. by left.
Defined.

Lemma filter_ext_elem {A} (P Q : A -> Prop)
    `{!forall x, Decision (P x)} `{!forall x, Decision (Q x)} (l : list A) :
  (forall x, x ∈ l -> (P x <-> Q x)) -> filter P l = filter Q l.
Proof.
  induction l as [|x l IH]; intros Hl; [done|].
  assert (filter P l = filter Q l) as E.
  { apply IH. intros y Hy. apply Hl. by right. }
  assert (P x <-> Q x) as Hx by (apply Hl; left).
  destruct (decide (P x)) as [Hp|Hp].
  - rewrite !filter_cons_True by tauto. by rewrite E.
  - rewrite !filter_cons_False by tauto. done.
Qed.

Lemma filter_all {A} (P : A -> Prop) `{!forall x, Decision (P x)} (l : list A) :
  (forall x, x ∈ l -> P x) -> filter P l = l.
Proof.
  induction l as [|x l IH]; intros Hl; [done|].
  rewrite filter_cons_True by (apply Hl; left).
  rewrite IH; [done|]. intros y Hy. apply Hl. by right.
Qed.

(** One [del_column] of a column or of another key, as the loop of
    [get_relion_parsed_copy] sees it. *)
Lemma del_column_step key s :
  star_inv s ->
  exists s',
    del_column key s = (Ret tt, s') /\ star_inv s' /\
    cols s' = filter (fun k => k <> key) (cols s) /\
    rows s' = rows s /\ header_1 s' = header_1 s /\
    forall k, k <> key ->
      data s' !! k = data s !! k /\ get_column_type k s' = get_column_type k s.
Proof.
  intros Hinv. pose proof Hinv as (Hnd & Hty & Hdom & Hlen).
  destruct (del_column_Ret key s Hinv) as (s' & E & Hs').
  exists s'. split; [done|].
  split; [by eapply del_column_inv|].
  destruct Hs' as [[Hnot ->]|(idx & Hidx & ->)].
  - split; [by rewrite filter_ne_id|]. done.
  - simpl. split; [by apply delete_filter_NoDup|]. split; [done|]. split; [done|].
    intros k Hne. split; [by rewrite lookup_delete_ne|].
    unfold get_column_type. simpl.
    rewrite (str_index_delete _ idx key) by done.
    destruct (str_index (cols s) k) as [j|] eqn:Hj; simpl; [|done].
    assert (j <> idx) as Hji.
    { intros ->. apply str_index_Some in Hj as [Hj _]. congruence. }
    destruct (decide (j < idx)%nat).
    + by rewrite list_lookup_delete_lt.
    + rewrite list_lookup_delete_ge by lia. f_equal. f_equal. f_equal. lia.
Qed.

(** The loop of [get_relion_parsed_copy] over any list of keys: the keys
    of the list that are not compatible are no columns afterwards, all else
    is as it was. *)
Lemma relion_parse_loop keys s :
  star_inv s ->
  exists t,
    for_each keys
      (fun key => if negb (is_relion_compatible key) then del_column key else mret tt) s
      = (Ret tt, t) /\
    star_inv t /\
    cols t = filter (fun k => k ∉ keys \/ is_relion_compatible k = true) (cols s) /\
    rows t = rows s /\ header_1 t = header_1 s /\
    forall k, k ∉ keys \/ is_relion_compatible k = true ->
      data t !! k = data s !! k /\ get_column_type k t = get_column_type k s.
Proof.
  revert s. induction keys as [|key keys IH]; intros s Hinv.
  - exists s. split; [done|]. split; [done|].
    split; [|done]. rewrite filter_all; [done|].
    intros x _. left. apply not_elem_of_nil.
  - rewrite for_each_cons. unfold mbind, M_bind.
    destruct (is_relion_compatible key) eqn:Ec; cbn [negb].
    + destruct (IH s Hinv) as (t & E & Hinv' & Hcols & Hrows & Hh & Hdata).
      exists t. split; [exact E|]. split; [done|]. split; [|split; [done|split; [done|]]].
      * rewrite Hcols. apply filter_ext_elem. intros k _.
        rewrite not_elem_of_cons. split; [|tauto].
        intros [Hk|Hk]; [|by right].
        destruct (decide (k = key)) as [->|Hne]; [by right|by left].
      * intros k [Hk|Hk]; apply Hdata; [|by right].
        apply not_elem_of_cons in Hk. left. tauto.
    + destruct (del_column_step key s Hinv)
        as (s1 & E1 & Hinv1 & Hcols1 & Hrows1 & Hh1 & Hdata1). rewrite E1.
      destruct (IH s1 Hinv1) as (t & E & Hinv' & Hcols & Hrows & Hh & Hdata).
      exists t. split; [exact E|]. split; [done|].
      assert (forall k, k ∉ key :: keys \/ is_relion_compatible k = true ->
                (k ∉ keys \/ is_relion_compatible k = true) /\ k <> key) as Hstep.
      { intros k [Hk|Hk].
        - apply not_elem_of_cons in Hk. tauto.
        - split; [by right|]. intros ->. congruence. }
      split; [|split; [congruence|split; [congruence|]]].
      * rewrite Hcols, Hcols1, list_filter_filter. apply filter_ext_elem.
        intros k _. split; [|apply Hstep].
        intros [[Hk|Hk] Hne]; [left|by right].
        apply not_elem_of_cons. tauto.
      * intros k Hk. apply Hstep in Hk as [Hk Hne].
        destruct (Hdata k Hk) as [-> ->]. by apply Hdata1.
Qed.

(** X13. [gen_random_subset] for an integer [n]; the draw of the random
    indices is a parameter. With [n <= 0] it raises its input error. With
    [n] at least the number of rows it returns a copy of the table when
    [parse] is [False], and when [parse] is [True], on a table with the
    invariants, the copy [get_relion_parsed_copy] makes: its columns are
    the Relion-compatible columns of the table, in their order and with
    their cells and types, no other column has cells, the rows and the
    preamble are those of the table and the invariants hold.
    Otherwise, on a table with the invariants, typed cells and columns of
    the registry, for a draw of [n] indices within [0, rows), it returns a
    table of exactly [n] rows, each the row of the original that the draw
    names, with the invariants. *)
Theorem gen_random_subset_spec {O : PyOrders} {OK : PyOrdersOk O} n parse rnd_idx s :
  (n <= 0 ->
   gen_random_subset n parse rnd_idx s =
     Raise (PySegInputError "gen_random_subset (Star)"
              "Input number of particles must be greater than zero!")) /\
  (0 < n -> Z.of_nat (rows s) <= n ->
   gen_random_subset n false rnd_idx s = Ret s /\
   (star_inv s ->
    exists t,
      gen_random_subset n true rnd_idx s = Ret t /\
      star_inv t /\ rows t = rows s /\ header_1 t = header_1 s /\
      cols t = filter (fun key => is_relion_compatible key = true) (cols s) /\
      (forall key, data t !! key
                   = if is_relion_compatible key then data s !! key else None) /\
      (forall key, is_relion_compatible key = true ->
         get_column_type key t = get_column_type key s))) /\
  (0 < n < Z.of_nat (rows s) ->
   star_inv s -> star_typed s ->
   (forall key, key ∈ cols s -> is_valid key = true) ->
   length rnd_idx = Z.to_nat n ->
   Forall (fun i => 0 <= i < Z.of_nat (rows s)) rnd_idx ->
   gen_random_subset n parse rnd_idx s = Ret (sub_star s (Z.to_nat <$> rnd_idx)) /\
   rows (sub_star s (Z.to_nat <$> rnd_idx)) = Z.to_nat n /\
   star_inv (sub_star s (Z.to_nat <$> rnd_idx)) /\
   forall key l, data s !! key = Some l ->
     data (sub_star s (Z.to_nat <$> rnd_idx)) !! key
     = Some ((fun i => l !!! Z.to_nat i) <$> rnd_idx)).
Proof.
  unfold gen_random_subset, get_nrows. split; [|split].
  - intros Hn. destruct (n <=? 0) eqn:E; [done|lia].
  - intros Hn Hrows.
    destruct (n <=? 0) eqn:E; [lia|].
    destruct (Z.of_nat (rows s) <=? n) eqn:E2; [|lia].
    split; [done|]. intros Hinv. unfold get_relion_parsed_copy.
    change (get_column_keys s) with (cols s).
    destruct (relion_parse_loop (cols s) s Hinv)
      as (t & -> & Hinv' & Hcols & Hrows' & Hh & Hdata).
    assert (cols t = filter (fun key => is_relion_compatible key = true) (cols s))
      as Hcols'.
    { rewrite Hcols. apply filter_ext_elem. intros k Hk. tauto. }
    exists t. split; [done|]. split; [done|]. split; [done|]. split; [done|].
    split; [done|]. split.
    + intros key. destruct (is_relion_compatible key) eqn:Ec.
      * apply Hdata. by right.
      * destruct (data t !! key) as [l|] eqn:El; [|done]. exfalso.
        assert (key ∈ cols t) as Hk by (apply Hinv'; eauto).
        rewrite Hcols' in Hk. apply list_elem_of_filter in Hk as [Hk _]. congruence.
    + intros key Ec. apply Hdata. by right.
  - intros Hn Hinv Hty Hvalid Hlen Hall.
    destruct (n <=? 0) eqn:E; [lia|].
    destruct (Z.of_nat (rows s) <=? n) eqn:E2; [lia|].
    assert (Forall2 (fun idx j => norm_index (rows s) idx = Some j)
              rnd_idx (Z.to_nat <$> rnd_idx)) as Hnorm.
    { apply Forall2_fmap_r, Forall_Forall2_diag.
      eapply Forall_impl; [exact Hall|]. intros i Hi. simpl in Hi.
      pose proof (norm_index_of_nat (rows s) (Z.to_nat i)) as H.
      rewrite Z2Nat.id in H by lia. apply H. lia. }
    destruct (add_columns_fresh [] (cols s) Star_init fresh_star_init)
      as (t & Hcols & Hfresh); [apply Hinv|done|].
    simpl in Hfresh. apply fresh_star_is_sub_star in Hfresh; [|done..]. subst t.
    split; [|split; [|split]].
    + unfold get_subset. change (get_column_keys s) with (cols s).
      unfold mbind at 1, M_bind at 1. rewrite Hcols.
      by rewrite (get_subset_loop s rnd_idx [] (Z.to_nat <$> rnd_idx)).
    + simpl. by rewrite length_fmap.
    + by apply sub_star_inv.
    + intros key l Hl. simpl. rewrite lookup_fmap, Hl. simpl.
      by rewrite <- list_fmap_compose.
Qed.

Lemma gen_random_subset_spec_witness :
  gen_random_subset (O := orders_simple) 0 true [] table_4rows =
    Raise (PySegInputError "gen_random_subset (Star)"
             "Input number of particles must be greater than zero!") /\
  (gen_random_subset (O := orders_simple) 4 false [] table_112_bypass
     = Ret table_112_bypass /\
   exists t,
     gen_random_subset (O := orders_simple) 4 true [] table_112_bypass = Ret t /\
     star_inv t /\ rows t = rows table_112_bypass /\
     header_1 t = header_1 table_112_bypass /\
     cols t = filter (fun key => is_relion_compatible key = true)
                (cols table_112_bypass) /\
     (forall key, data t !! key
                  = if is_relion_compatible key
                    then data table_112_bypass !! key else None) /\
     (forall key, is_relion_compatible key = true ->
        get_column_type key t = get_column_type key table_112_bypass)) /\
  (gen_random_subset (O := orders_simple) 3 false [2; 0; 2] table_4rows
     = Ret (sub_star table_4rows (Z.to_nat <$> [2; 0; 2])) /\
   rows (sub_star table_4rows (Z.to_nat <$> [2; 0; 2])) = Z.to_nat 3 /\
   star_inv (sub_star table_4rows (Z.to_nat <$> [2; 0; 2])) /\
   forall key l, data table_4rows !! key = Some l ->
     data (sub_star table_4rows (Z.to_nat <$> [2; 0; 2])) !! key
     = Some ((fun i => l !!! Z.to_nat i) <$> [2; 0; 2])).
Proof.
  split; [|split].
  - apply (gen_random_subset_spec (OK := orders_simple_ok) 0 true [] table_4rows). lia.
  - assert (star_inv table_112_bypass) as Hinv.
    { unfold table_112_bypass.
      destruct (add_column "myScore" _ true table_112) as [r t] eqn:E.
      assert (r = Ret tt) as -> by (by vm_compute in E; injection E as <- _).
      eapply add_column_inv; [apply table_112_inv|exact E]. }
    destruct (gen_random_subset_spec (OK := orders_simple_ok) 4 true [] table_112_bypass)
      as (_ & H & _).
    destruct H as [H1 H2]; [lia|vm_compute; by intros ?|].
    split; [|by apply H2].
    apply (gen_random_subset_spec (OK := orders_simple_ok) 4 false [] table_112_bypass).
    + lia.
    + vm_compute. by intros ?.
  - apply (gen_random_subset_spec (OK := orders_simple_ok) 3 false [2; 0; 2] table_4rows).
    + vm_compute. split; done.
    + apply table_4rows_inv.
    + apply ops_star_typed;
        [apply star_inv_init|apply (star_typed_empty 0)|ops_ok|by vm_compute].
    + change (cols table_4rows) with ["_rlnImageName"; "_rlnClassNumber"]. intros key Hk.
      repeat (apply elem_of_cons in Hk as [->|Hk]; [done|]).
      by apply elem_of_nil in Hk.
    + done.
    + repeat constructor; lia.
Defined.

(** ** [scale_coords] *)

Lemma np_asarray_float_typed l :
  Forall (value_has_type Dfloat) l ->
  exists a, np_asarray_float l = Ret a /\
    forall fsf, VFloat <$> ((fun x => SFmul prec64 emax64 x fsf) <$> a)
                = scale_cell fsf <$> l.
Proof.
  unfold np_asarray_float. induction 1 as [|v l Hv _ (a & IH & Ha)].
  - by exists [].
  - destruct v as [| |x]; try done. exists (x :: a). cbn [res_map]. rewrite IH.
    split; [done|]. intros fsf. rewrite !fmap_cons, Ha. done.
Qed.

Lemma scale_column_spec key fsf s :
  star_inv s -> star_typed s -> column_dtype key = Dfloat ->
  exists s',
    scale_column key fsf s = (Ret tt, s') /\
    rows s' = rows s /\ cols s' = cols s /\ dtypes s' = dtypes s /\
    header_1 s' = header_1 s /\
    star_inv s' /\ star_typed s' /\
    forall k l, data s !! k = Some l ->
      data s' !! k = Some (if decide (k = key) then scale_cell fsf <$> l else l).
Proof.
  intros Hinv Hty Hdt. pose proof Hinv as (Hnd & Hlen & Hdom & Hrows).
  unfold scale_column.
  destruct (decide (key ∈ cols s)) as [Hin|Hnot].
  - destruct (proj1 (Hdom key) Hin) as [l Hl].
    rewrite (get_column_data_Some _ _ _ Hin Hl).
    pose proof (typed_column _ _ _ Hty Hin Hl) as Htl. rewrite Hdt in Htl.
    destruct (np_asarray_float_typed l Htl) as (a & -> & Ha). rewrite Ha.
    unfold set_column_data. rewrite (proj2 (is_column_true _ _) Hin).
    rewrite bool_decide_eq_true_2
      by (unfold get_nrows; rewrite length_fmap; by apply (Hrows key)).
    simpl. eexists. split; [done|]. simpl.
    split; [done|]. split; [done|]. split; [done|]. split; [done|].
    split; [|split].
    + unfold star_inv; simpl. split; [done|]. split; [done|]. split.
      * intros k. destruct (decide (k = key)) as [->|Hne].
        -- rewrite lookup_insert_eq. split; eauto.
        -- by rewrite lookup_insert_ne.
      * intros k l'. destruct (decide (k = key)) as [->|Hne].
        -- rewrite lookup_insert_eq. intros [= <-]. rewrite length_fmap.
           by apply (Hrows key).
        -- rewrite lookup_insert_ne by done. apply Hrows.
    + intros i k Hi. destruct (Hty i k Hi) as [Hd Hcells]. split; [done|].
      simpl. intros l'. destruct (decide (k = key)) as [->|Hne].
      * rewrite lookup_insert_eq. intros [= <-]. rewrite Hdt.
        apply Forall_fmap. eapply Forall_impl; [exact Htl|].
        by intros [| |x].
      * rewrite lookup_insert_ne by done. apply Hcells.
    + intros k l' Hl'. destruct (decide (k = key)) as [->|Hne].
      * rewrite lookup_insert_eq. congruence.
      * by rewrite lookup_insert_ne.
  - rewrite (get_column_data_None _ _ Hnot). exists s.
    split; [done|]. do 6 (split; [done|]).
    intros k l Hl. destruct (decide (k = key)) as [->|Hne]; [|done].
    exfalso. apply Hnot, Hdom. eauto.
Qed.

Lemma scale_columns_spec keys fsf s :
  star_inv s -> star_typed s -> NoDup keys ->
  Forall (fun key => column_dtype key = Dfloat) keys ->
  exists s',
    for_each keys (fun key => scale_column key fsf) s = (Ret tt, s') /\
    rows s' = rows s /\ cols s' = cols s /\ dtypes s' = dtypes s /\
    header_1 s' = header_1 s /\
    star_inv s' /\ star_typed s' /\
    forall k l, data s !! k = Some l ->
      data s' !! k = Some (if bool_decide (k ∈ keys) then scale_cell fsf <$> l else l).
Proof.
  intros Hinv Hty Hnd Hall. revert s Hinv Hty.
  induction Hall as [|key keys Hdt _ IH]; intros s Hinv Hty.
  - exists s. split; [done|]. do 6 (split; [done|]). intros k l Hl. by rewrite Hl.
  - apply NoDup_cons in Hnd as [Hkey Hnd].
    destruct (scale_column_spec key fsf s Hinv Hty Hdt)
      as (s1 & Hrun1 & Hr1 & Hc1 & Hd1 & Hh1 & Hinv1 & Hty1 & Hdata1).
    destruct (IH Hnd s1 Hinv1 Hty1)
      as (s' & Hrun & Hr & Hc & Hd & Hh & Hinv' & Hty' & Hdata).
    exists s'. rewrite for_each_cons. unfold mbind, M_bind. rewrite Hrun1.
    split; [done|]. split; [congruence|]. split; [congruence|]. split; [congruence|].
    split; [congruence|]. split; [done|]. split; [done|].
    intros k l Hl. rewrite (Hdata k _ (Hdata1 k l Hl)). f_equal.
    destruct (decide (k = key)) as [->|Hne].
    + rewrite bool_decide_eq_false_2 by done.
      rewrite bool_decide_eq_true_2; [done|left].
    + destruct (decide (k ∈ keys)) as [Hk|Hk].
      * rewrite !bool_decide_eq_true_2; [done|by right|done].
      * rewrite !bool_decide_eq_false_2; [done| |done].
        by intros [?|?]%elem_of_cons.
Qed.

(** X14. [scale_coords] on a table with the invariants and typed cells,
    for a factor that [float] accepts: the call returns; the rows, the
    columns, their order and types and the preamble are as they were; in
    each of the six columns of coordinates and origins that the table has,
    every cell is the old cell times the factor (one binary64
    multiplication); every other column is untouched, and a column of the
    six that the table does not have is passed over without an error. The
    invariants and the typing hold again. *)
Theorem scale_coords_spec sf fsf s :
  star_inv s -> star_typed s -> py_float sf = Ret fsf ->
  exists s',
    scale_coords sf s = (Ret tt, s') /\
    rows s' = rows s /\ cols s' = cols s /\ dtypes s' = dtypes s /\
    header_1 s' = header_1 s /\
    star_inv s' /\ star_typed s' /\
    forall k l, data s !! k = Some l ->
      data s' !! k =
        Some (if bool_decide (k ∈ coord_keys) then scale_cell fsf <$> l else l).
Proof.
  intros Hinv Hty Hsf. unfold scale_coords. rewrite Hsf.
  apply scale_columns_spec; [done|done| |].
  - apply NoDup_by_decide. by vm_compute.
  - by repeat constructor.
Qed.

Lemma scale_coords_spec_witness :
  exists s',
    scale_coords (VStr "2.5") table_trip = (Ret tt, s') /\
    rows s' = rows table_trip /\ cols s' = cols table_trip /\
    dtypes s' = dtypes table_trip /\
    header_1 s' = header_1 table_trip /\
    star_inv s' /\ star_typed s' /\
    forall k l, data table_trip !! k = Some l ->
      data s' !! k =
        Some (if bool_decide (k ∈ coord_keys)
              then scale_cell (S754_finite false 5629499534213120 (-51)) <$> l else l).
Proof.
  apply (scale_coords_spec (VStr "2.5") (S754_finite false 5629499534213120 (-51)) table_trip).
  - apply table_trip_inv.
  - apply table_trip_typed.
  - by vm_compute.
Defined.

(** ** [load]: the header it refuses, a table loaded twice *)

Lemma load_header_2_bad fname keys col_lines bad badkey rest s :
  Forall2 column_line keys col_lines ->
  Forall (fun key => is_valid key = true) keys ->
  NoDup (cols s ++ keys) ->
  column_line badkey bad ->
  is_valid badkey = false \/ badkey ∈ cols s ++ keys ->
  load_header_2 fname (col_lines ++ bad :: rest) s
  = (Raise (PySegInputError "load (Star)" (load_header_msg fname)),
     with_columns s keys).
Proof.
  intros Hcl. revert s.
  induction Hcl as [|key line keys col_lines [Hu Hhead] _ IH];
    intros s Hvalid Hnd [Hbu Hbhead] Hbad.
  - simpl. rewrite with_columns_nil.
    destruct bad as [|c bad]; [done|]. simpl in Hbu. rewrite Hbu.
    destruct (split (String c bad)) as [|col toks]; [done|].
    simpl in Hbhead. injection Hbhead as ->.
    unfold mbind at 1, M_bind, gets.
    assert (is_valid badkey && negb (is_column badkey s) = false) as ->; [|done].
    destruct Hbad as [->|Hin]; [done|]. rewrite app_nil_r in Hin.
    rewrite (proj2 (is_column_true badkey s) Hin). by rewrite andb_false_r.
  - apply Forall_cons in Hvalid as [Hv Hvalid].
    simpl. destruct line as [|c line]; [done|]. simpl in Hu. rewrite Hu.
    destruct (split (String c line)) as [|col toks]; [done|].
    simpl in Hhead. injection Hhead as ->.
    assert (key ∉ cols s) as Hk.
    { apply NoDup_app in Hnd as (_ & Hdisj & _). intros Hk.
      apply (Hdisj key Hk). left. }
    unfold mbind at 1, M_bind, gets. rewrite Hv.
    rewrite (proj2 (is_column_false key s) Hk). cbn [andb negb].
    unfold mbind at 1, M_bind, modify.
    change (set_cols (cols s ++ [key])
              (set_dtypes (dtypes s ++ [column_dtype key])
                 (set_data (<[key:=[]]> (data s)) s)))
      with (with_columns s [key]).
    rewrite IH; [by rewrite with_columns_cons|done| |done|].
    + simpl. by rewrite <- app_assoc.
    + simpl. rewrite <- app_assoc. done.
Qed.

(** X15. The header [load] refuses. Take a file with a preamble, then the
    lines of some valid, distinct columns, then a line that starts with an
    underscore and names a key that is not in the registry or that one of
    the lines before it has named already. Loaded into a new table, the
    call raises the input error "Unexpected error parsing star file
    ... header." whatever follows the line. No row is read; the table is
    left with the preamble and the columns read so far. *)
Theorem load_rejects_header (path : string) preamble keys col_lines bad badkey rest :
  Forall preamble_line preamble ->
  Forall2 column_line keys col_lines ->
  Forall (fun key => is_valid key = true) keys ->
  NoDup keys ->
  column_line badkey bad ->
  is_valid badkey = false \/ badkey ∈ keys ->
  exists s',
    load_lines path (preamble ++ col_lines ++ bad :: rest) Star_init
    = (Raise (PySegInputError "load (Star)" (load_header_msg path)), s') /\
    header_1 s' = preamble /\ cols s' = keys /\ rows s' = 0%nat /\
    forall key, key ∈ keys -> data s' !! key = Some [].
Proof.
  intros Hpre Hcl Hvalid Hnd Hbad Hwhy. unfold load_lines.
  unfold mbind at 1, M_bind, modify. unfold mbind at 1, M_bind.
  rewrite load_header_1_spec; [|done|].
  2:{ destruct Hcl as [|key line ? ? [Hu _] _]; [apply Hbad|done]. }
  unfold mbind at 1, M_bind. unfold mbind at 1, M_bind.
  rewrite (load_header_2_bad path keys col_lines bad badkey); [|done..].
  eexists. split; [done|]. simpl.
  split; [done|]. split; [done|]. split; [done|].
  intros key Hkey. rewrite foldl_insert_nil_lookup. by rewrite decide_True.
Qed.

Lemma load_rejects_header_witness :
  exists s',
    load_lines "run1/particles.star"
      (header_1 Star_init ++ ["_rlnImageName #1" +:+ NL] ++
       ("_rlnDefocusU #2" +:+ NL) :: ["p0.mrc 10500.0" +:+ NL])
      Star_init
    = (Raise (PySegInputError "load (Star)" (load_header_msg "run1/particles.star")), s') /\
    header_1 s' = header_1 Star_init /\ cols s' = ["_rlnImageName"] /\
    rows s' = 0%nat /\
    forall key, key ∈ ["_rlnImageName"] -> data s' !! key = Some [].
Proof.
  apply (load_rejects_header "run1/particles.star" (header_1 Star_init)
           ["_rlnImageName"] ["_rlnImageName #1" +:+ NL]
           ("_rlnDefocusU #2" +:+ NL) "_rlnDefocusU").
  - repeat (apply Forall_cons_2; [split; [discriminate|reflexivity]|]).
    apply Forall_nil_2.
  - repeat constructor.
  - repeat constructor.
  - apply NoDup_by_decide. by vm_compute.
  - split; by vm_compute.
  - by left.
Defined.

Lemma zip3_app_extra {A B C} (a : list A) (b extra : list B) (c : list C) :
  length b = length c -> zip3 a (b ++ extra) c = zip3 a b c.
Proof.
  revert b c. induction a as [|x a IH]; intros [|y b] [|z c] Hlen; try done.
  - simpl. by destruct extra.
  - simpl. f_equal. apply IH. by injection Hlen.
Qed.

Lemma zip3_third {A B C} (a : list A) (b : list B) (c : list C) x y z :
  (x, y, z) ∈ zip3 a b c -> z ∈ c.
Proof.
  revert b c. induction a as [|x' a IH]; intros [|y' b] [|z' c] H;
    try by apply elem_of_nil in H.
  simpl in H. apply elem_of_cons in H as [[= -> -> ->]|H]; [left|].
  right. by eapply IH.
Qed.

Lemma load_cell_sim extra r0 item s t r s' :
  loaded_over extra r0 s t -> item.2 ∈ cols s ->
  load_cell item s = (r, s') ->
  exists t', load_cell item t = (r, t') /\ loaded_over extra r0 s' t' /\
             cols s' = cols s /\ dtypes s' = dtypes s.
Proof.
  destruct item as [[d dt] col]. intros (Hh & Hc & Hd & Hr & Hdata) Hcol.
  simpl in Hcol. unfold load_cell.
  destruct (load_cast dt d) as [v|e].
  - rewrite (Hdata col Hcol). destruct (data s !! col) as [l|].
    + intros [= <- <-]. eexists. split; [done|]. split; [|done].
      split; [done|]. split; [done|]. split; [done|]. split; [done|].
      intros key Hkey. simpl. destruct (decide (key = col)) as [->|Hne].
      * by rewrite !lookup_insert_eq.
      * rewrite !lookup_insert_ne by done. by apply Hdata.
    + intros [= <- <-]. eexists. split; [done|]. by split.
  - intros [= <- <-]. eexists. split; [done|]. by split.
Qed.

Lemma for_each_load_cell_sim extra r0 keys items :
  Forall (fun item : string * dtype * string => item.2 ∈ keys) items ->
  forall s t r s',
  loaded_over extra r0 s t -> cols s = keys ->
  for_each items load_cell s = (r, s') ->
  exists t', for_each items load_cell t = (r, t') /\ loaded_over extra r0 s' t' /\
             cols s' = cols s /\ dtypes s' = dtypes s.
Proof.
  induction 1 as [|item items Hitem Hall IH]; intros s t r s' HR Hkeys Hrun.
  - simpl in Hrun. injection Hrun as <- <-. by exists t.
  - revert Hrun. rewrite !for_each_cons. unfold mbind, M_bind.
    destruct (load_cell item s) as [r1 s1] eqn:E1.
    destruct (load_cell_sim extra r0 item s t r1 s1 HR) as (t1 & -> & HR1 & Hc1 & Hd1);
      [by rewrite Hkeys|done|].
    destruct r1 as [[]|e].
    + intros Hrun.
      destruct (IH s1 t1 r s' HR1) as (t' & Ht' & HR' & Hc' & Hd');
        [congruence|exact Hrun|].
      exists t'. split; [done|]. split; [done|]. split; congruence.
    + intros [= <- <-]. exists t1. by split.
Qed.

Lemma load_rows_sim extra r0 lines : forall s t r s',
  loaded_over extra r0 s t -> length (dtypes s) = length (cols s) ->
  load_rows lines s = (r, s') ->
  exists t', load_rows lines t = (r, t') /\ loaded_over extra r0 s' t'.
Proof.
  induction lines as [|line lines IH]; intros s t r s' HR Hlen.
  - simpl. intros [= <- <-]. by exists t.
  - pose proof HR as (Hh & Hc & Hd & Hr & Hdata).
    cbn [load_rows]. unfold get_ncols. rewrite Hc.
    destruct (negb (bool_decide (length (cols s) = length (split line)))).
    + intros [= <- <-]. by exists t.
    + rewrite Hd, zip3_app_extra by done.
      unfold mbind at 1 3, M_bind at 1 3.
      destruct (for_each (zip3 (split line) (dtypes s) (cols s)) load_cell s)
        as [r1 s1] eqn:E1.
      destruct (for_each_load_cell_sim extra r0 (cols s)
                  (zip3 (split line) (dtypes s) (cols s))) with (s := s) (t := t)
                  (r := r1) (s' := s1)
        as (t1 & -> & HR1 & Hc1 & Hd1); [|done|done|done|].
      { apply Forall_forall. intros [[x y] z] Hin. simpl. by eapply zip3_third. }
      destruct r1 as [[]|e]; [|intros [= <- <-]; by exists t1].
      unfold mbind at 1 2, M_bind at 1 2, modify.
      apply IH.
      * destruct HR1 as (Hh1 & Hc1' & Hd1' & Hr1 & Hdata1).
        split; [done|]. split; [done|]. split; [done|].
        split; [simpl; lia|done].
      * simpl. congruence.
Qed.

Lemma res_map_raise {A B} (f : A -> res B) l1 x l2 e :
  (forall y, y ∈ l1 -> exists v, f y = Ret v) -> f x = Raise e ->
  res_map f (l1 ++ x :: l2) = Raise e.
Proof.
  intros Hok Hx. induction l1 as [|y l1 IH]; simpl.
  - by rewrite Hx.
  - destruct (Hok y) as [v ->]; [left|]. simpl.
    rewrite IH; [done|]. intros z Hz. apply Hok. by right.
Qed.

Lemma length_column c (cells : list (list value)) : length (column c cells) = length cells.
Proof. unfold column. by rewrite length_fmap. Qed.

Lemma res_map_length {A B} (f : A -> res B) l r :
  res_map f l = Ret r -> length r = length l.
Proof.
  revert r. induction l as [|x l IH]; intros r; simpl.
  - by intros [= <-].
  - destruct (f x); [|done]. simpl. destruct (res_map f l); [|done]. simpl.
    intros [= <-]. simpl. f_equal. by apply IH.
Qed.

Lemma to_string_short_columns s m :
  cols s <> [] ->
  (forall key, key ∈ cols s -> exists l, data s !! key = Some l /\ length l = m) ->
  (m < rows s)%nat ->
  to_string s = Raise IndexError.
Proof.
  intros Hne Hcols Hm. unfold to_string, get_ncols, get_nrows, get_column_keys.
  rewrite bool_decide_eq_true_2 by (destruct (cols s); [done|simpl; lia]).
  replace (rows s) with (m + S (rows s - S m))%nat by lia.
  rewrite seq_app. cbn [seq Nat.add].
  rewrite (res_map_raise _ _ _ _ IndexError); [done| |].
  - intros r Hr%elem_of_seq. eexists. apply row_line_spec; [done|].
    intros key Hkey. destruct (Hcols key Hkey) as (l & Hl & Hlen).
    exists l. split; [done|]. lia.
  - destruct (cols s) as [|key keys] eqn:Ek; [done|].
    assert (get_element key (Z.of_nat m) s = Raise IndexError) as Hget.
    { destruct (Hcols key) as (l & Hl & Hlen); [left|].
      unfold get_element, data_at. rewrite Hl. simpl.
      rewrite getitem_norm, Hlen. unfold norm_index.
      destruct (0 <=? Z.of_nat m) eqn:E1; [|lia].
      destruct (Z.of_nat m <? Z.of_nat m) eqn:E2; [lia|].
      simpl. destruct (- Z.of_nat m <=? Z.of_nat m) eqn:E3; simpl; [|done].
      destruct (Z.of_nat m <? 0) eqn:E4; [lia|done]. }
    destruct keys; cbn [row_line]; by rewrite Hget.
Qed.

(** X16. [load] on an object that has been loaded before. [load] starts
    the preamble and the list of columns anew, and empties the cells of
    the columns it reads, but it keeps the count of rows and the list of
    types. So after a file [f] and then a file [g] with the same columns
    (both well formed, all tokens casting) the object has the preamble,
    the columns and the cells of [g], yet its count of rows is the rows of
    [f] plus the rows of [g] and its list of types has the types twice.
    The invariants of the data model are broken, and when [f] has a row
    [to_string] raises an IndexError. *)
Theorem load_again_accumulates (path : string) (f g : star_file) cells_f cells :
  star_file_ok f -> star_file_ok g -> sf_keys g = sf_keys f ->
  res_map (cast_row (column_dtype <$> sf_keys f)) (sf_rows f) = Ret cells_f ->
  res_map (cast_row (column_dtype <$> sf_keys g)) (sf_rows g) = Ret cells ->
  exists s1 s2,
    load_lines path (sf_lines f) Star_init = (Ret tt, s1) /\
    load_lines path (sf_lines g) s1 = (Ret tt, s2) /\
    header_1 s2 = sf_preamble g /\
    cols s2 = sf_keys g /\
    (forall c key, sf_keys g !! c = Some key ->
       data s2 !! key = Some (column c cells)) /\
    rows s2 = (length (sf_rows f) + length (sf_rows g))%nat /\
    dtypes s2 = (column_dtype <$> sf_keys g) ++ (column_dtype <$> sf_keys g) /\
    ~ star_inv s2 /\
    (sf_rows f <> [] -> to_string s2 = Raise IndexError).
Proof.
  intros Hf Hg Hkeys Hcf Hcg.
  destruct (load_lines_ok path f cells_f Hf Hcf)
    as (s1 & Hload1 & Hh1 & Hc1 & Hd1 & Hr1 & Hdata1).
  exists s1.
  destruct (load_headers_spec path g Hg) as (v2 & Hhead & Hv2 & Hvh & _ & _).
  pose proof Hg as (Hpre & Hne & Hnd & Hvalid & Hcols & Hrows & Hfirst & Htail).
  destruct (load_rows_ok (sf_keys g) (sf_rows g) (sf_row_lines g) (sf_tail g)
              cells [] v2 Hnd Hv2 Hrows Hcg Htail)
    as (v3 & Hrun & (Hc3 & Hd3 & Hr3 & Hdata3) & Hm3 & _).
  set (u := with_columns
              (set_cols [] (set_header_1 (header_1 (set_header_1 [] s1) ++ sf_preamble g)
                              (set_header_1 [] s1))) (sf_keys g)).
  assert (loaded_over (column_dtype <$> sf_keys g) (length (sf_rows f)) v2 u) as HR.
  { destruct Hv2 as (Hc2 & Hd2 & Hr2 & Hdata2).
    split; [by rewrite Hvh|]. split; [by rewrite Hc2|].
    split; [simpl; by rewrite Hd1, Hd2, Hkeys|].
    split; [simpl; rewrite Hr1, Hr2; simpl; lia|].
    intros key Hkey. rewrite Hc2 in Hkey. simpl.
    rewrite foldl_insert_nil_lookup, decide_True by done.
    apply list_elem_of_lookup_1 in Hkey as [c Hc]. by rewrite (Hdata2 c key Hc). }
  destruct (load_rows_sim _ _ (sf_row_lines g ++ sf_tail g) v2 u (Ret tt) v3 HR)
    as (u' & Hrun' & HR');
    [destruct Hv2 as (-> & -> & _); by rewrite length_fmap|done|].
  destruct HR' as (Hh' & Hc' & Hd' & Hr' & Hdata').
  assert (load_lines path (sf_lines g) s1
          = (Ret tt, set_origin (os_path_split path).1 (os_path_split path).2 u'))
    as Hload2.
  { unfold load_lines, sf_lines.
    unfold mbind at 1, M_bind, modify. unfold mbind at 1, M_bind.
    rewrite load_header_1_spec; [|done|].
    2:{ destruct Hcols as [|key line keys col_lines [Hu _] _]; [done|]. done. }
    unfold mbind at 1, M_bind. unfold mbind at 1, M_bind.
    rewrite (load_header_2_spec path (sf_keys g)); [|done|done|done|done].
    fold u. unfold mbind at 1, M_bind. by rewrite Hrun'. }
  exists (set_origin (os_path_split path).1 (os_path_split path).2 u').
  split; [done|]. split; [exact Hload2|].
  generalize (os_path_split path).1 (os_path_split path).2. intros pd pf.
  assert (forall c key, sf_keys g !! c = Some key ->
            data u' !! key = Some (column c cells)) as Hdata.
  { intros c key Hc. rewrite Hdata'; [by apply Hdata3|].
    rewrite Hc3. by eapply list_elem_of_lookup_2. }
  assert (length cells = length (sf_rows g)) as Hlc by by eapply res_map_length.
  split; [simpl; by rewrite Hh', Hm3|]. split; [simpl; by rewrite Hc'|].
  split; [done|].
  split; [simpl; rewrite Hr', Hr3; simpl; lia|].
  split; [simpl; by rewrite Hd', Hd3|].
  split.
  - intros (_ & Hlen & _). simpl in Hlen.
    rewrite Hd', Hd3, Hc', Hc3, length_app, length_fmap in Hlen.
    destruct (sf_keys g); [done|]. simpl in Hlen. lia.
  - intros Hrf. apply (to_string_short_columns _ (length cells)).
    + simpl. by rewrite Hc', Hc3.
    + simpl. rewrite Hc', Hc3. intros key [c Hc]%list_elem_of_lookup_1.
      exists (column c cells). split; [by apply Hdata|]. apply length_column.
    + simpl. rewrite Hr', Hr3. simpl.
      destruct (sf_rows f); [done|]. simpl. lia.
Qed.

Lemma load_again_accumulates_witness :
  exists s1 s2,
    load_lines "run1/particles.star" (sf_lines file_example) Star_init = (Ret tt, s1) /\
    load_lines "run1/particles.star" (sf_lines file_example) s1 = (Ret tt, s2) /\
    header_1 s2 = sf_preamble file_example /\
    cols s2 = sf_keys file_example /\
    (forall c key, sf_keys file_example !! c = Some key ->
       data s2 !! key = Some (column c [[VInt 1000; VFloat (S754_finite false 8796093022208000 (-43))];
                                         [VInt 3; VFloat (S754_finite false 4503599627370496 (-50))]])) /\
    rows s2 = (length (sf_rows file_example) + length (sf_rows file_example))%nat /\
    dtypes s2 = (column_dtype <$> sf_keys file_example)
                ++ (column_dtype <$> sf_keys file_example) /\
    ~ star_inv s2 /\
    (sf_rows file_example <> [] -> to_string s2 = Raise IndexError).
Proof.
  apply (load_again_accumulates "run1/particles.star" file_example file_example
           [[VInt 1000; VFloat (S754_finite false 8796093022208000 (-43))];
            [VInt 3; VFloat (S754_finite false 4503599627370496 (-50))]]).
  - apply file_example_ok.
  - apply file_example_ok.
  - done.
  - by vm_compute.
  - by vm_compute.
Defined.

(** ** [store] and [load] *)

Lemma load_of_to_string (path : string) (s : Star) :
  star_inv s -> star_typed s -> cols s <> [] ->
  Forall (fun key => is_valid key = true) (cols s) ->
  header_1_ok s -> cells_ok s -> first_cells_ok s ->
  exists text s',
    to_string s = Ret text /\
    load path text Star_init = (Ret tt, s') /\
    header_1 s' = header_1 s /\ cols s' = cols s /\
    dtypes s' = dtypes s /\ rows s' = rows s /\
    forall key, key ∈ cols s -> data s' !! key = data s !! key.
Proof.
  intros Hinv Htyped Hne Hvalid Hhead Hcells Hfirst.
  destruct (load_lines_ok path (file_of s) _
              (file_of_ok s Hinv Htyped Hne Hvalid Hhead Hcells Hfirst)
              (file_of_casts s Hinv Htyped Hcells))
    as (s' & Hload & Hh & Hc & Hd & Hr & Hdata).
  exists (concat_strings (sf_lines (file_of s))), s'.
  split; [by apply to_string_spec|]. split.
  { unfold load. rewrite readlines_concat; [done|]. by apply file_of_proper. }
  split; [done|]. split; [done|].
  split; [by rewrite Hd, (typed_dtypes s)|].
  split; [simpl in Hr; by rewrite Hr, length_fmap, length_seq|].
  intros key [c Hkey]%list_elem_of_lookup_1.
  rewrite (Hdata c key Hkey).
  pose proof Hinv as (_ & _ & Hdom & Hrows).
  destruct (proj1 (Hdom key)) as [l Hl]; [by eapply list_elem_of_lookup_2|].
  rewrite Hl. f_equal. apply (column_row_cells s c key l Hkey Hl (Hrows key l Hl)).
Qed.

(** X17. [store] without sub-volumes ([sv] left at [None]). Asked to
    delete an angle (a positive entry of [del_ang]) it never writes the
    file: it raises a KeyError when the table does not have the angle
    column and an UnboundLocalError when it has, since the row index [i]
    it uses is bound only by the loop of the sub-volume part. With no
    positive entry it writes the text of [to_string]; and for a table
    that can be written as text (the conditions of the round trip),
    [load] of what [store] wrote gives back the preamble, the columns,
    their types, the number of rows and the cells. *)
Theorem store_then_load (path : string) (del_ang : Z * Z * Z) (s : Star) :
  (0 < del_ang.1.1 \/ 0 < del_ang.1.2 \/ 0 < del_ang.2 ->
   store_plain path del_ang s = StoreRaise KeyError \/
   store_plain path del_ang s = UnboundLocal) /\
  (del_ang.1.1 <= 0 -> del_ang.1.2 <= 0 -> del_ang.2 <= 0 ->
   star_inv s -> star_typed s -> cols s <> [] ->
   Forall (fun key => is_valid key = true) (cols s) ->
   header_1_ok s -> cells_ok s -> first_cells_ok s ->
   exists text s',
     store_plain path del_ang s = Written path text /\
     load path text Star_init = (Ret tt, s') /\
     header_1 s' = header_1 s /\ cols s' = cols s /\
     dtypes s' = dtypes s /\ rows s' = rows s /\
     forall key, key ∈ cols s -> data s' !! key = data s !! key).
Proof.
  destruct del_ang as [[a b] c]. unfold store_plain, del_angle. simpl. split.
  - intros Hpos.
    destruct (0 <? a) eqn:Ea; [destruct (data s !! "_rlnAngleRot"); auto|].
    destruct (0 <? b) eqn:Eb; [destruct (data s !! "_rlnAngleTilt"); auto|].
    destruct (0 <? c) eqn:Ec; [destruct (data s !! "_rlnAnglePsi"); auto|].
    lia.
  - intros Ha Hb Hc Hinv Hty Hne Hvalid Hhead Hcells Hfirst.
    destruct (0 <? a) eqn:Ea; [lia|].
    destruct (0 <? b) eqn:Eb; [lia|].
    destruct (0 <? c) eqn:Ec; [lia|].
    destruct (load_of_to_string path s Hinv Hty Hne Hvalid Hhead Hcells Hfirst)
      as (text & s' & Htext & Hrest).
    exists text, s'. by rewrite Htext.
Qed.

Lemma store_then_load_witness :
  (store_plain "run1/out.star" (1, 0, 0) table_trip = StoreRaise KeyError \/
   store_plain "run1/out.star" (1, 0, 0) table_trip = UnboundLocal) /\
  exists text s',
    store_plain "run1/out.star" (0, 0, 0) table_trip = Written "run1/out.star" text /\
    load "run1/out.star" text Star_init = (Ret tt, s') /\
    header_1 s' = header_1 table_trip /\ cols s' = cols table_trip /\
    dtypes s' = dtypes table_trip /\ rows s' = rows table_trip /\
    forall key, key ∈ cols table_trip -> data s' !! key = data table_trip !! key.
Proof.
  split.
  - apply (store_then_load "run1/out.star" (1, 0, 0) table_trip). left. simpl. lia.
  - apply (store_then_load "run1/out.star" (0, 0, 0) table_trip); simpl; try lia.
    + apply table_trip_inv.
    + apply table_trip_typed.
    + discriminate.
    + repeat constructor.
    + apply table_trip_header.
    + apply table_trip_cells.
    + apply table_trip_first.
Defined.

(** ** [particle_group] with its default argument *)

Lemma gather_None {O : PyOrders} {OK : PyOrdersOk O} fuel curr nparts lut :
  length nparts = length curr -> (length curr <= fuel)%nat ->
  gather fuel None curr nparts lut = Ret lut.
Proof.
  intros Hlen Hfuel. destruct fuel as [|fuel]; simpl.
  - case_bool_decide as H; [done|]. exfalso. apply H.
    destruct curr; [simpl; lia|simpl in Hfuel; lia].
  - case_bool_decide as H; [done|].
    assert (length (argsort nparts) = length nparts) as Hal.
    { rewrite (Permutation_length (argsort_perm nparts)). apply length_seq. }
    assert (length curr <> 0)%nat as Hc0.
    { intros E. apply H. destruct curr; [simpl; lia|done]. }
    destruct (argsort nparts) as [|m0 rest] eqn:Ea; [simpl in Hal; lia|].
    simpl.
    assert (m0 ∈ seq 0 (length nparts)) as Hm0.
    { rewrite <- (argsort_perm nparts), Ea. left. }
    apply elem_of_seq in Hm0.
    destruct (lookup_lt_is_Some_2 nparts m0) as [n0 ->]; [lia|]. done.
Qed.

(** X18. [particle_group] called without [min_gp]. The default is [None],
    and the test "the smallest group has more than [min_gp] rows" holds of
    every count (Python 2 puts [None] below all numbers), so nothing is
    gathered: on a table with the invariants, at least one row and group
    ids from 0 for which numpy makes the lookup table (the machine has the
    memory for one entry for each integer up to the greatest id, and the
    entries, of 8 bytes each, are fewer than 2^63 bytes) the call returns
    and the table is exactly as it was, whatever order [set] and
    [np.argsort] use. *)
Theorem particle_group_default_keeps {O : PyOrders} {OK : PyOrdersOk O}
    (s : Star) (gs : list Z) :
  star_inv s ->
  data s !! "_rlnGroupNumber" = Some (VInt <$> gs) ->
  gs <> [] ->
  (forall x, x ∈ gs -> 0 <= x < arange_max /\ 8 * (x + 1) <= int64_max) ->
  particle_group None s = (Ret tt, s).
Proof.
  intros (Hnd & Hty & Hdom & Hlen) Hdata Hne Hrange.
  assert ("_rlnGroupNumber" ∈ cols s) as Hcol by (apply Hdom; eauto).
  pose proof (Hlen _ _ Hdata) as Hn. rewrite length_fmap in Hn.
  destruct (py_set_ints gs) as (curr & Hset & Hcnd & Hcin).
  assert (curr <> []) as Hcne.
  { destruct gs as [|x gs]; [done|]. intros ->.
    assert (x ∈ x :: gs) as Hx%Hcin by left. by apply elem_of_nil in Hx. }
  destruct (np_max_spec curr Hcne) as (mx & Hmx & Hmxin & Hmxle).
  assert (0 <= mx) as Hmx0 by (apply Hcin, Hrange in Hmxin; lia).
  assert (forall x, x ∈ gs -> 0 <= x < mx + 1) as HgsL.
  { intros x Hx. pose proof (Hrange x Hx). apply Hcin, Hmxle in Hx. lia. }
  unfold particle_group, mbind at 1, M_bind.
  rewrite (group_init_from_column s (VInt <$> gs)
             ((fun c => occupancy c gs) <$> curr)); [|done|done|].
  - rewrite Hset. unfold read, mbind at 1, M_bind.
    rewrite np_asarray_int_ints.
    2:{ intros c Hc%Hcin%Hrange. unfold in_int64, int64_min, int64_max in *.
        apply andb_true_intro. split; apply Z.leb_le; lia. }
    unfold mbind at 1, M_bind. rewrite Hmx.
    unfold mbind at 1, M_bind.
    rewrite np_arange_new_ok by (apply Hcin, Hrange in Hmxin; tauto).
    unfold mbind at 1, M_bind.
    rewrite gather_None by (by rewrite ?length_fmap).
    unfold mbind at 1, M_bind, get_nrows.
    rewrite (relabel_ints s gs _ (rows s) 0 Hdata).
    2:{ intros x Hx. rewrite np_arange_length. apply HgsL in Hx. lia. }
    2:{ lia. }
    rewrite drop_0, take_ge by lia.
    rewrite regrouped_arange by done.
    unfold set_column_data. apply is_column_true in Hcol. rewrite Hcol.
    rewrite bool_decide_eq_true_2 by (unfold get_nrows; by rewrite length_fmap).
    simpl. rewrite insert_id by done. by destruct s.
  - rewrite Hset, length_fmap.
    replace (replicate (length curr) 0)
      with ((fun c => occupancy c (take 0 gs)) <$> curr).
    + apply count_rows_ints; try done. intros x Hx. by apply Hcin.
    + clear. induction curr; simpl; [done|]. by f_equal.
Qed.

Lemma particle_group_default_keeps_witness :
  particle_group (O := orders_simple) None (table_groups [5; 5; 5; 1; 3; 3])
  = (Ret tt, table_groups [5; 5; 5; 1; 3; 3]).
Proof.
  apply (particle_group_default_keeps (OK := orders_simple_ok)
           (table_groups [5; 5; 5; 1; 3; 3]) [5; 5; 5; 1; 3; 3]).
  - apply table_groups_inv.
  - by vm_compute.
  - done.
  - intros x Hx. unfold int64_max.
    change (arange_max (PyOrders := orders_simple)) with (2 ^ 60 - 1).
    repeat (apply elem_of_cons in Hx as [->|Hx]; [lia|]).
    by apply elem_of_nil in Hx.
Defined.

(** ** [del_rows] after [add_row], and the order of its indices *)

Lemma remaining_last {A} n (l : list A) x :
  length l = n ->
  remaining_from (deleted (S n) [-1]) 0 (l ++ [x]) = l.
Proof.
  intros Hn. rewrite remaining_from_app. cbn [remaining_from Nat.add].
  assert (deleted (S n) [-1] (length l) = true) as ->.
  { apply deleted_true. exists (-1). split; [left|]. right. lia. }
  rewrite app_nil_r. apply remaining_from_none.
  intros k Hk. destruct (deleted (S n) [-1] k) eqn:E; [|done].
  apply deleted_true in E as (idx & ->%list_elem_of_singleton & [?|?]); lia.
Qed.

(** X19. [del_rows([-1])] undoes [add_row]: on a table with the
    invariants, after an [add_row] that returned, deleting the last row
    gives back the very table. *)
Theorem del_rows_undoes_add_row kwargs s s1 :
  star_inv s -> NoDup kwargs.*1 ->
  add_row kwargs s = (Ret tt, s1) ->
  del_rows (IdsSeq [-1]) s1 = (Ret tt, s).
Proof.
  intros Hinv Hnd Hadd. pose proof Hinv as (Hndc & Hty & Hdom & Hlen).
  pose proof (add_row_inv _ _ _ Hinv Hnd Hadd) as (_ & _ & _ & Hlen1).
  destruct (add_row_Ret _ _ _ Hnd Hadd) as (Hkl & d & -> & Hin & Hout).
  rewrite del_rows_Ret by done. f_equal.
  unfold del_rows_state. cbn [rows data set_rows set_data].
  assert (length (remaining_from (deleted (S (rows s)) [-1]) 0
                    (replicate (S (rows s)) ())) = rows s) as ->.
  { replace (replicate (S (rows s)) ()) with (replicate (rows s) () ++ [()]).
    - rewrite remaining_last; by rewrite length_replicate.
    - clear. induction (rows s); simpl; [done|]. by f_equal. }
  assert ((fun l => remaining_from (deleted (S (rows s)) [-1]) 0 (take (S (rows s)) l))
            <$> d = data s) as ->; [|by destruct s].
  apply map_eq. intros key. rewrite lookup_fmap.
  destruct (decide (key ∈ cols s)) as [Hkey|Hkey].
  - assert (key ∈ kwargs.*1) as Hk.
    { apply (kwargs_cover kwargs.*1 (cols s)); [done| |by rewrite length_fmap|done].
      intros k [[k' v] [-> Hkv]]%list_elem_of_fmap. by apply (Hin k' v). }
    apply list_elem_of_fmap in Hk as [[k v] [-> Hkv]].
    destruct (Hin k v Hkv) as (_ & l & dt & x & Hl & _ & _ & Hd).
    cbn [fst]. rewrite Hd, Hl. simpl. f_equal.
    pose proof (Hlen _ _ Hl) as Hll.
    rewrite take_ge by (rewrite length_app; simpl; lia).
    by apply remaining_last.
  - assert (key ∉ kwargs.*1) as Hk.
    { intros [[k v] [-> Hkv]]%list_elem_of_fmap. by destruct (Hin k v Hkv). }
    rewrite (Hout key Hk).
    destruct (data s !! key) eqn:E; [|done].
    exfalso. apply Hkey, Hdom. eauto.
Qed.

Lemma del_rows_undoes_add_row_witness :
  del_rows (IdsSeq [-1])
    (snd (add_row [("_rlnClassNumber", VStr " 7 "); ("_rlnImageName", VInt 12)]
            table_4rows))
  = (Ret tt, table_4rows).
Proof.
  apply (del_rows_undoes_add_row
           [("_rlnClassNumber", VStr " 7 "); ("_rlnImageName", VInt 12)]).
  - apply table_4rows_inv.
  - apply NoDup_by_decide. by vm_compute.
  - by vm_compute.
Defined.

Lemma remaining_from_ext {A} (del del' : nat -> bool) j (l : list A) :
  (forall k, (j <= k < j + length l)%nat -> del k = del' k) ->
  remaining_from del j l = remaining_from del' j l.
Proof.
  revert j. induction l as [|x l IH]; intros j H; simpl; [done|].
  rewrite (H j) by (simpl; lia).
  rewrite (IH (S j)) by (intros k Hk; apply H; simpl; lia). done.
Qed.

Lemma deleted_ext n ids ids' j :
  (forall i, i ∈ ids <-> i ∈ ids') -> deleted n ids j = deleted n ids' j.
Proof.
  intros H. apply eq_iff_eq_true. rewrite !deleted_true.
  split; intros (idx & Hidx & Hj); exists idx; (split; [by apply H|done]).
Qed.

(** X20. For [del_rows] only the set of the indices counts: on a table
    with the invariants, two non-empty lists with the same elements - in
    any order, with any repetitions - leave the same table. *)
Theorem del_rows_set_of_indices ids ids' s :
  star_inv s -> ids <> [] -> ids' <> [] ->
  (forall i, i ∈ ids <-> i ∈ ids') ->
  del_rows (IdsSeq ids) s = del_rows (IdsSeq ids') s.
Proof.
  intros (_ & _ & _ & Hlen) Hne Hne' Hsame.
  destruct ids as [|i ids]; [done|]. destruct ids' as [|i' ids']; [done|].
  rewrite !del_rows_Ret by done. f_equal. unfold del_rows_state. f_equal.
  - apply map_fmap_ext. intros key l Hl.
    apply remaining_from_ext. intros k _. by apply deleted_ext.
  - f_equal. f_equal. apply remaining_from_ext. intros k _. by apply deleted_ext.
Qed.

Lemma del_rows_set_of_indices_witness :
  del_rows (IdsSeq [2; -4; 2]) table_4rows = del_rows (IdsSeq [-4; 2]) table_4rows.
Proof.
  apply (del_rows_set_of_indices [2; -4; 2] [-4; 2] table_4rows).
  - apply table_4rows_inv.
  - done.
  - done.
  - intros i. rewrite !elem_of_cons. rewrite !elem_of_nil. tauto.
Defined.

(** ** [set_column_data] *)

(** X21. [set_column_data] never raises. When the key is a column and the
    data has one cell per row, on a table with the invariants,
    [get_column_data] then gives the data as it was passed (no cast takes
    place), the other columns are untouched and the invariants hold again.
    In every other case - the key is no column, or the length is not the
    number of rows - the call silently does nothing. *)
Theorem set_column_data_spec key dat s :
  exists s',
    set_column_data key dat s = (Ret tt, s') /\
    rows s' = rows s /\ cols s' = cols s /\ dtypes s' = dtypes s /\
    (key ∈ cols s -> length dat = rows s ->
     get_column_data key s' = Ret (Some dat) /\
     (forall k, k <> key -> data s' !! k = data s !! k) /\
     (star_inv s -> star_inv s')) /\
    (key ∉ cols s \/ length dat <> rows s -> s' = s).
Proof.
  unfold set_column_data, get_nrows.
  destruct (is_column key s) eqn:Hc; [case_bool_decide as Hl|]; simpl.
  - apply is_column_true in Hc. eexists. split; [done|].
    split; [done|]. split; [done|]. split; [done|]. split.
    + intros _ _. split; [|split].
      * apply get_column_data_Some; [done|]. simpl. by rewrite lookup_insert_eq.
      * intros k Hne. simpl. by rewrite lookup_insert_ne.
      * intros (Hnd & Hty & Hdom & Hlen). unfold star_inv; simpl.
        split; [done|]. split; [done|]. split.
        -- intros k. destruct (decide (k = key)) as [->|Hne].
           ++ rewrite lookup_insert_eq. split; eauto.
           ++ by rewrite lookup_insert_ne.
        -- intros k l. destruct (decide (k = key)) as [->|Hne].
           ++ rewrite lookup_insert_eq. by intros [= <-].
           ++ rewrite lookup_insert_ne by done. apply Hlen.
    + intros [?|?]; done.
  - exists s. split; [done|]. split; [done|]. split; [done|]. split; [done|].
    split; [done|]. done.
  - apply is_column_false in Hc. exists s.
    split; [done|]. split; [done|]. split; [done|]. split; [done|].
    split; [done|]. done.
Qed.

Lemma set_column_data_spec_witness :
  exists s',
    set_column_data "_rlnClassNumber" [VInt 9; VInt 8; VStr "x"; VInt 6] table_4rows
      = (Ret tt, s') /\
    rows s' = rows table_4rows /\ cols s' = cols table_4rows /\
    dtypes s' = dtypes table_4rows /\
    (get_column_data "_rlnClassNumber" s'
       = Ret (Some [VInt 9; VInt 8; VStr "x"; VInt 6]) /\
     (forall k, k <> "_rlnClassNumber" -> data s' !! k = data table_4rows !! k) /\
     star_inv s').
Proof.
  destruct (set_column_data_spec "_rlnClassNumber"
              [VInt 9; VInt 8; VStr "x"; VInt 6] table_4rows)
    as (s' & Hrun & Hr & Hc & Hd & Hset & _).
  exists s'. split; [done|]. split; [done|]. split; [done|]. split; [done|].
  destruct Hset as (Hget & Hother & Hinv).
  - apply (bool_decide_eq_true_1 (_ ∈ _)). by vm_compute.
  - done.
  - split; [done|]. split; [done|]. apply Hinv, table_4rows_inv.
Defined.

(** ** [add_column] with a scalar, the layout of [to_string] *)

Lemma cast_all_replicate d v x n :
  call_dtype d v = Ret x -> cast_all d (replicate n v) = Ret (replicate n x).
Proof.
  intros H. induction n as [|n IH]; [done|].
  cbn [replicate cast_all]. by rewrite H, IH.
Qed.

Lemma cast_all_replicate_raise d v e n :
  call_dtype d v = Raise e -> cast_all d (replicate (S n) v) = Raise e.
Proof. intros H. cbn [replicate cast_all]. by rewrite H. Qed.

(** X22. [add_column] with a scalar that is no string, for an accepted key
    on a table with the invariants. If the scalar casts to the type of the
    key, the call returns and every row of the column holds the cast
    value. If it does not cast and the table has a row, the call raises
    the error of the cast and the table is unchanged. On a table without
    rows the scalar is never cast: the call returns and the column is
    empty, whatever the scalar. *)
Theorem add_column_scalar key v no_parse s :
  star_inv s -> no_parse || is_valid key = true -> has_len (OVal v) = false ->
  (forall x, call_dtype (column_dtype key) v = Ret x ->
     exists s', add_column key (OVal v) no_parse s = (Ret tt, s') /\
       get_column_data key s' = Ret (Some (replicate (rows s) x))) /\
  (forall e, call_dtype (column_dtype key) v = Raise e -> (0 < rows s)%nat ->
     add_column key (OVal v) no_parse s = (Raise e, s)) /\
  (rows s = 0%nat ->
     exists s', add_column key (OVal v) no_parse s = (Ret tt, s') /\
       get_column_data key s' = Ret (Some [])).
Proof.
  intros Hinv Hacc Hlen. pose proof Hinv as (Hnd & Hty & Hdom & Hrows).
  assert (forall row, fill_row (column_dtype key) (OVal v) (rows s) = Ret row ->
            exists s', add_column key (OVal v) no_parse s = (Ret tt, s') /\
              get_column_data key s' = Ret (Some row)) as Hok.
  { intros row Hrow. unfold add_column. rewrite Hacc, Hrow. simpl.
    destruct (str_index (cols s) key) as [idx|] eqn:Hidx.
    - pose proof (str_index_lt _ _ _ Hidx) as Hlt.
      apply str_index_Some in Hidx as [Hidx _].
      rewrite (list_insert_id (cols s)) by done.
      rewrite bool_decide_eq_true_2 by lia.
      eexists. split; [done|]. apply get_column_data_Some; simpl.
      + by eapply list_elem_of_lookup_2.
      + by rewrite lookup_insert_eq.
    - eexists. split; [done|]. apply get_column_data_Some; simpl.
      + apply elem_of_app. right. left.
      + by rewrite lookup_insert_eq. }
  assert (fill_row (column_dtype key) (OVal v) (rows s)
          = cast_all (column_dtype key) (replicate (rows s) v)) as Hfill.
  { unfold fill_row. by rewrite Hlen. }
  split; [|split].
  - intros x Hx. apply Hok. rewrite Hfill. by apply cast_all_replicate.
  - intros e He Hpos. unfold add_column. rewrite Hacc, Hfill.
    destruct (rows s) as [|n]; [lia|]. by rewrite (cast_all_replicate_raise _ _ e).
  - intros H0. apply Hok. rewrite Hfill, H0. done.
Qed.

Lemma add_column_scalar_witness :
  (exists s', add_column "_rlnClassNumber" (OVal (VFloat (S754_finite false 7 (-1)))) false
                table_4rows = (Ret tt, s') /\
     get_column_data "_rlnClassNumber" s'
       = Ret (Some (replicate (rows table_4rows) (VInt 3)))) /\
  add_column "_rlnClassNumber" (OVal (VFloat S754_nan)) false table_4rows
    = (Raise ValueError, table_4rows) /\
  (exists s', add_column "_rlnClassNumber" (OVal (VFloat S754_nan)) false table_0rows
                = (Ret tt, s') /\
     get_column_data "_rlnClassNumber" s' = Ret (Some [])).
Proof.
  split; [|split].
  - apply (add_column_scalar "_rlnClassNumber" (VFloat (S754_finite false 7 (-1)))
             false table_4rows table_4rows_inv); done.
  - apply (add_column_scalar "_rlnClassNumber" (VFloat S754_nan)
             false table_4rows table_4rows_inv); try done. vm_compute. lia.
  - apply (add_column_scalar "_rlnClassNumber" (VFloat S754_nan) false table_0rows);
      try done.
    apply ops_star_inv; [apply star_inv_init|ops_ok|by vm_compute].
Defined.

(** X23. The layout of [to_string]. On a table with the invariants the
    call returns, whatever the cells: the text is the lines of the
    preamble, then one line [key #i] for each column ([i] from 1), then -
    when there is a column - one line for each row, the texts of its cells
    joined by tabs, and at the end an empty line. With no column no row is
    written. *)
Theorem to_string_layout s :
  star_inv s ->
  to_string s =
    Ret (concat_strings
           (header_1 s ++ imap header_line (cols s) ++
            (if decide (cols s = []) then []
             else (fun r => join_tab (py_str <$> row_cells s r)) <$> seq 0 (rows s))
            ++ [NL])).
Proof.
  intros Hinv. destruct (decide (cols s = [])) as [Hc|Hc].
  - unfold to_string, get_ncols. rewrite Hc. simpl.
    rewrite !concat_strings_app. simpl. by rewrite append_nil_r_.
  - by apply to_string_spec.
Qed.

Lemma to_string_layout_witness :
  to_string table_blank =
    Ret (concat_strings
           (header_1 table_blank ++ imap header_line (cols table_blank) ++
            (if decide (cols table_blank = []) then []
             else (fun r => join_tab (py_str <$> row_cells table_blank r))
                    <$> seq 0 (rows table_blank))
            ++ [NL])).
Proof.
  apply (to_string_layout table_blank).
  apply ops_star_inv; [apply star_inv_init|ops_ok|by vm_compute].
Defined.

(** ** The invariants and the typing: what [load] and the operations give *)

Lemma load_cell_outside item s r s' :
  load_cell item s = (r, s') ->
  cols s' = cols s /\ dtypes s' = dtypes s /\
  forall key, key <> item.2 -> data s' !! key = data s !! key.
Proof.
  destruct item as [[d dt] col]. unfold load_cell.
  destruct (load_cast dt d) as [v|e]; [|by intros [= <- <-]].
  destruct (data s !! col) as [l|]; intros [= <- <-]; [|done].
  split; [done|]. split; [done|]. intros key Hne. simpl. by rewrite lookup_insert_ne.
Qed.

Lemma for_each_load_cell_outside (keys : list string) items :
  Forall (fun item : string * dtype * string => item.2 ∈ keys) items ->
  forall s r s',
  for_each items load_cell s = (r, s') ->
  cols s' = cols s /\ dtypes s' = dtypes s /\
  forall key, key ∉ keys -> data s' !! key = data s !! key.
Proof.
  induction 1 as [|item items Hitem Hall IH]; intros s r s'.
  - by intros [= <- <-].
  - rewrite for_each_cons. unfold mbind, M_bind.
    destruct (load_cell item s) as [r1 s1] eqn:E1.
    apply load_cell_outside in E1 as (Hc1 & Hd1 & Ho1).
    destruct r1 as [[]|e].
    + intros (Hc & Hd & Ho)%IH. split; [congruence|]. split; [congruence|].
      intros key Hkey. rewrite Ho by done. apply Ho1. intros ->. done.
    + intros [= <- <-]. split; [done|]. split; [done|].
      intros key Hkey. apply Ho1. intros ->. done.
Qed.

Lemma load_rows_outside lines : forall s r s',
  load_rows lines s = (r, s') ->
  cols s' = cols s /\ dtypes s' = dtypes s /\
  forall key, key ∉ cols s -> data s' !! key = data s !! key.
Proof.
  induction lines as [|line lines IH]; intros s r s'.
  - by intros [= <- <-].
  - cbn [load_rows].
    destruct (negb (bool_decide (get_ncols s = length (split line)))).
    + by intros [= <- <-].
    + unfold mbind at 1, M_bind at 1.
      destruct (for_each (zip3 (split line) (dtypes s) (cols s)) load_cell s)
        as [r1 s1] eqn:E1.
      apply (for_each_load_cell_outside (cols s)) in E1 as (Hc1 & Hd1 & Ho1).
      2:{ apply Forall_forall. intros [[x y] z] Hin. simpl. by eapply zip3_third. }
      destruct r1 as [[]|e]; [|by intros [= <- <-]].
      unfold mbind at 1, M_bind at 1, modify.
      intros (Hc & Hd & Ho)%IH. simpl in *.
      split; [congruence|]. split; [congruence|].
      intros key Hkey. rewrite Ho by (by rewrite Hc1). by apply Ho1.
Qed.

Lemma load_cast_has_type d tok v : load_cast d tok = Ret v -> value_has_type d v.
Proof.
  destruct (load_cast_cases tok) as (Hs & Hf & Hi). destruct d.
  - rewrite Hs. by intros [= <-].
  - rewrite Hi. destruct (int_parse tok); [by intros [= <-]|].
    destruct (float_parse tok) as [x|]; [|done].
    destruct (float_trunc x); [by intros [= <-]|done..].
  - rewrite Hf. destruct (float_parse tok); [by intros [= <-]|done].
Qed.

Lemma cast_row_has_type dts : forall toks vals,
  cast_row dts toks = Ret vals ->
  length vals = min (length dts) (length toks) /\
  forall c d v, dts !! c = Some d -> vals !! c = Some v -> value_has_type d v.
Proof.
  induction dts as [|dt dts IH]; intros toks vals.
  - simpl. intros [= <-]. split; [done|]. by intros c d v.
  - destruct toks as [|tok toks]; simpl.
    + intros [= <-]. split; [done|]. by intros c d v ?.
    + destruct (load_cast dt tok) as [x|] eqn:Hx; [|done]. simpl.
      destruct (cast_row dts toks) as [r|] eqn:Hr; [|done]. simpl.
      intros [= <-]. destruct (IH _ _ Hr) as [Hlen Hty]. split; [simpl; lia|].
      intros [|c] d v; simpl.
      * intros [= <-] [= <-]. by eapply load_cast_has_type.
      * apply Hty.
Qed.

Lemma res_map_lookup {A B} (f : A -> res B) l r i y :
  res_map f l = Ret r -> r !! i = Some y -> exists x, l !! i = Some x /\ f x = Ret y.
Proof.
  revert r i. induction l as [|x l IH]; intros r i; simpl.
  - by intros [= <-].
  - destruct (f x) as [y'|] eqn:Hy; [|done]. simpl.
    destruct (res_map f l) as [r'|] eqn:Hr; [|done]. simpl.
    intros [= <-]. destruct i as [|i]; simpl.
    + intros [= <-]. by exists x.
    + by apply IH.
Qed.

(** X24. What [load] gives. For a well-formed file whose tokens all cast,
    loaded into a new table, the call returns a table with the invariants
    of the data model (distinct columns, one type per column, the
    dictionary holding exactly the columns, one cell per row in each) and
    with typed cells: every cell has the type the registry gives its
    column. The directory and the file name are those of
    [os.path.split] on the path. *)
Theorem load_establishes_invariants (path : string) (f : star_file) cells :
  star_file_ok f ->
  res_map (cast_row (column_dtype <$> sf_keys f)) (sf_rows f) = Ret cells ->
  exists s',
    load_lines path (sf_lines f) Star_init = (Ret tt, s') /\
    star_inv s' /\ star_typed s' /\
    root_dir s' = Some (os_path_split path).1 /\
    fname s' = Some (os_path_split path).2.
Proof.
  intros Hok Hcells.
  destruct (load_lines_ok path f cells Hok Hcells)
    as (s' & Hload & Hh & Hc & Hd & Hr & Hdata).
  pose proof Hok as (Hpre & Hne & Hnd & Hvalid & Hcols & Hrows & Hfirst & Htail).
  set (u := with_columns
              (set_cols [] (set_header_1 (header_1 (set_header_1 [] Star_init)
                                            ++ sf_preamble f)
                              (set_header_1 [] Star_init))) (sf_keys f)).
  destruct (load_rows (sf_row_lines f ++ sf_tail f) u) as [r u'] eqn:Hrun.
  pose proof (load_rows_outside _ _ _ _ Hrun) as (Hcu & Hdu & Hou).
  assert (load_lines path (sf_lines f) Star_init
          = (match r with
             | Ret _ => (Ret tt, set_origin (os_path_split path).1 (os_path_split path).2 u')
             | Raise e => (Raise e, u')
             end)) as Hload2.
  { unfold load_lines, sf_lines.
    unfold mbind at 1, M_bind, modify. unfold mbind at 1, M_bind.
    rewrite load_header_1_spec; [|done|].
    2:{ destruct Hcols as [|key line keys col_lines [Hu _] _]; [done|]. done. }
    unfold mbind at 1, M_bind. unfold mbind at 1, M_bind.
    rewrite (load_header_2_spec path (sf_keys f)); [|done|done|done|done].
    fold u. unfold mbind at 1, M_bind. rewrite Hrun. by destruct r as [[]|]. }
  rewrite Hload in Hload2. destruct r as [[]|e]; [|done].
  injection Hload2 as ->.
  eexists. split; [done|].
  assert (length cells = length (sf_rows f)) as Hlc by by eapply res_map_length.
  assert (forall r row, cells !! r = Some row ->
            length row = length (sf_keys f) /\
            forall c d v, (column_dtype <$> sf_keys f) !! c = Some d ->
              row !! c = Some v -> value_has_type d v) as Hrow.
  { intros r row Hrw.
    destruct (res_map_lookup _ _ _ _ _ Hcells Hrw) as (toks & Htoks & Hcast).
    destruct (cast_row_has_type _ _ _ Hcast) as [Hlen Hty].
    split; [|done]. rewrite Hlen, length_fmap.
    destruct (Forall2_lookup_l _ _ _ _ _ Hrows Htoks) as (line & _ & _ & Hl). lia. }
  split; [|split; [|done]].
  - unfold star_inv. simpl in *. rewrite Hc, Hd. split; [done|].
    split; [by rewrite length_fmap|]. split.
    + intros key. split.
      * intros [c Hkey]%list_elem_of_lookup_1. rewrite (Hdata c key Hkey). eauto.
      * intros Hsome. destruct (decide (key ∈ sf_keys f)) as [|Hnot]; [done|].
        exfalso. rewrite Hou in Hsome by done.
        unfold u in Hsome. simpl in Hsome.
        rewrite foldl_insert_nil_lookup, decide_False in Hsome by done.
        by destruct Hsome.
    + intros key l Hl. rewrite Hr.
      destruct (decide (key ∈ sf_keys f)) as [[c Hkey]%list_elem_of_lookup_1|Hnot].
      * rewrite (Hdata c key Hkey) in Hl. injection Hl as <-.
        by rewrite length_column.
      * rewrite Hou in Hl by done. unfold u in Hl. simpl in Hl.
        by rewrite foldl_insert_nil_lookup, decide_False in Hl by done.
  - intros c key Hkey. simpl in *. rewrite Hc in Hkey. rewrite Hd.
    split; [by rewrite list_lookup_fmap, Hkey|].
    intros l Hl. rewrite (Hdata c key Hkey) in Hl. injection Hl as <-.
    unfold column. apply Forall_fmap, Forall_forall.
    intros row [r Hrw]%list_elem_of_lookup_1. simpl.
    destruct (Hrow r row Hrw) as [Hlen Hty].
    destruct (lookup_lt_is_Some_2 row c) as [v Hv].
    { rewrite Hlen. by eapply lookup_lt_Some. }
    rewrite (list_lookup_total_correct _ _ _ Hv).
    apply (Hty c); [|done]. by rewrite list_lookup_fmap, Hkey.
Qed.

Lemma load_establishes_invariants_witness :
  exists s',
    load_lines "run1/particles.star" (sf_lines file_example) Star_init = (Ret tt, s') /\
    star_inv s' /\ star_typed s' /\
    root_dir s' = Some (os_path_split "run1/particles.star").1 /\
    fname s' = Some (os_path_split "run1/particles.star").2.
Proof.
  apply (load_establishes_invariants "run1/particles.star" file_example
           [[VInt 1000; VFloat (S754_finite false 8796093022208000 (-43))];
            [VInt 3; VFloat (S754_finite false 4503599627370496 (-50))]]).
  - apply file_example_ok.
  - by vm_compute.
Defined.

(** X25. The typing is kept. Starting from a table with the invariants
    whose cells have the types of their columns, after any sequence of
    [add_row], [del_rows], [add_column] and [del_column] calls that all
    returned, every cell that [get_element] reads in a column has the type
    that [get_column_type] reports for the column, and that type is the
    one the registry gives the key (float for a key it does not know). *)
Theorem structural_ops_keep_types (ops : list op) (s s' : Star) :
  star_inv s -> star_typed s -> Forall op_ok ops ->
  run_ops ops s = (Ret tt, s') ->
  forall key row x,
    key ∈ cols s' -> get_element key row s' = Ret x ->
    get_column_type key s' = Ret (Some (column_dtype key)) /\
    value_has_type (column_dtype key) x.
Proof.
  intros Hinv Hty Hok Hrun key row x Hkey Hget.
  destruct (run_ops_typed ops s s' Hinv Hty Hok Hrun) as [Hinv' Hty'].
  split; [by apply get_column_type_typed|].
  revert Hget. unfold get_element, data_at.
  destruct (data s' !! key) as [l|] eqn:Hl; [|done]. simpl.
  rewrite getitem_norm.
  destruct (norm_index (length l) row) as [j|]; [|done]. simpl.
  destruct (l !! j) as [y|] eqn:Hy; [|done]. simpl. intros [= <-].
  pose proof (typed_column _ _ _ Hty' Hkey Hl) as Hall.
  rewrite Forall_forall in Hall. apply Hall. by eapply list_elem_of_lookup_2.
Qed.

Lemma structural_ops_keep_types_witness :
  get_column_type "_rlnCoordinateX" (run_ops ops_example Star_init).2
    = Ret (Some (column_dtype "_rlnCoordinateX")) /\
  value_has_type (column_dtype "_rlnCoordinateX")
    (VFloat (S754_finite false 7881299347898368 (-50))).
Proof.
  apply (structural_ops_keep_types ops_example Star_init
           (run_ops ops_example Star_init).2) with (row := 0).
  - apply star_inv_init.
  - apply (star_typed_empty 0).
  - ops_ok.
  - by vm_compute.
  - apply (bool_decide_eq_true_1 (_ ∈ _)). by vm_compute.
  - by vm_compute.
Defined.

(** X26. [get_subset] with all the rows in order is a copy of the cells
    and nothing more: on a table with the invariants, typed cells and
    columns of the registry, [get_subset(range(rows))] returns a table
    with the same columns, types, number of rows and cells, but with the
    preamble of a new table and no directory or file name - the preamble
    and the origin of the table are never copied. *)
Theorem get_subset_all_rows {O : PyOrders} {OK : PyOrdersOk O} s :
  star_inv s -> star_typed s ->
  (forall key, key ∈ cols s -> is_valid key = true) ->
  exists t,
    get_subset s (Z.of_nat <$> seq 0 (rows s)) = Ret t /\
    cols t = cols s /\ dtypes t = dtypes s /\ rows t = rows s /\
    data t = data s /\
    header_1 t = header_1 Star_init /\ root_dir t = None /\ fname t = None.
Proof.
  intros Hinv Hty Hvalid. pose proof Hinv as (_ & _ & _ & Hlen).
  destruct (add_columns_fresh [] (cols s) Star_init fresh_star_init)
    as (t & Hcols & Hfresh); [apply Hinv|done|].
  simpl in Hfresh. apply fresh_star_is_sub_star in Hfresh; [|done..]. subst t.
  exists (sub_star s (seq 0 (rows s))). split.
  - unfold get_subset. change (get_column_keys s) with (cols s).
    unfold mbind at 1, M_bind at 1. rewrite Hcols.
    rewrite (get_subset_loop s _ [] (seq 0 (rows s))); [done|done|done|].
    apply Forall2_fmap_l, Forall_Forall2_diag, Forall_forall.
    intros j Hj%elem_of_seq. apply norm_index_of_nat. lia.
  - split; [done|]. split; [done|]. split; [simpl; by rewrite length_seq|].
    split; [|done]. simpl. apply map_eq. intros key. rewrite lookup_fmap.
    destruct (data s !! key) as [l|] eqn:Hl; [|done]. simpl. f_equal.
    rewrite <- (Hlen _ _ Hl). apply fmap_lookup_total_seq.
Qed.

Lemma get_subset_all_rows_witness :
  exists t,
    get_subset (O := orders_simple) table_trip (Z.of_nat <$> seq 0 (rows table_trip))
      = Ret t /\
    cols t = cols table_trip /\ dtypes t = dtypes table_trip /\
    rows t = rows table_trip /\ data t = data table_trip /\
    header_1 t = header_1 Star_init /\ root_dir t = None /\ fname t = None.
Proof.
  apply (get_subset_all_rows (OK := orders_simple_ok) table_trip).
  - apply table_trip_inv.
  - apply table_trip_typed.
  - change (cols table_trip)
      with ["_rlnMicrographName"; "_rlnClassNumber"; "_rlnCoordinateX"].
    intros key Hk.
    repeat (apply elem_of_cons in Hk as [->|Hk]; [done|]).
    by apply elem_of_nil in Hk.
Defined.
